(** * Lattice Monte Carlo and instanton extraction: a shallow embedding

    The drivers of the repository (streamline_iilm.py,
    monte_carlo_ao_cooling_density.py, random_instanton_monte_carlo.py,
    random_instanton_monte_carlo_heating.py, anh_osc_diag.py) are embedded
    as Rocq functions.  Floating-point numbers are idealised as real
    numbers; Python integers are [Z] (or [nat] for counts); numpy arrays
    are lists, read and written through bounds-checked accessors that
    return [IndexError] where numpy raises it. *)

From Stdlib Require Import Reals Lra Lia ZArith List.
From stdpp Require Import base option list gmap.

Local Open Scope Z_scope.

(** ** Python results and numpy arrays *)

Module Py.

(** Outcome of a Python computation: a value or a raised exception. *)
Inductive result (A : Type) : Type :=
| Ok (a : A)
| IndexError (i : Z)
| ZeroDivisionError
| ValueError.
Arguments Ok {A} a.
Arguments IndexError {A} i.
Arguments ZeroDivisionError {A}.
Arguments ValueError {A}.

Definition bind {A B} (m : result A) (k : A -> result B) : result B :=
  match m with
  | Ok a => k a
  | IndexError i => IndexError i
  | ZeroDivisionError => ZeroDivisionError
  | ValueError => ValueError
  end.

(** [for x in xs: st = body st x], stopping at the first exception. *)
Fixpoint for_each {S X} (xs : list X) (body : S -> X -> result S) (st : S)
  : result S :=
  match xs with
  | [] => Ok st
  | x :: xs' => bind (body st x) (for_each xs' body)
  end.

(** [range(lo, hi)] *)
Definition range (lo hi : Z) : list Z :=
  map (fun k => lo + Z.of_nat k) (seq 0 (Z.to_nat (hi - lo))).

(** [range(lo, hi, 2)] *)
Definition range2 (lo hi : Z) : list Z :=
  map (fun k => lo + 2 * Z.of_nat k) (seq 0 (Z.to_nat ((hi - lo + 1) / 2))).

(** Position designated by a Python index in an array of [len] items:
    non-negative indices count from the front, negative ones from the
    back; anything else is out of bounds. *)
Definition norm_index (len : nat) (i : Z) : option nat :=
  if 0 <=? i then
    if i <? Z.of_nat len then Some (Z.to_nat i) else None
  else
    if - Z.of_nat len <=? i then Some (Z.to_nat (Z.of_nat len + i)) else None.

Section Arrays.
Context {A : Type}.

(** [a[i]] *)
Definition getitem (a : list A) (i : Z) : result A :=
  match norm_index (length a) i with
  | Some k => match a !! k with Some v => Ok v | None => IndexError i end
  | None => IndexError i
  end.

(** [a[i] = v] *)
Definition setitem (a : list A) (i : Z) (v : A) : result (list A) :=
  match norm_index (length a) i with
  | Some k => Ok (<[k := v]> a)
  | None => IndexError i
  end.

(** [np.insert(a, 0, v)] *)
Definition np_insert0 (a : list A) (v : A) : list A := v :: a.

(** [np.append(a, v)] *)
Definition np_append (a : list A) (v : A) : list A := a ++ [v].

(** Bound of a slice: negative bounds count from the back, and the
    result is clamped to [0, len]. *)
Definition slice_bound (len : nat) (i : Z) : nat :=
  if 0 <=? i then Nat.min (Z.to_nat i) len
  else Z.to_nat (Z.of_nat len + i).

(** [a[start:stop]] *)
Definition slice (a : list A) (start stop : Z) : list A :=
  let s := slice_bound (length a) start in
  let e := slice_bound (length a) stop in
  take (e - s)%nat (drop s a).
End Arrays.

(** [np.linspace(start, stop, num, False)] *)
Definition linspace (start stop : R) (num : nat) : list R :=
  map (fun i => start + INR i * ((stop - start) / INR num))%R (seq 0 num).

(** [np.zeros(n)] for a size that is not negative. *)
Definition zeros (n : nat) : list R := repeat 0%R n.

(** [np.zeros((n), float)], [np.zeros((n), int)] and
    [np.linspace(start, stop, num, False)] for an integer given by the
    caller: a negative one is refused with a [ValueError]. *)
Definition np_zeros (n : Z) : result (list R) :=
  if n <? 0 then ValueError else Ok (zeros (Z.to_nat n)).

Definition np_zeros_int (n : Z) : result (list Z) :=
  if n <? 0 then ValueError else Ok (repeat 0 (Z.to_nat n)).

Definition np_linspace (start stop : R) (num : Z) : result (list R) :=
  if num <? 0 then ValueError else Ok (linspace start stop (Z.to_nat num)).

(** Largest integer not above [r], and [int(np.rint(r))]: the nearest
    integer, a tie going to the even one. *)
Definition floor (r : R) : Z := up r - 1.

Definition rint (r : R) : Z :=
  let f := floor r in
  let d := (r - IZR f)%R in
  if Rlt_dec d (1 / 2) then f
  else if Rlt_dec (1 / 2) d then f + 1
  else if Z.even f then f else f + 1.

(** Computations that also thread a world [W] (heap, random stream,
    output), keeping the world reached when an exception is raised. *)
Definition M (W A : Type) : Type := W -> W * result A.

Definition mret {W A} (a : A) : M W A := fun w => (w, Ok a).

Definition mbind {W A B} (m : M W A) (k : A -> M W B) : M W B :=
  fun w =>
    match m w with
    | (w', Ok a) => k a w'
    | (w', IndexError i) => (w', IndexError i)
    | (w', ZeroDivisionError) => (w', ZeroDivisionError)
    | (w', ValueError) => (w', ValueError)
    end.

Definition lift {W A} (r : result A) : M W A := fun w => (w, r).

Definition modify {W} (f : W -> W) : M W unit := fun w => (f w, Ok tt).

Definition gets {W A} (f : W -> A) : M W A := fun w => (w, Ok (f w)).

Fixpoint mfor_each {W S X} (xs : list X) (body : S -> X -> M W S) (st : S)
  : M W S :=
  match xs with
  | [] => mret st
  | x :: xs' => mbind (body st x) (mfor_each xs' body)
  end.

(** [wp m Q E w]: run from [w], [m] either returns a value and a world
    that satisfy [Q], or raises in a world that satisfies [E]. *)
Definition wp {W A} (m : M W A) (Q : A -> W -> Prop) (E : W -> Prop)
    (w : W) : Prop :=
  match m w with
  | (w', Ok a) => Q a w'
  | (w', _) => E w'
  end.

End Py.

Notation "'let*' x ':=' m 'in' k" := (Py.bind m (fun x => k))
  (at level 10, x name, m at level 100, k at level 200).

Notation "'do*' x ':=' m 'in' k" := (Py.mbind m (fun x => k))
  (at level 10, x name, m at level 100, k at level 200).

Import Py.

(** ** The streamline solver (streamline_iilm.py) *)

Module Streamline.
Section Model.
Local Open Scope R_scope.

(** [ip.dtau] and [ip.x_potential_minimum]. *)
Variables (dtau x_potential_minimum : R).

(** The helpers of utility_rilm and utility_monte_carlo used by the
    solver.  [find_instantons] returns the two counts and the arrays
    of positive and negative roots. *)
Variable ansatz_instanton_conf : list R -> list R -> list R.
Variable return_action : list R -> R.
Variable find_instantons : list R -> Z -> R -> Z * Z * list R * list R.

Record state := {
  x_config : list R;
  lambda_derivative : list R;
  action_density : list R;
  tau_writer : list R;      (* values written to delta_tau_ia.txt *)
  act_writer : list R       (* values written to streamline_action_int.txt *)
}.

(** Lines 68-69 *)
Definition tau_centers_ia (r_initial_sep : R) (n_lattice_half : nat)
  : list R :=
  [INR n_lattice_half * dtau - r_initial_sep / 2;
   INR n_lattice_half * dtau + r_initial_sep / 2].

(** Line 71 *)
Definition tau_array (n_lattice_half : nat) : list R :=
  linspace 0 (INR n_lattice_half * 2 * dtau) (n_lattice_half * 2).

(** Lines 74-80: the two-instanton ansatz and its padding. *)
Definition initial_x_config (r_initial_sep : R) (n_lattice_half : nat)
  : result (list R) :=
  let x := ansatz_instanton_conf
             (tau_centers_ia r_initial_sep n_lattice_half)
             (tau_array n_lattice_half) in
  let* x0 := getitem x 0 in
  let x := np_insert0 x x0 in
  let* x0 := getitem x 0 in
  let x := np_insert0 x x0 in
  let* v := getitem x (-2) in
  let* x := setitem x (-1) v in
  let* v := getitem x (-1) in
  Ok (np_append x v).

(** Line 89 *)
Definition ansatz_action : R := 4 / 3 * x_potential_minimum ^ 3.

(** Lines 102-104 *)
Definition der_2_at (x : list R) (i_pos : Z) : result R :=
  let* xp2 := getitem x (i_pos + 2) in
  let* xp1 := getitem x (i_pos + 1) in
  let* xc := getitem x i_pos in
  let* xm1 := getitem x (i_pos - 1) in
  let* xm2 := getitem x (i_pos - 2) in
  Ok ((- xp2 + 16 * xp1 - 30 * xc + 16 * xm1 - xm2)
      / (12 * dtau * dtau)).

(** Value held at position [i], for statements about a configuration. *)
Definition val (x : list R) (i : Z) : R := default 0 (x !! Z.to_nat i).

(** The local functional gradient as the specification writes it:
    [-1/2 (5-point second derivative) + 4 x (x^2 - v_min^2)]. *)
Definition functional_gradient (x : list R) (i : Z) : R :=
  - (1 / 2) * ((- val x (i + 2) + 16 * val x (i + 1) - 30 * val x i
                + 16 * val x (i - 1) - val x (i - 2)) / (12 * dtau ^ 2))
  + 4 * val x i * (val x i ^ 2 - x_potential_minimum ^ 2).

(** Lines 100-114: one pass of the gradient loop body. *)
Definition gradient_body (x lam : list R) (i_pos : Z) : result (list R) :=
  let* der_2 := der_2_at x i_pos in
  let* a := getitem x i_pos in
  let* b := getitem x i_pos in
  let* c := getitem x i_pos in
  setitem lam (i_pos - 2)
    (- der_2 / 2 + 4 * a
                   * (b * c - x_potential_minimum * x_potential_minimum)).

Definition interior (n_lattice_half : nat) : list Z :=
  range 2 (2 * Z.of_nat n_lattice_half + 2).

Definition gradient_loop (n_lattice_half : nat) (x lam : list R)
  : result (list R) :=
  for_each (interior n_lattice_half) (gradient_body x) lam.

(** Lines 116-117 *)
Definition update_body (lam : list R) (stream_time_step : R)
    (x : list R) (i_pos : Z) : result (list R) :=
  let* xi := getitem x i_pos in
  let* l := getitem lam (i_pos - 2) in
  setitem x i_pos (xi + - l * stream_time_step).

Definition update_loop (n_lattice_half : nat) (lam : list R)
    (stream_time_step : R) (x : list R) : result (list R) :=
  for_each (interior n_lattice_half) (update_body lam stream_time_step) x.

(** Lines 119-122 *)
Definition clamp_ghosts (x : list R) : result (list R) :=
  let* v := getitem x 2 in let* x := setitem x 0 v in
  let* v := getitem x 2 in let* x := setitem x 1 v in
  let* v := getitem x (-3) in let* x := setitem x (-1) v in
  let* v := getitem x (-3) in setitem x (-2) v.

(** Lines 124-127 *)
Definition density_body (x dens : list R) (i : Z) : result (list R) :=
  let* a := getitem x i in
  let v := (a ^ 2 - x_potential_minimum ^ 2) ^ 2 in
  let* b := getitem x (i + 1) in
  let* c := getitem x (i - 1) in
  let k := (b - c) / (2 * dtau) in
  setitem dens (i - 2) (k ^ 2 / 4 + v).

Definition density_loop (n_lattice_half : nat) (x dens : list R)
  : result (list R) :=
  for_each (interior n_lattice_half) (density_body x) dens.

(** Lines 135-144: what the two writers receive at step [i_s]. *)
Definition record (i_s : Z) (current_action : R)
    (pos_root neg_root : list R) (tw aw : list R)
  : result (list R * list R) :=
  if ((60000 <? i_s) && (i_s mod 20 =? 0))%Z then
    if ((length pos_root =? 1) && (length neg_root =? 1))%nat then
      let interactive_action := current_action - 2 * ansatz_action in
      let* p := getitem pos_root 0 in
      let* q := getitem neg_root 0 in
      let tau_i_a := Rabs (p - q) in
      Ok (tw ++ [tau_i_a], aw ++ [interactive_action / ansatz_action])
    else Ok (tw, aw)
  else Ok (tw, aw).

(** Lines 97-144: the body of the loop over [i_s]. *)
Definition iteration (stream_time_step : R) (n_lattice_half : nat)
    (st : state) (i_s : Z) : result state :=
  let* lam := gradient_loop n_lattice_half (x_config st)
                (lambda_derivative st) in
  let* x := update_loop n_lattice_half lam stream_time_step (x_config st) in
  let* x := clamp_ghosts x in
  let* dens := density_loop n_lattice_half x (action_density st) in
  let current_action := return_action (slice x 2 (-1)) in
  let '(_, _, pos_root, neg_root) :=
    find_instantons (slice x 2 (-2)) (Z.of_nat (length x) - 4) dtau in
  let* w := record i_s current_action pos_root neg_root
              (tau_writer st) (act_writer st) in
  Ok {| x_config := x; lambda_derivative := lam; action_density := dens;
        tau_writer := fst w; act_writer := snd w |}.

(** The sizes the arrays keep throughout the evolution. *)
Definition well_shaped (n_lattice_half : nat) (st : state) : Prop :=
  length (x_config st) = (2 * n_lattice_half + 4)%nat /\
  length (lambda_derivative st) = (2 * n_lattice_half)%nat /\
  length (action_density st) = (2 * n_lattice_half)%nat.

(** [streamline_method_iilm] *)
Definition streamline_method_iilm (r_initial_sep stream_time_step : R)
    (n_lattice_half n_streamline : nat) : result state :=
  let* x := initial_x_config r_initial_sep n_lattice_half in
  let st0 := {| x_config := x;
                lambda_derivative := zeros (2 * n_lattice_half);
                action_density := zeros (2 * n_lattice_half);
                tau_writer := []; act_writer := [] |} in
  for_each (range 0 (Z.of_nat n_streamline))
    (iteration stream_time_step n_lattice_half) st0.

End Model.
End Streamline.

(** ** The statistical aggregator (utility_monte_carlo.stat_av_var) *)

Module Aggregator.
Local Open Scope R_scope.

(** Modelled from the spec: [stat_av_var] lives in utility_monte_carlo,
    which is not among the sources; section 4.5 gives its contract.  Per
    bin, [mean = sum / n_samples]. *)
Definition bin_mean (n_samples : Z) (sum : R) : R := sum / IZR n_samples.

(** Modelled from the spec: the per-bin error of utility_monte_carlo's
    [stat_av_var], [sqrt(max(0, sumsq/n - mean^2) / n)] (section 4.5). *)
Definition bin_error (n_samples : Z) (sum sumsq : R) : R :=
  sqrt (Rmax 0 (sumsq / IZR n_samples - bin_mean n_samples sum ^ 2)
        / IZR n_samples).

(** Modelled from the spec: utility_monte_carlo's [stat_av_var] over
    parallel arrays of sums and sums of squares; a zero sample count is
    an error raised to the caller (section 4.5: "must fail loudly"). *)
Definition stat_av_var (observable observable_sqrd : list R) (n_data : Z)
  : result (list R * list R) :=
  if (n_data =? 0)%Z then ZeroDivisionError
  else Ok (map (bin_mean n_data) observable,
           zip_with (bin_error n_data) observable observable_sqrd).

(** The accumulation pattern of the drivers
    (monte_carlo_ao_cooling_density.py, lines 100-101):
    [sum += x; sumsq += pow(x, 2)] for each sample. *)
Definition accumulate (samples : list R) : R * R :=
  fold_left (fun acc x => (fst acc + x, snd acc + x ^ 2)) samples (0, 0).

End Aggregator.

(** ** The lattice action and the cooling operator *)

Module Lattice.
Section Model.
Local Open Scope R_scope.

Variables (dtau x_potential_minimum : R).

(** Value at a site of a periodic lattice: the index wraps around. *)
Definition site (c : list R) (i : Z) : R :=
  default 0 (c !! Z.to_nat (i mod Z.of_nat (length c))).

(** Modelled from the spec: [return_action] lives in utility_monte_carlo,
    which is not among the sources.  Section 4.1 gives the local term
    [1/4 ((x[i+1]-x[i-1])/(2 dtau))^2 + (x[i]^2 - v_min^2)^2] with periodic
    wrap. *)
Definition local_term (c : list R) (i : Z) : R :=
  1 / 4 * ((site c (i + 1) - site c (i - 1)) / (2 * dtau)) ^ 2
  + (site c i ^ 2 - x_potential_minimum ^ 2) ^ 2.

(** Modelled from the spec: the action of section 4.1, the sum of the
    local term over every site (the absent [return_action]). *)
Definition action (c : list R) : R :=
  fold_right Rplus 0
    (map (fun i => local_term c (Z.of_nat i)) (seq 0 (length c))).

(** Modelled from the spec: [local_action_change] of section 4.1, "the
    change in action from replacing config[site] with trial_value". *)
Definition local_action_change (c : list R) (i : nat) (trial : R) : R :=
  action (<[i := trial]> c) - action c.

(** Modelled from the spec: section 4.3 cools a site by "a small
    gradient-descent step" on the local action.  The gradient is the
    derivative of the action of section 4.1 with respect to [x[i]]: the
    site enters its own potential term and the central differences of
    its two neighbours, which reach the sites [i - 2] and [i + 2]. *)
Definition local_gradient (c : list R) (i : Z) : R :=
  4 * site c i * (site c i ^ 2 - x_potential_minimum ^ 2)
  + (2 * site c i - site c (i - 2) - site c (i + 2)) / (8 * dtau ^ 2).

(** Modelled from the spec: the step of section 4.3 at one site, of size
    [step_size], with the neighbours held fixed. *)
Definition cooling_step (step_size : R) (c : list R) (i : nat) : list R :=
  <[i := site c (Z.of_nat i) - step_size * local_gradient c (Z.of_nat i)]> c.

(** Modelled from the spec: one cooling sweep of section 4.3 (the absent
    [configuration_cooling]): every site is visited once, in lattice
    order, and updated in place, so that a site sees the new values of
    the sites before it. *)
Definition cooling_sweep (step_size : R) (c : list R) : list R :=
  fold_left (cooling_step step_size) (seq 0 (length c)) c.

(** The second-order coefficient of the change of the action under a
    step from [x[i]] to [y], on a lattice of at least three sites. *)
Definition curvature (c : list R) (i : Z) (y : R) : R :=
  y ^ 2 + 2 * site c i * y + 3 * site c i ^ 2
  + 1 / (8 * dtau ^ 2) - 2 * x_potential_minimum ^ 2.

(** A configuration all of whose sites lie in [-B, B]. *)
Definition in_box (B : R) (c : list R) : Prop :=
  Forall (fun x => - B <= x <= B) c.

End Model.
End Lattice.

(** ** The cooled Monte Carlo density driver
       (monte_carlo_ao_cooling_density.py) *)

Module CoolingDensity.

(** Arrays live in a heap and are named by their address, so that
    in-place updates and copies are told apart. *)
Definition loc := nat.

(** What the run does to the outside: the diagnostic, the sweeps it
    asks of the sampler, the calls of the aggregator and the files. *)
Inductive event : Type :=
| Print_too_few
| Metropolis (x : loc)
| Cooling (x : loc)
| Stat_av_var (n_data : Z)
| Savetxt (data : list R).

Record accumulators := {
  n_total_instantons_sum : list Z;
  n2_total_instantons_sum : list Z;
  action_cooling : list R;
  action2_cooling : list R
}.

Section Model.
Local Open Scope R_scope.

(** State of the random generator, and [ip.dtau]. *)
Variable RNG : Type.
Variable dtau : R.

(** The helpers of utility_monte_carlo; the first argument of those that
    read the global [ip.x_potential_minimum] is its current value.  The
    ones that update their array argument in place are given as the
    function from the old to the new content of that array. *)
Variable initialize_lattice : Z -> bool -> RNG -> RNG * list R.
Variable metropolis_question : R -> RNG -> list R -> RNG * list R.
Variable configuration_cooling : list R -> R -> list R.
Variable find_instantons : list R -> Z -> R -> Z * Z * list R * list R.
Variable return_action : R -> list R -> R.

Record world := {
  heap : gmap loc (list R);
  rng : RNG;
  trace : list event
}.

Definition emit (e : event) : M world unit :=
  modify (fun w => {| heap := heap w; rng := rng w;
                      trace := trace w ++ [e] |}).

(** A new array object holding [a]. *)
Definition alloc (a : list R) : M world loc :=
  fun w =>
    let l := fresh (dom (heap w)) in
    ({| heap := <[l := a]> (heap w); rng := rng w; trace := trace w |},
     Ok l).

Definition load (l : loc) : M world (list R) :=
  gets (fun w => default [] (heap w !! l)).

Definition store (l : loc) (a : list R) : M world unit :=
  modify (fun w => {| heap := <[l := a]> (heap w); rng := rng w;
                      trace := trace w |}).

(** [mc.initialize_lattice(n_lattice, i_cold)] *)
Definition do_initialize_lattice (n_lattice : Z) (i_cold : bool)
  : M world loc :=
  fun w =>
    let '(g, a) := initialize_lattice n_lattice i_cold (rng w) in
    alloc a {| heap := heap w; rng := g; trace := trace w |}.

(** [mc.metropolis_question(x)] *)
Definition do_metropolis (v : R) (x : loc) : M world unit :=
  do* _ := emit (Metropolis x) in
  do* a := load x in
  fun w =>
    let '(g, a') := metropolis_question v (rng w) a in
    store x a' {| heap := heap w; rng := g; trace := trace w |}.

(** [mc.configuration_cooling(x, v)] *)
Definition do_cooling (x : loc) (v : R) : M world unit :=
  do* _ := emit (Cooling x) in
  do* a := load x in
  store x (configuration_cooling a v).

(** [np.copy(x)] *)
Definition np_copy (x : loc) : M world loc :=
  do* a := load x in alloc a.

(** [a[i] += v] *)
Definition add_at {A} (add : A -> A -> A) (a : list A) (i : Z) (v : A)
  : result (list A) :=
  let* old := getitem a i in setitem a i (add old v).

(** Lines 77-101: the body of the loop over [i_cooling]. *)
Definition cooling_sweep_body (v : R) (n_lattice : Z) (x_cold_config : loc)
    (acc : accumulators) (i_cooling : Z) : M world accumulators :=
  do* _ := do_cooling x_cold_config v in
  do* a := load x_cold_config in
  let '(n_instantons, n_anti_instantons, _, _) :=
    find_instantons a n_lattice dtau in
  do* nt := lift (add_at Z.add (n_total_instantons_sum acc) i_cooling
                    (n_instantons + n_anti_instantons)%Z) in
  do* nt2 := lift (add_at Z.add (n2_total_instantons_sum acc) i_cooling
                     ((n_instantons + n_anti_instantons) ^ 2)%Z) in
  do* a := load x_cold_config in
  let action_temp := return_action v a in
  do* ac := lift (add_at Rplus (action_cooling acc) i_cooling action_temp) in
  do* ac2 := lift (add_at Rplus (action2_cooling acc) i_cooling
                     (action_temp ^ 2)) in
  mret {| n_total_instantons_sum := nt; n2_total_instantons_sum := nt2;
          action_cooling := ac; action2_cooling := ac2 |}.

(** Lines 73-101: one cooling event, on a copy of [x_config]. *)
Definition cooling_event (v : R) (n_lattice n_cooling_sweeps : Z)
    (x_config : loc) (acc : accumulators) : M world accumulators :=
  do* x_cold_config := np_copy x_config in
  mfor_each (range 0 n_cooling_sweeps)
    (cooling_sweep_body v n_lattice x_cold_config) acc.

(** Lines 63-101: the body of the loop over [i_mc]; the state is
    [n_cooling] and the accumulators. *)
Definition mc_body (v : R) (n_lattice n_sweeps_btw_cooling n_cooling_sweeps : Z)
    (x_config : loc) (st : Z * accumulators) (i_mc : Z)
  : M world (Z * accumulators) :=
  do* _ := do_metropolis v x_config in
  if (n_sweeps_btw_cooling =? 0)%Z then lift ZeroDivisionError
  else if (i_mc mod n_sweeps_btw_cooling =? 0)%Z then
    do* acc := cooling_event v n_lattice n_cooling_sweeps x_config (snd st) in
    mret ((fst st + 1)%Z, acc)
  else mret st.

(** The accumulators have one bin per cooling sweep. *)
Definition acc_shaped (n_cooling_sweeps : Z) (acc : accumulators) : Prop :=
  length (n_total_instantons_sum acc) = Z.to_nat n_cooling_sweeps /\
  length (n2_total_instantons_sum acc) = Z.to_nat n_cooling_sweeps /\
  length (action_cooling acc) = Z.to_nat n_cooling_sweeps /\
  length (action2_cooling acc) = Z.to_nat n_cooling_sweeps.

(** An event that hands the aggregator a sample count hands it at least
    one sample. *)
Definition supplies_samples (e : event) : Prop :=
  match e with
  | Stat_av_var n_data => (1 <= n_data)%Z
  | _ => True
  end.

(** The sums when they are all zero, one bin per cooling sweep. *)
Definition zero_sums (n_cooling_sweeps : Z) : accumulators :=
  {| n_total_instantons_sum := repeat 0%Z (Z.to_nat n_cooling_sweeps);
     n2_total_instantons_sum := repeat 0%Z (Z.to_nat n_cooling_sweeps);
     action_cooling := zeros (Z.to_nat n_cooling_sweeps);
     action2_cooling := zeros (Z.to_nat n_cooling_sweeps) |}.

(** Lines 47-51: the four calls of [np.zeros] that allocate the sums. *)
Definition zero_accumulators (n_cooling_sweeps : Z) : result accumulators :=
  let* nt := np_zeros_int n_cooling_sweeps in
  let* nt2 := np_zeros_int n_cooling_sweeps in
  let* ac := np_zeros n_cooling_sweeps in
  let* ac2 := np_zeros n_cooling_sweeps in
  Ok {| n_total_instantons_sum := nt; n2_total_instantons_sum := nt2;
        action_cooling := ac; action2_cooling := ac2 |}.

(** Lines 30-138: the body of the loop over [i_minimum]. *)
Definition minimum_body
    (n_lattice n_equil n_mc_sweeps : Z) (i_cold : bool)
    (n_sweeps_btw_cooling n_cooling_sweeps : Z)
    (potential_minima : list R) (i_minimum : Z) : M world (list R) :=
  let n_cooling := 0%Z in
  let v := 14 / 10 + 1 / 10 * IZR i_minimum in
  do* potential_minima := lift (setitem potential_minima i_minimum v) in
  do* x_config := do_initialize_lattice n_lattice i_cold in
  do* acc := lift (zero_accumulators n_cooling_sweeps) in
  do* _ := mfor_each (range 0 n_equil)
             (fun _ _ => do_metropolis v x_config) tt in
  do* st := mfor_each (range 0 (n_mc_sweeps - n_equil))
              (mc_body v n_lattice n_sweeps_btw_cooling n_cooling_sweeps
                 x_config)
              (n_cooling, acc) in
  let n_cooling := fst st in
  let acc := snd st in
  do* _ := emit (Stat_av_var n_cooling) in
  do* a := lift (Aggregator.stat_av_var (action_cooling acc)
                   (action2_cooling acc) n_cooling) in
  do* _ := emit (Stat_av_var n_cooling) in
  do* n := lift (Aggregator.stat_av_var
                   (map IZR (n_total_instantons_sum acc))
                   (map IZR (n2_total_instantons_sum acc)) n_cooling) in
  let '(action_av, action_err) := a in
  let '(n_total, n_total_err) := n in
  do* _ := emit (Savetxt n_total) in
  let action_av := zip_with Rdiv action_av n_total in
  let action_err := zip_with Rdiv action_err n_total in
  let n_total := map (fun x => x / (IZR n_lattice * dtau)) n_total in
  let n_total_err := map (fun x => x / (IZR n_lattice * dtau)) n_total_err in
  do* _ := emit (Savetxt n_total) in
  do* _ := emit (Savetxt n_total_err) in
  do* _ := emit (Savetxt action_av) in
  do* _ := emit (Savetxt action_err) in
  mret potential_minima.

(** [cooled_monte_carlo_density]; progress messages are left out. *)
Definition cooled_monte_carlo_density
    (n_lattice n_equil n_mc_sweeps : Z) (i_cold : bool)
    (n_sweeps_btw_cooling n_cooling_sweeps n_minima : Z) : M world Z :=
  if (n_mc_sweeps <? n_equil)%Z then
    do* _ := emit Print_too_few in mret 1%Z
  else
    do* potential_minima := lift (np_zeros n_minima) in
    do* potential_minima :=
      mfor_each (range 0 n_minima)
        (minimum_body n_lattice n_equil n_mc_sweeps i_cold
           n_sweeps_btw_cooling n_cooling_sweeps)
        potential_minima in
    do* sweep_numbers :=
      lift (np_linspace 1 (IZR n_cooling_sweeps + 1) n_cooling_sweeps) in
    do* _ := emit (Savetxt sweep_numbers) in
    do* _ := emit (Savetxt potential_minima) in
    mret 0%Z.

End Model.
End CoolingDensity.

(** ** The random and heated instanton-liquid drivers
       (random_instanton_monte_carlo.py,
        random_instanton_monte_carlo_heating.py) *)

Module Rilm.
Section Model.
Local Open Scope R_scope.

(** [ip.dtau], [ip.x_potential_minimum] and [ip.action_0]. *)
Variables (dtau x_potential_minimum action_0 : R).

(** State of the sampler: the random generator and the correlation sums
    [x_cor_sums], [x2_cor_sums] that the sampling steps update. *)
Variable Sampler : Type.

(** The sampling steps of utility_rilm; the random one returns the
    centers it placed. *)
Variable rilm_monte_carlo_step :
  Z -> Z -> Z -> list R -> Sampler -> Sampler * list R.
Variable rilm_heated_monte_carlo_step :
  Z -> Z -> Z -> Z -> list R -> Sampler -> Sampler.

Record world := {
  sampler : Sampler;
  step_calls : list Z;     (* first argument of each sampling step so far *)
  hist_writer : list R     (* values written to zcr_hist.txt *)
}.

(** Lines 31-34 of random_instanton_monte_carlo.py *)
Definition n_ia_random (n_lattice : Z) : Z :=
  let loop_2 := 8 * Rpower x_potential_minimum (5 / 2)
                * Rpower (2 / PI) (1 / 2)
                * exp (- action_0 - 71 / (72 * action_0)) in
  rint (loop_2 * IZR n_lattice * dtau).

(** Lines 31-34 of random_instanton_monte_carlo_heating.py *)
Definition n_ia_heating (n_lattice : Z) : Z :=
  let s0 := 4 / 3 * x_potential_minimum ^ 3 in
  let loop_2 := 8 * Rpower x_potential_minimum (5 / 2)
                * Rpower (2 / PI) (1 / 2)
                * exp (- s0 - 71 / (72 * s0)) in
  rint (loop_2 * IZR n_lattice * dtau).

(** [rilm.rilm_monte_carlo_step(n_ia, ...)] *)
Definition do_step (n_ia n_points n_meas : Z) (tau_array : list R)
  : M world (list R) :=
  fun w =>
    let '(s, centers) :=
      rilm_monte_carlo_step n_ia n_points n_meas tau_array (sampler w) in
    ({| sampler := s; step_calls := step_calls w ++ [n_ia];
        hist_writer := hist_writer w |}, Ok centers).

(** [rilm.rilm_heated_monte_carlo_step(n_ia, n_heating, ...)] *)
Definition do_heated_step (n_ia n_heating n_points n_meas : Z)
    (tau_array : list R) : M world unit :=
  modify (fun w =>
    {| sampler := rilm_heated_monte_carlo_step n_ia n_heating n_points
                    n_meas tau_array (sampler w);
       step_calls := step_calls w ++ [n_ia];
       hist_writer := hist_writer w |}).

Definition write_hist (z : R) : M world unit :=
  modify (fun w => {| sampler := sampler w; step_calls := step_calls w;
                      hist_writer := hist_writer w ++ [z] |}).

(** Lines 50-56 of random_instanton_monte_carlo.py: the value computed
    for center [i]. *)
Definition z_ia_at (n_lattice : Z) (tau_centers_ia : list R) (i : Z)
  : result R :=
  let* zero_m :=
    if (i =? 0)%Z then
      let* l := getitem tau_centers_ia (-1) in
      Ok (l - IZR n_lattice * dtau)
    else getitem tau_centers_ia (i - 1) in
  let* a := getitem tau_centers_ia (i + 1) in
  let* b := getitem tau_centers_ia i in
  let* c := getitem tau_centers_ia i in
  Ok (Rmin (a - b) (c - zero_m)).

(** Lines 49-58: the histogram loop and its body. *)
Definition hist_body (n_lattice : Z) (tau_centers_ia : list R)
    (_ : unit) (i : Z) : M world unit :=
  do* z := lift (z_ia_at n_lattice tau_centers_ia i) in write_hist z.

Definition hist_loop (n_lattice : Z) (tau_centers_ia : list R)
  : M world unit :=
  mfor_each (range2 0 (Z.of_nat (length tau_centers_ia)))
    (hist_body n_lattice tau_centers_ia) tt.

(** Lines 40-58: the body of the loop over [i_mc]. *)
Definition sweep_body (n_lattice n_ia n_points n_meas : Z)
    (tau_array : list R) (_ : unit) (i_mc : Z) : M world unit :=
  do* tau_centers_ia := do_step n_ia n_points n_meas tau_array in
  hist_loop n_lattice tau_centers_ia.

(** Lines 36-46 of random_instanton_monte_carlo_heating.py: the body of
    the loop over [i_mc]. *)
Definition heated_sweep_body (n_ia n_heating n_points n_meas : Z)
    (tau_array : list R) (_ : unit) (i_mc : Z) : M world unit :=
  do_heated_step n_ia n_heating n_points n_meas tau_array.

(** [np.zeros((3, n_points))], the sums of the correlation functions
    (lines 27-28): a negative [n_points] is refused with a [ValueError]. *)
Definition np_zeros_3 (n_points : Z) : result (list (list R)) :=
  if (n_points <? 0)%Z then ValueError
  else Ok (repeat (zeros (Z.to_nat n_points)) 3).

(** A division of Python floats, as in [71 / (72 * ip.action_0)] (line
    32): a divisor that is zero raises [ZeroDivisionError]. *)
Definition float_divisor (d : R) : result unit :=
  if Req_dec_T d 0 then ZeroDivisionError else Ok tt.

(** [random_instanton_liquid_model].  The sums allocated in lines 27-28
    are handed to every sampling step, which updates them in place: they
    are part of the state [Sampler] of the step. *)
Definition random_instanton_liquid_model
    (n_lattice n_mc_sweeps n_points n_meas : Z) : M world unit :=
  do* tau_array := lift (np_linspace 0 (IZR n_lattice * dtau) n_lattice) in
  do* x_cor_sums := lift (np_zeros_3 n_points) in
  do* x2_cor_sums := lift (np_zeros_3 n_points) in
  do* _ := lift (float_divisor (72 * action_0)) in
  let n_ia := n_ia_random n_lattice in
  mfor_each (range 0 n_mc_sweeps)
    (sweep_body n_lattice n_ia n_points n_meas tau_array) tt.

(** [random_instanton_liquid_model_heating] *)
Definition random_instanton_liquid_model_heating
    (n_lattice n_mc_sweeps n_points n_meas n_heating : Z) : M world unit :=
  do* tau_array := lift (np_linspace 0 (IZR n_lattice * dtau) n_lattice) in
  do* x_cor_sums := lift (np_zeros_3 n_points) in
  do* x2_cor_sums := lift (np_zeros_3 n_points) in
  do* _ := lift (float_divisor (72 * (4 / 3 * x_potential_minimum ^ 3))) in
  let n_ia := n_ia_heating n_lattice in
  mfor_each (range 0 n_mc_sweeps)
    (heated_sweep_body n_ia n_heating n_points n_meas tau_array) tt.

End Model.
End Rilm.

(** ** The removal loop of the diagonalisation (anh_osc_diag.py) *)

Module Diag.
Local Open Scope R_scope.

(** The loop variables [i_removal] and [indices_removed]. *)
Definition loop_state : Type := Z * list Z.

(** How one pass through the body of the [while] ends. *)
Inductive control : Type :=
| Continue (st : loop_state)
| Break (st : loop_state).

(** The literal [1e-5] of line 339 is a binary64 number: the double
    nearest to [10^-5], which is [5902958103587057 / 2^69], a little above
    [1 / 100000]. *)
Definition threshold : R := 5902958103587057 / 590295810358705651712.

(** Lines 335-340: the body of the loop. *)
Definition removal_body (energy_eigenvalues : list R) (st : loop_state)
  : result control :=
  let '(i_removal, indices_removed) := st in
  let* e := getitem energy_eigenvalues i_removal in
  if Rlt_dec e 0 then
    Ok (Continue ((i_removal + 1)%Z, np_append indices_removed i_removal))
  else
    let* e := getitem energy_eigenvalues i_removal in
    if Rlt_dec threshold e then Ok (Break st) else Ok (Continue st).

(** Outcome of one test of the loop condition followed by the body: the
    loop is left, an exception is raised, or another pass follows. *)
Inductive step_result : Type :=
| Exited (st : loop_state)
| Raised
| Next (st : loop_state).

Definition removal_step (energy_eigenvalues : list R) (n_hamiltonian : Z)
    (st : loop_state) : step_result :=
  if (fst st <? n_hamiltonian)%Z then
    match removal_body energy_eigenvalues st with
    | Ok (Continue st') => Next st'
    | Ok (Break st') => Exited st'
    | IndexError _ | ZeroDivisionError | ValueError => Raised
    end
  else Exited st.

(** Lines 332-340: the loop run for at most [fuel] passes; [None] when it
    is still running after them. *)
Fixpoint removal_loop (fuel : nat) (energy_eigenvalues : list R)
    (n_hamiltonian : Z) (st : loop_state) : option step_result :=
  match fuel with
  | O => None
  | S fuel' =>
      match removal_step energy_eigenvalues n_hamiltonian st with
      | Next st' => removal_loop fuel' energy_eigenvalues n_hamiltonian st'
      | r => Some r
      end
  end.

(** The state in which the loop is entered (lines 332-333). *)
Definition initial : loop_state := (0%Z, []).

(** Lines 342-350: what follows the loop.  [energy_eigenvalues[:i_removal]]
    goes to the file of removed values and
    [np.delete(energy_eigenvalues, indices_removed)] is kept. *)
Fixpoint norm_indices (len : nat) (indices : list Z) : result (list nat) :=
  match indices with
  | [] => Ok []
  | i :: rest =>
      match norm_index len i with
      | Some k => let* ks := norm_indices len rest in Ok (k :: ks)
      | None => IndexError i
      end
  end.

(** [np.delete(a, indices)] on a one-dimensional array: an index outside
    the array raises, otherwise the entries at the listed positions are
    dropped. *)
Definition np_delete {A} (a : list A) (indices : list Z) : result (list A) :=
  let* ks := norm_indices (length a) indices in
  Ok (map snd
        (List.filter (fun p => negb (existsb (Nat.eqb (fst p)) ks))
           (combine (seq 0 (length a)) a))).

Definition removed_values (energy_eigenvalues : list R) (st : loop_state)
  : list R :=
  slice energy_eigenvalues 0 (fst st).

Definition kept_values (energy_eigenvalues : list R) (st : loop_state)
  : result (list R) :=
  np_delete energy_eigenvalues (snd st).

(** An eigenvalue array in ascending order, as [LA.eigh] (line 326)
    returns it. *)
Definition ascending (energy_eigenvalues : list R) : Prop :=
  forall (i j : nat) (x y : R),
    (i <= j)%nat -> energy_eigenvalues !! i = Some x ->
    energy_eigenvalues !! j = Some y -> x <= y.

(** What holds of the loop variables whenever the condition is tested:
    [indices_removed] lists the positions before [i_removal], and the
    eigenvalues there are negative. *)
Definition loop_invariant (energy_eigenvalues : list R) (n_hamiltonian : Z)
    (st : loop_state) : Prop :=
  (0 <= fst st <= n_hamiltonian)%Z /\
  snd st = range 0 (fst st) /\
  forall (j : nat) (x : R),
    (Z.of_nat j < fst st)%Z -> energy_eigenvalues !! j = Some x -> x < 0.

End Diag.

(** ** The functions of the diagonalisation module (anh_osc_diag.py) *)

Module DiagFunctions.
Local Open Scope R_scope.

(** Lines 35-45: [psi_simple_model]; [pow] of a positive base to a real
    exponent is [Rpower]. *)
Definition psi_simple_model (x_position x_potential_minimum : R) : R :=
  let psi_plus_minimum :=
    Rpower (2 * x_potential_minimum / PI) (1 / 4)
    * exp (- x_potential_minimum * (x_position - x_potential_minimum) ^ 2) in
  let psi_minus_minimum :=
    Rpower (2 * x_potential_minimum / PI) (1 / 4)
    * exp (- x_potential_minimum * (x_position + x_potential_minimum) ^ 2) in
  (psi_plus_minimum + psi_minus_minimum) * Rpower 2 (- 1 / 2).

(** What a numpy call can end in besides a value or an [IndexError]:
    [np.zeros] refuses a negative size with a [ValueError]. *)
Inductive np_outcome (A : Type) : Type :=
| Value (r : result A)
| ValueError.
Arguments Value {A} r.
Arguments ValueError {A}.

(** Lines 73-82: [hermite_pol_coeff]. *)
Definition hermite_value (x_position norm : R) (n : Z) : R :=
  Rpower (PI * norm * norm) (- 1 / 4)
  * Rpower 2 (- IZR n / 2) * Rpower (INR (fact (Z.to_nat n))) (- 1 / 2)
  * exp (- x_position * x_position / (2 * norm * norm)).

Definition hermite_pol_coeff (x_position norm : R) (n_array : Z)
  : np_outcome (list R) :=
  if (n_array <? 0)%Z then ValueError
  else
    Value (for_each (range 0 n_array)
             (fun hermite_coeff n =>
                setitem hermite_coeff n (hermite_value x_position norm n))
             (zeros (Z.to_nat n_array))).

(** The loop variables of [corr_functs_analytic]. *)
Record corr_state := {
  i_tau : Z;
  j_energy : Z;
  correlation_funct : list R
}.

(** Lines 116-119: the body of the loop over [energy_density]. *)
Definition corr_inner (energy_eigenvalues : list R) (tau : R)
    (st : corr_state) (rho : R) : result corr_state :=
  let* old := getitem (correlation_funct st) (i_tau st) in
  let* ej := getitem energy_eigenvalues (j_energy st) in
  let* e0 := getitem energy_eigenvalues 0 in
  let* cf := setitem (correlation_funct st) (i_tau st)
               (old + rho * exp (- (ej - e0) * tau)) in
  Ok {| i_tau := i_tau st; j_energy := (j_energy st + 1)%Z;
        correlation_funct := cf |}.

(** Lines 115-121: the body of the loop over [tau_array]. *)
Definition corr_outer (energy_density energy_eigenvalues : list R)
    (st : corr_state) (tau : R) : result corr_state :=
  let* st := for_each energy_density (corr_inner energy_eigenvalues tau) st in
  Ok {| i_tau := (i_tau st + 1)%Z; j_energy := 0%Z;
        correlation_funct := correlation_funct st |}.

(** Lines 112-122: [corr_functs_analytic]. *)
Definition corr_functs_analytic
    (energy_density tau_array energy_eigenvalues : list R)
  : result (list R) :=
  let* st := for_each tau_array (corr_outer energy_density energy_eigenvalues)
               {| i_tau := 0%Z; j_energy := 0%Z;
                  correlation_funct := zeros (length tau_array) |} in
  Ok (correlation_funct st).

(** The sum that the correlator is meant to be:
    [sum_j rho_j exp(-(E_j - E_0) tau)]. *)
Definition correlator (energy_density energy_eigenvalues : list R) (tau : R)
  : R :=
  let e0 := default 0 (energy_eigenvalues !! 0%nat) in
  fold_right Rplus 0
    (zip_with (fun rho e => rho * exp (- (e - e0) * tau))
       energy_density energy_eigenvalues).

(** Lines 144-149: [log_corr_funct_forward_difference]. *)
Definition log_corr_funct_forward_difference (corr_funct : list R) (dtau : R)
  : np_outcome (list R) :=
  let size := Z.of_nat (length corr_funct) in
  if (size - 1 <? 0)%Z then ValueError
  else
    Value (for_each (range 0 (size - 1))
             (fun fd i =>
                let* a := getitem corr_funct (i + 1) in
                let* b := getitem corr_funct i in
                setitem fd i (- (ln a - ln b) / dtau))
             (zeros (Z.to_nat (size - 1)))).

(** [np.linspace(start, stop, num)], end point included. *)
Definition linspace_closed (start stop : R) (num : nat) : list R :=
  map (fun i => start + INR i * ((stop - start) / INR (num - 1))) (seq 0 num).

(** Line 216 *)
Definition temperature_array : list R := linspace_closed (1 / 100) 2 99.

(** The partition function [sum_j exp(-E_j / T)] as the inner loop adds
    it up (lines 222-223): term after term, in the order of the spectrum,
    starting from [0.0]. *)
Definition partition_sum (energy_eigenvalues : list R) (temperature : R)
  : R :=
  fold_left (fun z energy => z + exp (- energy / temperature))
    energy_eigenvalues 0.

(** The loop variables of [free_energy]. *)
Record free_state := {
  z_partition_function : R;
  i_f_energy : Z;
  free_energy_array : list R
}.

(** Lines 221-228: the body of the loop over the temperatures. *)
Definition free_energy_body (energy_eigenvalues : list R)
    (st : free_state) (temperature : R) : result free_state :=
  let z := fold_left (fun z energy => z + exp (- energy / temperature))
             energy_eigenvalues (z_partition_function st) in
  let* arr := setitem (free_energy_array st) (i_f_energy st)
                (temperature * ln z) in
  Ok {| z_partition_function := 0; i_f_energy := (i_f_energy st + 1)%Z;
        free_energy_array := arr |}.

(** Lines 216-233: [free_energy]; the result is what the two files
    receive.  [np.empty] is taken as an array of zeros: every entry is
    written before it is read. *)
Definition free_energy (energy_eigenvalues : list R)
  : result (list R * list R) :=
  let* st := for_each temperature_array (free_energy_body energy_eigenvalues)
               {| z_partition_function := 0; i_f_energy := 0%Z;
                  free_energy_array := zeros (length temperature_array) |} in
  Ok (temperature_array, free_energy_array st).

(** [np.divide(a, b)] on one-dimensional arrays: entry by entry when the
    sizes agree, an array of one entry being stretched to the size of
    the other one; other sizes are refused with a [ValueError]. *)
Definition np_divide (a b : list R) : np_outcome (list R) :=
  if (length a =? length b)%nat then Value (Ok (zip_with Rdiv a b))
  else
    match a, b with
    | _, [y] => Value (Ok (map (fun x => x / y) a))
    | [x], _ => Value (Ok (map (fun y => x / y) b))
    | _, _ => ValueError
    end.

(** Lines 184-189: the body of the loop over [energy_density] in
    [log_corr_funct_analytic]. *)
Definition log_corr_inner (energy_eigenvalues : list R) (tau : R)
    (st : corr_state) (rho : R) : result corr_state :=
  let* old := getitem (correlation_funct st) (i_tau st) in
  let* ej := getitem energy_eigenvalues (j_energy st) in
  let* e0 := getitem energy_eigenvalues 0 in
  let* fj := getitem energy_eigenvalues (j_energy st) in
  let* f0 := getitem energy_eigenvalues 0 in
  let* an := setitem (correlation_funct st) (i_tau st)
               (old + rho * (ej - e0) * exp (- (fj - f0) * tau)) in
  Ok {| i_tau := i_tau st; j_energy := (j_energy st + 1)%Z;
        correlation_funct := an |}.

(** Lines 182-191: the body of the loop over [tau_array]. *)
Definition log_corr_outer (energy_density energy_eigenvalues : list R)
    (st : corr_state) (tau : R) : result corr_state :=
  let* st := for_each energy_density (log_corr_inner energy_eigenvalues tau)
               st in
  Ok {| i_tau := (i_tau st + 1)%Z; j_energy := 0%Z;
        correlation_funct := correlation_funct st |}.

(** Lines 179-196: [log_corr_funct_analytic]; the array
    [an_log_corr_funct] is held in the field [correlation_funct] of the
    loop variables. *)
Definition log_corr_funct_analytic
    (energy_density tau_array energy_eigenvalues correlation_function
       : list R) : np_outcome (list R) :=
  match for_each tau_array (log_corr_outer energy_density energy_eigenvalues)
          {| i_tau := 0%Z; j_energy := 0%Z;
             correlation_funct := zeros (length tau_array) |} with
  | Ok st => np_divide (correlation_funct st) correlation_function
  | IndexError i => Value (IndexError i)
  | ZeroDivisionError => Value ZeroDivisionError
  | Py.ValueError => ValueError
  end.

(** The sum that the loops of [log_corr_funct_analytic] add up:
    [sum_j rho_j (E_j - E_0) exp(-(E_j - E_0) tau)]. *)
Definition gap_weighted_sum (energy_density energy_eigenvalues : list R)
    (tau : R) : R :=
  let e0 := default 0 (energy_eigenvalues !! 0%nat) in
  fold_right Rplus 0
    (zip_with (fun rho e => rho * (e - e0) * exp (- (e - e0) * tau))
       energy_density energy_eigenvalues).

End DiagFunctions.

(** ** The matrices of the diagonalisation (anh_osc_diag.py) *)

Module DiagMatrix.
Import DiagFunctions.
Local Open Scope R_scope.

(** A two-dimensional array, row by row. *)
Abbreviation matrix := (list (list R)).

(** [np.zeros((rows, cols))] *)
Definition zeros2 (rows cols : nat) : matrix := repeat (zeros cols) rows.

(** [m[i, j]] *)
Definition getitem2 (m : matrix) (i j : Z) : result R :=
  let* row := getitem m i in
  getitem row j.

(** [m[i, j] = v] *)
Definition setitem2 (m : matrix) (i j : Z) (v : R) : result matrix :=
  let* row := getitem m i in
  let* row := setitem row j v in
  setitem m i row.

(** A matrix of [rows] rows of [cols] entries each. *)
Definition shaped (rows cols : nat) (m : matrix) : Prop :=
  length m = rows /\ Forall (fun row => length row = cols) m.

(** The entry in row [r] and column [s], if there is one. *)
Definition at2 (m : matrix) (r s : nat) : option R :=
  match m !! r with
  | Some row => row !! s
  | None => None
  end.

(** [m] is the [rows] by [cols] matrix whose entries are given by [e]. *)
Definition represents (rows cols : nat) (m : matrix) (e : Z -> Z -> R)
  : Prop :=
  shaped rows cols m /\
  forall r s : Z,
    (0 <= r < Z.of_nat rows)%Z -> (0 <= s < Z.of_nat cols)%Z ->
    at2 m (Z.to_nat r) (Z.to_nat s) = Some (e r s).

(** The entries [e] with the one at [(i, j)] replaced by [v]. *)
Definition upd (e : Z -> Z -> R) (i j : Z) (v : R) : Z -> Z -> R :=
  fun r s => if ((r =? i) && (s =? j))%Z then v else e r s.

Section Model.
Variables x_potential_minimum freq_har_osc : R.

(** Line 295 *)
Definition c_norm_coeff : R := Rpower freq_har_osc (- 1 / 2).

(** Lines 298-300 *)
Definition a : R := 1.
Definition b : R := - 2 * x_potential_minimum ^ 2 - freq_har_osc ^ 2 / 4.
Definition c : R := x_potential_minimum ^ 4.

(** Lines 306-309: [<i|h|i>] *)
Definition diagonal (i : Z) : R :=
  a * 3 * c_norm_coeff ^ 4 * (IZR (i + 1) ^ 2 + IZR i ^ 2)
  + b * c_norm_coeff ^ 2 * IZR (2 * i + 1)
  + freq_har_osc * (IZR i + 1 / 2) + c.

(** Lines 312-315: [<n|h|n+2>] *)
Definition off2 (i : Z) : R :=
  a * c_norm_coeff ^ 4 * sqrt (IZR ((i + 1) * (i + 2))) * IZR (4 * i + 6)
  + b * c_norm_coeff ^ 2 * sqrt (IZR ((i + 1) * (i + 2))).

(** Lines 320-322: [<n|h|n+4>] *)
Definition off4 (i : Z) : R :=
  c_norm_coeff ^ 4 * sqrt (IZR ((i + 1) * (i + 2) * (i + 3) * (i + 4))).

(** Lines 303-324: one pass of the loop that fills the Hamiltonian. *)
Definition hamiltonian_body (hamiltonian_matrix : matrix) (i : Z)
  : result matrix :=
  let* m := setitem2 hamiltonian_matrix i i (diagonal i) in
  let* m := setitem2 m i (i + 2) (off2 i) in
  let* v := getitem2 m i (i + 2) in
  let* m := setitem2 m (i + 2) i v in
  let* m := setitem2 m i (i + 4) (off4 i) in
  let* v := getitem2 m i (i + 4) in
  setitem2 m (i + 4) i v.

(** Lines 270, 281, 287 and 303-324: the Hamiltonian of dimension
    [n_dim + 4].  A negative [n_dim] is refused by the allocations
    before the loop. *)
Definition hamiltonian_matrix (n_dim : Z) : np_outcome matrix :=
  let n_hamiltonian := (n_dim + 4)%Z in
  if (n_dim <? 0)%Z then ValueError
  else
    Value (for_each (range 0 n_dim) hamiltonian_body
             (zeros2 (Z.to_nat n_hamiltonian) (Z.to_nat n_hamiltonian))).

(** The entry at distance [d] from the diagonal, in the row or column
    [lo] that comes first. *)
Definition band (lo d : Z) : R :=
  if (d =? 0)%Z then diagonal lo
  else if (d =? 2)%Z then off2 lo
  else if (d =? 4)%Z then off4 lo
  else 0.

(** The matrix after [n] passes, entry by entry. *)
Definition entry (n r s : Z) : R :=
  if (Z.min r s <? n)%Z then band (Z.min r s) (Z.abs (r - s)) else 0.

(** Lines 370-399: what one [k] adds to [c_n], [d_n] and [e_n]. *)
Definition density_inner (energy_eigenvectors : matrix) (n_dim n : Z)
    (acc : R * R * R) (k : Z) : result (R * R * R) :=
  let '(c_n, d_n, e_n) := acc in
  let k_minus_3 := Z.max (k - 3) 0 in
  let k_minus_2 := Z.max (k - 2) 0 in
  let k_minus_1 := Z.max (k - 1) 0 in
  let k_plus_1 := Z.min (k + 1) (n_dim - 1) in
  let k_plus_2 := Z.min (k + 2) (n_dim - 1) in
  let k_plus_3 := Z.min (k + 3) (n_dim - 1) in
  let* c1 := getitem2 energy_eigenvectors k_plus_1 0 in
  let* c2 := getitem2 energy_eigenvectors k_minus_1 0 in
  let* c3 := getitem2 energy_eigenvectors k n in
  let c_n := c_n + (sqrt (IZR (k + 1)) * c1 + sqrt (IZR k) * c2) * c3 in
  let* d1 := getitem2 energy_eigenvectors k_minus_2 0 in
  let* d2 := getitem2 energy_eigenvectors k 0 in
  let* d3 := getitem2 energy_eigenvectors k_plus_2 0 in
  let* d4 := getitem2 energy_eigenvectors k n in
  let d_n := d_n + (sqrt (IZR (k * (k - 1))) * d1 + IZR (2 * k + 1) * d2
                    + sqrt (IZR ((k + 1) * (k + 2))) * d3) * d4 in
  let* e1 := getitem2 energy_eigenvectors k_minus_3 0 in
  let* e2 := getitem2 energy_eigenvectors k_minus_1 0 in
  let* e3 := getitem2 energy_eigenvectors k_plus_1 0 in
  let* e4 := getitem2 energy_eigenvectors k_plus_3 0 in
  let* e5 := getitem2 energy_eigenvectors k n in
  let e_n := e_n + (sqrt (IZR (k * (k - 1) * (k - 2))) * e1
                    + IZR (3 * k) * sqrt (IZR k) * e2
                    + IZR (3 * (k + 1)) * sqrt (IZR (k + 1)) * e3
                    + sqrt (IZR ((k + 1) * (k + 2) * (k + 3))) * e4) * e5 in
  Ok (c_n, d_n, e_n).

(** Lines 360-403: one pass of the loop over [n]. *)
Definition densities_body (energy_eigenvectors : matrix) (n_dim : Z)
    (energy_densities : matrix) (n : Z) : result matrix :=
  let* sums :=
    for_each (range 0 n_dim) (density_inner energy_eigenvectors n_dim n)
      (0, 0, 0) in
  let '(c_n, d_n, e_n) := sums in
  let* m := setitem2 energy_densities 0 n (c_norm_coeff ^ 2 * c_n ^ 2) in
  let* m := setitem2 m 1 n (c_norm_coeff ^ 4 * d_n ^ 2) in
  setitem2 m 2 n (c_norm_coeff ^ 6 * e_n ^ 2).

(** Lines 287 and 360-403: the matrix elements [energy_densities], from
    the eigenvectors left after the removal. *)
Definition energy_densities (energy_eigenvectors : matrix) (n_dim : Z)
  : result matrix :=
  for_each (range 0 n_dim) (densities_body energy_eigenvectors n_dim)
    (zeros2 3 (Z.to_nat n_dim)).

End Model.
End DiagMatrix.

(** ** The sum ansatz and its interaction (streamline_iilm.py) *)

Module SumAnsatz.
Import DiagFunctions.
Local Open Scope R_scope.

Section Model.

(** [ip.dtau] and [ip.x_potential_minimum]. *)
Variables (dtau x_potential_minimum : R).

(** The helpers of utility_rilm and utility_monte_carlo. *)
Variable ansatz_instanton_conf : list R -> list R -> list R.
Variable return_action : list R -> R.

(** The three arrays saved at the end. *)
Record arrays := {
  array_ia : list R;
  array_int_core : list R;
  array_int : list R
}.

(** Line 16: [int(n_lattice / 4)] truncates towards zero. *)
Definition n_inst (n_lattice : Z) : Z := Z.quot n_lattice 4.

(** Lines 22-23 *)
Definition tau_centers_ia (n_lattice n_a : Z) : list R :=
  [IZR (n_inst n_lattice) * dtau; IZR n_a * dtau].

Definition tau_array (n_lattice : Z) : list R :=
  linspace 0 (IZR n_lattice * dtau) (Z.to_nat n_lattice).

(** Lines 21-48: the body of the loop over [n_a]. *)
Definition sum_ansatz_body (n_lattice : Z) (st : arrays) (n_a : Z)
  : result arrays :=
  let tau_centers_ia := tau_centers_ia n_lattice n_a in
  let x_config := ansatz_instanton_conf tau_centers_ia (tau_array n_lattice) in
  let action := return_action x_config in
  let tau_core := 3 / 10 in
  let action_core := 3 in
  let* t1 := getitem tau_centers_ia 1 in
  let* t0 := getitem tau_centers_ia 0 in
  let* s0 := getitem tau_centers_ia 0 in
  let* s1 := getitem tau_centers_ia 1 in
  let action_int_core :=
    action_core * (exp (- (t1 - t0) / tau_core)
                   + exp (- (s0 - s1 + IZR n_lattice * dtau) / tau_core)) in
  let action_int_core := action_int_core + action in
  let action_int_core :=
    action_int_core / (4 / 3 * x_potential_minimum ^ 3) in
  let action := action / (4 / 3 * x_potential_minimum ^ 3) in
  let action_int_core := action_int_core - 2 in
  let action := action - 2 in
  let* core := setitem (array_int_core st) (n_a - n_inst n_lattice)
                 action_int_core in
  let* int := setitem (array_int st) (n_a - n_inst n_lattice) action in
  let* u1 := getitem tau_centers_ia 1 in
  let* u0 := getitem tau_centers_ia 0 in
  let* ia := setitem (array_ia st) (n_a - n_inst n_lattice) (u1 - u0) in
  Ok {| array_ia := ia; array_int_core := core; array_int := int |}.

(** Lines 16-48: [print_sum_ansatz_ia], up to the three arrays it
    saves.  A negative [n_inst] is refused by [np.zeros]. *)
Definition print_sum_ansatz_ia (n_lattice : Z) : np_outcome arrays :=
  let n_inst := n_inst n_lattice in
  if (n_inst <? 0)%Z then ValueError
  else
    Value (for_each (range n_inst (2 * n_inst)) (sum_ansatz_body n_lattice)
             {| array_ia := zeros (Z.to_nat n_inst);
                array_int_core := zeros (Z.to_nat n_inst);
                array_int := zeros (Z.to_nat n_inst) |}).

End Model.
End SumAnsatz.

(** ** What a run of the cooling driver asks for, counted on its trace *)

Module CoolingTrace.
Import CoolingDensity.

(** The Metropolis sweeps, the cooling sweeps and the files saved that a
    trace holds, and the sample counts handed to the aggregator, in
    order. *)
Definition metropolis_sweeps (t : list event) : nat :=
  length (List.filter
            (fun e => match e with Metropolis _ => true | _ => false end) t).

Definition cooling_sweeps (t : list event) : nat :=
  length (List.filter
            (fun e => match e with Cooling _ => true | _ => false end) t).

Definition files_saved (t : list event) : nat :=
  length (List.filter
            (fun e => match e with Savetxt _ => true | _ => false end) t).

Definition sample_counts (t : list event) : list Z :=
  flat_map (fun e => match e with Stat_av_var n => [n] | _ => [] end) t.

(** The events [evs] hold [m] Metropolis sweeps, [c] cooling sweeps,
    [f] saved files and the sample counts [s]. *)
Definition adds (evs : list event) (m c f : nat) (s : list Z) : Prop :=
  metropolis_sweeps evs = m /\ cooling_sweeps evs = c /\
  files_saved evs = f /\ sample_counts evs = s.

(** The number of [i_mc] in [range(n_sweeps)] that are multiples of
    [n_sweeps_btw_cooling]. *)
Definition cooling_events (n_sweeps n_sweeps_btw_cooling : Z) : Z :=
  (n_sweeps + n_sweeps_btw_cooling - 1) / n_sweeps_btw_cooling.

End CoolingTrace.

(** * Properties *)

(** ** Arrays and loops *)

Module PyFacts.

Lemma norm_index_nonneg (len : nat) (i : Z) :
  0 <= i -> norm_index len i
            = if i <? Z.of_nat len then Some (Z.to_nat i) else None.
Proof.
  intros Hi. unfold norm_index.
  destruct (Z.leb_spec 0 i); [reflexivity | lia].
Qed.

Lemma norm_index_neg (len : nat) (i : Z) :
  i < 0 -> - Z.of_nat len <= i ->
  norm_index len i = Some (Z.to_nat (Z.of_nat len + i)).
Proof.
  intros Hi Hlo. unfold norm_index.
  destruct (Z.leb_spec 0 i); [lia |].
  destruct (Z.leb_spec (- Z.of_nat len) i); [reflexivity | lia].
Qed.

Lemma getitem_nonneg {A} (a : list A) (i : Z) :
  0 <= i ->
  getitem a i = match a !! Z.to_nat i with
                | Some v => Ok v
                | None => IndexError i
                end.
Proof.
  intros Hi. unfold getitem. rewrite norm_index_nonneg by assumption.
  destruct (Z.ltb_spec i (Z.of_nat (length a))) as [Hlt | Hge].
  - reflexivity.
  - rewrite (proj2 (lookup_ge_None a (Z.to_nat i))) by lia. reflexivity.
Qed.

Lemma getitem_nat {A} (a : list A) (k : nat) (v : A) :
  a !! k = Some v -> getitem a (Z.of_nat k) = Ok v.
Proof.
  intros H. rewrite getitem_nonneg by lia. rewrite Nat2Z.id, H. reflexivity.
Qed.

Lemma getitem_past_end {A} (a : list A) (i : Z) :
  Z.of_nat (length a) <= i -> getitem a i = IndexError i.
Proof.
  intros H. rewrite getitem_nonneg by lia.
  rewrite (proj2 (lookup_ge_None a (Z.to_nat i))) by lia. reflexivity.
Qed.

Lemma getitem_neg {A} (a : list A) (i : Z) (v : A) :
  i < 0 -> a !! Z.to_nat (Z.of_nat (length a) + i) = Some v ->
  - Z.of_nat (length a) <= i ->
  getitem a i = Ok v.
Proof.
  intros Hi Hv Hlo. unfold getitem.
  rewrite norm_index_neg by assumption. rewrite Hv. reflexivity.
Qed.

Lemma setitem_nonneg {A} (a : list A) (i : Z) (v : A) :
  0 <= i < Z.of_nat (length a) ->
  setitem a i v = Ok (<[Z.to_nat i := v]> a).
Proof.
  intros Hi. unfold setitem. rewrite norm_index_nonneg by lia.
  destruct (Z.ltb_spec i (Z.of_nat (length a))); [reflexivity | lia].
Qed.

Lemma setitem_neg {A} (a : list A) (i : Z) (v : A) :
  - Z.of_nat (length a) <= i < 0 ->
  setitem a i v = Ok (<[Z.to_nat (Z.of_nat (length a) + i) := v]> a).
Proof.
  intros Hi. unfold setitem. rewrite norm_index_neg by lia. reflexivity.
Qed.

Lemma for_each_app {S X} (xs ys : list X) (body : S -> X -> result S) st :
  for_each (xs ++ ys) body st
  = Py.bind (for_each xs body st) (for_each ys body).
Proof.
  revert st. induction xs as [| x xs IH]; intros st; simpl.
  - reflexivity.
  - destruct (body st x); simpl; auto.
Qed.

Lemma mfor_each_app {W S X} (xs ys : list X) (body : S -> X -> M W S) st w :
  mfor_each (xs ++ ys) body st w
  = mbind (mfor_each xs body st) (mfor_each ys body) w.
Proof.
  revert st w. induction xs as [| x xs IH]; intros st w; simpl.
  - reflexivity.
  - unfold mbind in *. destruct (body st x w) as [w' [a | i | |]]; auto.
Qed.

Lemma range_length (lo hi : Z) : length (range lo hi) = Z.to_nat (hi - lo).
Proof. unfold range. rewrite length_map, length_seq. reflexivity. Qed.

Lemma elem_of_range (lo hi i : Z) : In i (range lo hi) <-> lo <= i < hi.
Proof.
  unfold range. rewrite in_map_iff. split.
  - intros (k & <- & Hk). apply in_seq in Hk. lia.
  - intros Hi. exists (Z.to_nat (i - lo)). split; [lia |].
    apply in_seq. lia.
Qed.

Lemma wp_ret {W A} (a : A) (Q : A -> W -> Prop) (E : W -> Prop) w :
  Q a w -> wp (mret a) Q E w.
Proof. intros H. exact H. Qed.

Lemma wp_bind {W A B} (m : M W A) (k : A -> M W B)
    (Q : B -> W -> Prop) (E : W -> Prop) w :
  wp m (fun a w' => wp (k a) Q E w') E w -> wp (mbind m k) Q E w.
Proof.
  unfold wp, mbind. destruct (m w) as [w' [a | i | |]]; auto.
Qed.

Lemma wp_lift {W A} (r : result A) (Q : A -> W -> Prop) (E : W -> Prop) w :
  match r with Ok a => Q a w | _ => E w end -> wp (lift r) Q E w.
Proof. unfold wp, lift. destruct r; auto. Qed.

Lemma wp_modify {W} (f : W -> W) (Q : unit -> W -> Prop) (E : W -> Prop) w :
  Q tt (f w) -> wp (modify f) Q E w.
Proof. intros H. exact H. Qed.

Lemma wp_gets {W A} (f : W -> A) (Q : A -> W -> Prop) (E : W -> Prop) w :
  Q (f w) w -> wp (gets f) Q E w.
Proof. intros H. exact H. Qed.

Lemma wp_mono {W A} (m : M W A) (Q Q' : A -> W -> Prop) (E E' : W -> Prop) w :
  wp m Q E w ->
  (forall a w', Q a w' -> Q' a w') -> (forall w', E w' -> E' w') ->
  wp m Q' E' w.
Proof.
  unfold wp. destruct (m w) as [w' [a | i | |]]; auto.
Qed.

(** A loop with invariant [I k], [k] counting the passes made. *)
Lemma wp_for_each {W S X} (I : nat -> S -> W -> Prop) (E : W -> Prop)
    (xs : list X) (body : S -> X -> M W S) :
  (forall k x st w,
      xs !! k = Some x -> I k st w ->
      wp (body st x) (fun st' w' => I (Datatypes.S k) st' w') E w) ->
  forall st w,
    I 0%nat st w ->
    wp (mfor_each xs body st) (fun st' w' => I (length xs) st' w') E w.
Proof.
  revert I. induction xs as [| x xs IH]; intros I Hbody st w H0; simpl.
  - exact H0.
  - apply wp_bind.
    apply (wp_mono _ _ _ _ _ _ (Hbody 0%nat x st w eq_refl H0)); [| auto].
    intros st' w' H1.
    apply (IH (fun k => I (Datatypes.S k))); [| exact H1].
    intros k y st2 w2 Hk Hi. apply Hbody; assumption.
Qed.

Lemma wp_of_eq {W A} (m : M W A) (Q : A -> W -> Prop) (E : W -> Prop)
    w w' a :
  m w = (w', Ok a) -> Q a w' -> wp m Q E w.
Proof. intros Hm HQ. unfold wp. rewrite Hm. exact HQ. Qed.

Lemma range_lookup (lo hi : Z) (k : nat) (x : Z) :
  range lo hi !! k = Some x -> x = lo + Z.of_nat k.
Proof.
  unfold range. intros H. rewrite list_lookup_fmap in H.
  destruct (seq 0 (Z.to_nat (hi - lo)) !! k) as [j |] eqn:Hj;
    [| discriminate].
  apply lookup_seq in Hj. destruct Hj as [-> _]. simpl in H.
  inversion H. reflexivity.
Qed.

Lemma range_lookup_lt (lo hi : Z) (k : nat) (x : Z) :
  range lo hi !! k = Some x -> lo <= x < hi.
Proof.
  intros H. pose proof (range_lookup lo hi k x H) as ->.
  apply lookup_lt_Some in H. rewrite range_length in H. lia.
Qed.

Lemma wp_no_raise {W A} (m : M W A) (Q : A -> W -> Prop) w :
  wp m Q (fun _ => False) w -> exists w' a, m w = (w', Ok a) /\ Q a w'.
Proof.
  unfold wp. destruct (m w) as [w' [a | i | |]]; intros H;
    [eauto | contradiction | contradiction | contradiction].
Qed.

(** What [wp] says about the outcome. *)
Lemma wp_elim {W A} (m : M W A) (Q : A -> W -> Prop) (E : W -> Prop) w :
  wp m Q E w ->
  (exists a, snd (m w) = Ok a /\ Q a (fst (m w))) \/
  ((forall a, snd (m w) <> Ok a) /\ E (fst (m w))).
Proof.
  unfold wp. destruct (m w) as [w' [a | i | |]]; simpl; intros H.
  - left. eauto.
  - right. split; [discriminate | exact H].
  - right. split; [discriminate | exact H].
  - right. split; [discriminate | exact H].
Qed.

End PyFacts.

(** ** The removal loop of the diagonalisation *)

Module DiagFacts.
Import Diag PyFacts.
Local Open Scope R_scope.

(** The double [1e-5] lies a little above the decimal it is written as. *)
Lemma threshold_bounds : 1 / 100000 < threshold < 1 / 99999.
Proof.
  unfold threshold. lra.
Qed.

(** An eigenvalue in [0, 1e-5] takes neither branch of the body: the
    pass leaves both loop variables as they were. *)
Lemma removal_step_stuck (e : list R) (n : Z) (i : nat) (idx : list Z) (x : R) :
  e !! i = Some x -> 0 <= x <= threshold -> (Z.of_nat i < n)%Z ->
  removal_step e n (Z.of_nat i, idx) = Next (Z.of_nat i, idx).
Proof.
  intros Hx [Hlo Hhi] Hn. unfold removal_step. simpl fst.
  destruct (Z.ltb_spec (Z.of_nat i) n); [| lia].
  unfold removal_body. rewrite (getitem_nat _ _ _ Hx). simpl.
  destruct (Rlt_dec x 0); [lra |].
  destruct (Rlt_dec threshold x); [lra | reflexivity].
Qed.

Lemma removal_loop_stuck (e : list R) (n : Z) (st : loop_state) :
  removal_step e n st = Next st -> forall fuel, removal_loop fuel e n st = None.
Proof.
  intros Hst fuel. induction fuel as [| fuel IH]; simpl.
  - reflexivity.
  - rewrite Hst. exact IH.
Qed.

End DiagFacts.

(** ** The instanton-liquid drivers *)

Module RilmFacts.
Import Rilm PyFacts.
Section Facts.

Variables (dtau x_potential_minimum action_0 : R).
Variable Sampler : Type.
Variable rilm_monte_carlo_step :
  Z -> Z -> Z -> list R -> Sampler -> Sampler * list R.
Variable rilm_heated_monte_carlo_step :
  Z -> Z -> Z -> Z -> list R -> Sampler -> Sampler.

Lemma getitem_ok_nonneg {A} (a : list A) (i : Z) :
  (0 <= i < Z.of_nat (length a))%Z -> exists v, getitem a i = Ok v.
Proof.
  intros Hi. destruct (lookup_lt_is_Some_2 a (Z.to_nat i)) as [v Hv]; [lia |].
  exists v. rewrite getitem_nonneg by lia. rewrite Hv. reflexivity.
Qed.

Lemma getitem_ok_neg {A} (a : list A) (i : Z) :
  (- Z.of_nat (length a) <= i < 0)%Z -> exists v, getitem a i = Ok v.
Proof.
  intros Hi.
  destruct (lookup_lt_is_Some_2 a (Z.to_nat (Z.of_nat (length a) + i)))
    as [v Hv]; [lia |].
  exists v. apply getitem_neg; [lia | assumption | lia].
Qed.

(** Center [i] has its two neighbours in the array. *)
Lemma z_ia_at_ok (n_lattice : Z) (t : list R) (i : Z) :
  (0 <= i)%Z -> (i + 1 < Z.of_nat (length t))%Z ->
  exists z, z_ia_at dtau n_lattice t i = Ok z.
Proof.
  intros H0 H1. unfold z_ia_at.
  destruct (getitem_ok_nonneg t (i + 1)) as [a Ha]; [lia |].
  destruct (getitem_ok_nonneg t i) as [b Hb]; [lia |].
  destruct (Z.eqb_spec i 0) as [-> | Hne].
  - destruct (getitem_ok_neg t (-1)) as [l Hl]; [lia |].
    rewrite Hl. simpl. simpl in Ha. rewrite Ha. simpl. rewrite Hb. simpl.
    eauto.
  - destruct (getitem_ok_nonneg t (i - 1)) as [l Hl]; [lia |].
    rewrite Hl. simpl. rewrite Ha. simpl. rewrite Hb. simpl. eauto.
Qed.

(** The last center of an array of odd length has no right neighbour:
    the read of [tau_centers_ia[i+1]] is one past the end. *)
Lemma z_ia_at_last (n_lattice : Z) (t : list R) (i : Z) :
  (0 <= i)%Z -> (i + 1 = Z.of_nat (length t))%Z ->
  z_ia_at dtau n_lattice t i = IndexError (Z.of_nat (length t)).
Proof.
  intros H0 H1. unfold z_ia_at.
  assert (Hp : getitem t (i + 1) = IndexError (Z.of_nat (length t))).
  { rewrite getitem_past_end by lia. f_equal. lia. }
  destruct (Z.eqb_spec i 0) as [-> | Hne].
  - destruct (getitem_ok_neg t (-1)) as [l Hl]; [lia |].
    rewrite Hl. simpl. simpl in Hp. rewrite Hp. reflexivity.
  - destruct (getitem_ok_nonneg t (i - 1)) as [l Hl]; [lia |].
    rewrite Hl. simpl. rewrite Hp. reflexivity.
Qed.

Abbreviation hist_body := (hist_body dtau Sampler).

Lemma hist_body_ok (n_lattice : Z) (t : list R) (idxs : list Z) :
  (forall i, In i idxs ->
             (0 <= i)%Z /\ (i + 1 < Z.of_nat (length t))%Z) ->
  forall w, snd (mfor_each idxs (hist_body n_lattice t) tt w) = Ok tt.
Proof.
  induction idxs as [| i idxs IH]; intros Hin w; simpl.
  - reflexivity.
  - destruct (Hin i (or_introl eq_refl)) as [H0 H1].
    destruct (z_ia_at_ok n_lattice t i H0 H1) as [z Hz].
    unfold mbind, hist_body, lift, write_hist, modify. rewrite Hz.
    apply IH. intros j Hj. apply Hin. right. exact Hj.
Qed.

Lemma range2_even (m : nat) :
  range2 0 (Z.of_nat (2 * m)) = map (fun k => 2 * Z.of_nat k)%Z (seq 0 m).
Proof.
  unfold range2.
  replace (Z.to_nat ((Z.of_nat (2 * m) - 0 + 1) / 2)) with m.
  - apply map_ext. intros k. lia.
  - replace (Z.of_nat (2 * m) - 0 + 1)%Z with (1 + Z.of_nat m * 2)%Z by lia.
    rewrite Z.div_add by lia. change (1 / 2)%Z with 0%Z. lia.
Qed.

Lemma range2_odd (m : nat) :
  range2 0 (Z.of_nat (2 * m + 1))
  = map (fun k => 2 * Z.of_nat k)%Z (seq 0 m) ++ [(2 * Z.of_nat m)%Z].
Proof.
  unfold range2.
  replace (Z.to_nat ((Z.of_nat (2 * m + 1) - 0 + 1) / 2)) with (S m).
  - rewrite seq_S, map_app. reflexivity.
  - replace (Z.of_nat (2 * m + 1) - 0 + 1)%Z
      with (0 + Z.of_nat (S m) * 2)%Z by lia.
    rewrite Z.div_add by lia. change (0 / 2)%Z with 0%Z. lia.
Qed.

Lemma hist_loop_even (n_lattice : Z) (t : list R) (m : nat) w :
  length t = (2 * m)%nat ->
  snd (hist_loop dtau Sampler n_lattice t w) = Ok tt.
Proof.
  intros HL. unfold hist_loop. rewrite HL, range2_even.
  apply (hist_body_ok n_lattice t). intros i Hi.
  apply in_map_iff in Hi. destruct Hi as (k & <- & Hk).
  apply in_seq in Hk. lia.
Qed.

Lemma hist_loop_odd (n_lattice : Z) (t : list R) (m : nat) w :
  length t = (2 * m + 1)%nat ->
  snd (hist_loop dtau Sampler n_lattice t w)
  = IndexError (Z.of_nat (length t)).
Proof.
  intros HL. unfold hist_loop. rewrite HL at 1. rewrite range2_odd.
  rewrite mfor_each_app. unfold mbind at 1.
  pose proof (hist_body_ok n_lattice t
                (map (fun k => 2 * Z.of_nat k)%Z (seq 0 m))) as Hok.
  destruct (mfor_each _ (hist_body n_lattice t) tt w) as [w' r] eqn:E.
  assert (Hr : r = Ok tt).
  { change r with (snd (w', r)). rewrite <- E. apply Hok.
    intros i Hi. apply in_map_iff in Hi. destruct Hi as (k & <- & Hk).
    apply in_seq in Hk. lia. }
  subst r. simpl. unfold mbind, hist_body, lift.
  rewrite z_ia_at_last by lia. reflexivity.
Qed.

(** C9: the histogram loop reads only inside [tau_centers_ia] exactly when
    the array has an even number of centers; with an odd number the read
    of [tau_centers_ia[i+1]] at the last center raises [IndexError] for
    the index one past the end. *)
Theorem C9_hist_loop_in_bounds_iff_even
    (n_lattice : Z) (tau_centers_ia : list R) (w : world Sampler) :
  (snd (hist_loop dtau Sampler n_lattice tau_centers_ia w) = Ok tt
   <-> Nat.even (length tau_centers_ia) = true) /\
  (Nat.even (length tau_centers_ia) = false ->
   snd (hist_loop dtau Sampler n_lattice tau_centers_ia w)
   = IndexError (Z.of_nat (length tau_centers_ia))).
Proof.
  destruct (Nat.even (length tau_centers_ia)) eqn:E.
  - apply Nat.even_spec in E. destruct E as [m Hm]. split.
    + split; [reflexivity |]. intros _.
      apply (hist_loop_even n_lattice _ m). exact Hm.
    + discriminate.
  - assert (Ho : Nat.odd (length tau_centers_ia) = true).
    { rewrite <- Nat.negb_even, E. reflexivity. }
    apply Nat.odd_spec in Ho. destruct Ho as [m Hm].
    pose proof (hist_loop_odd n_lattice _ m w Hm) as Hodd. split.
    + split; [| discriminate]. rewrite Hodd. discriminate.
    + intros _. exact Hodd.
Qed.

Abbreviation sweep_body := (sweep_body dtau Sampler rilm_monte_carlo_step).
Abbreviation heated_sweep_body :=
  (heated_sweep_body Sampler rilm_heated_monte_carlo_step).

(** The histogram loop writes to the histogram file only. *)
Lemma hist_body_keeps (n_lattice : Z) (t : list R) (idxs : list Z) w :
  let w' := fst (mfor_each idxs (hist_body n_lattice t) tt w) in
  sampler Sampler w' = sampler Sampler w /\
  step_calls Sampler w' = step_calls Sampler w.
Proof.
  revert w. induction idxs as [| i idxs IH]; intros w; cbv zeta; simpl.
  - auto.
  - unfold mbind, Rilm.hist_body, lift, write_hist, modify.
    destruct (z_ia_at dtau n_lattice t i) as [z | j | |]; simpl; auto.
    match goal with |- context [mfor_each idxs ?b tt ?w1] =>
      destruct (IH w1) as [Hs Hc] end.
    split; [exact Hs | exact Hc].
Qed.

(** Sweeps of the random driver: each one that starts calls the sampling
    step once, with [n_ia] and the state the sweep before left, and all
    of them start unless a sweep raises. *)
Lemma sweeps_run (n_lattice n_ia n_points n_meas : Z)
    (tau_array : list R) (xs : list Z) w :
  let step := fun s => fst (rilm_monte_carlo_step n_ia n_points n_meas
                              tau_array s) in
  let r := mfor_each xs
             (sweep_body n_lattice n_ia n_points n_meas tau_array) tt w in
  exists k : nat,
    (k <= length xs)%nat /\
    sampler Sampler (fst r) = Nat.iter k step (sampler Sampler w) /\
    step_calls Sampler (fst r) = step_calls Sampler w ++ repeat n_ia k /\
    (snd r = Ok tt -> k = length xs).
Proof.
  revert w. induction xs as [| x xs IH]; intros w; cbv zeta in *; simpl.
  - exists 0%nat. simpl. rewrite app_nil_r. auto.
  - set (rest := mfor_each xs _) in *.
    unfold Rilm.sweep_body, hist_loop, mbind, do_step.
    destruct (rilm_monte_carlo_step n_ia n_points n_meas tau_array
                (sampler Sampler w)) as [s centers] eqn:Hstep.
    set (w1 := {| sampler := s;
                  step_calls := step_calls Sampler w ++ [n_ia];
                  hist_writer := hist_writer Sampler w |}).
    assert (Hs1 : s = fst (rilm_monte_carlo_step n_ia n_points n_meas
                             tau_array (sampler Sampler w)))
      by (rewrite Hstep; reflexivity).
    pose proof (hist_body_keeps n_lattice centers
                  (range2 0 (Z.of_nat (length centers))) w1) as [Hhs Hh].
    unfold hist_loop.
    destruct (mfor_each (range2 0 (Z.of_nat (length centers)))
                (hist_body n_lattice centers) tt w1) as [w2 [[] | j | |]];
      simpl in Hhs, Hh.
    + destruct (IH w2) as (k & Hk & Hsm & Hc & Hr).
      fold (rest tt w2) in Hsm, Hc, Hr.
      exists (S k). split; [lia |]. split; [| split].
      * rewrite Hsm, Hhs, Nat.iter_succ_r, <- Hs1. reflexivity.
      * rewrite Hc, Hh. unfold w1. simpl. rewrite <- app_assoc. reflexivity.
      * intros H. rewrite (Hr H). reflexivity.
    + exists 1%nat. simpl. split; [lia |].
      split; [rewrite Hhs, <- Hs1; reflexivity |].
      split; [exact Hh | discriminate].
    + exists 1%nat. simpl. split; [lia |].
      split; [rewrite Hhs, <- Hs1; reflexivity |].
      split; [exact Hh | discriminate].
    + exists 1%nat. simpl. split; [lia |].
      split; [rewrite Hhs, <- Hs1; reflexivity |].
      split; [exact Hh | discriminate].
Qed.

(** When the sampling step places [n_ia] centers and [n_ia] is odd, the
    first sweep already raises, at the index one past the centers. *)
Lemma first_sweep_raises_on_odd (n_lattice n_ia n_points n_meas : Z)
    (tau_array : list R) (n_mc_sweeps : Z) w :
  1 <= n_mc_sweeps -> 0 <= n_ia -> Z.odd n_ia = true ->
  (forall s, length (snd (rilm_monte_carlo_step n_ia n_points n_meas
                            tau_array s)) = Z.to_nat n_ia) ->
  snd (mfor_each (range 0 n_mc_sweeps)
         (sweep_body n_lattice n_ia n_points n_meas tau_array) tt w)
  = IndexError n_ia.
Proof.
  intros Hn Hpos Hodd Hlen. unfold range.
  destruct (Z.to_nat (n_mc_sweeps - 0)) as [| m] eqn:Hm; [lia |].
  simpl. unfold mbind, Rilm.sweep_body, mbind, do_step.
  specialize (Hlen (sampler Sampler w)).
  destruct (rilm_monte_carlo_step n_ia n_points n_meas tau_array
              (sampler Sampler w)) as [s centers].
  simpl in Hlen.
  set (w1 := {| sampler := s; step_calls := step_calls Sampler w ++ [n_ia];
                hist_writer := hist_writer Sampler w |}).
  apply Z.odd_spec in Hodd. destruct Hodd as [h Hh].
  assert (Hk : length centers = (2 * Z.to_nat h + 1)%nat) by lia.
  set (k := Z.to_nat h) in Hk.
  pose proof (hist_loop_odd n_lattice centers k w1 Hk) as Hraise.
  destruct (hist_loop dtau Sampler n_lattice centers w1) as [w2 r].
  simpl in Hraise. subst r. simpl. f_equal. lia.
Qed.

(** Sweeps of the heated driver: every one calls the sampling step once,
    with [n_ia] and the state the sweep before left. *)
Lemma heated_sweeps_run (n_ia n_heating n_points n_meas : Z)
    (tau_array : list R) (xs : list Z) w :
  let step := rilm_heated_monte_carlo_step n_ia n_heating n_points n_meas
                tau_array in
  let r := mfor_each xs
             (heated_sweep_body n_ia n_heating n_points n_meas tau_array)
             tt w in
  sampler Sampler (fst r) = Nat.iter (length xs) step (sampler Sampler w) /\
  step_calls Sampler (fst r)
  = step_calls Sampler w ++ repeat n_ia (length xs) /\
  hist_writer Sampler (fst r) = hist_writer Sampler w /\
  snd r = Ok tt.
Proof.
  revert w. induction xs as [| x xs IH]; intros w; cbv zeta in *; simpl.
  - rewrite app_nil_r. auto.
  - set (rest := mfor_each xs _) in *.
    unfold Rilm.heated_sweep_body, do_heated_step, mbind, modify.
    match goal with |- context [rest tt ?w1] =>
      destruct (IH w1) as (Hs & Hc & Hh & Hr) end.
    split; [| split; [| split; [| exact Hr]]].
    + rewrite Hs. cbn [sampler]. rewrite <- Nat.iter_succ_r. reflexivity.
    + rewrite Hc. simpl. rewrite <- app_assoc. reflexivity.
    + rewrite Hh. reflexivity.
Qed.

(** What precedes the sweeps in both drivers: the allocations and the
    division either all pass, or the run ends there, with the world as
    it was. *)
Lemma driver_prologue (n_lattice n_points : Z) (d : R)
    (k : list R -> M (world Sampler) unit) (w : world Sampler) :
  let run :=
    (do* tau_array := lift (np_linspace 0 (IZR n_lattice * dtau) n_lattice) in
     do* x_cor_sums := lift (np_zeros_3 n_points) in
     do* x2_cor_sums := lift (np_zeros_3 n_points) in
     do* _ := lift (float_divisor d) in
     k tau_array) w in
  (0 <= n_lattice -> 0 <= n_points -> d <> 0%R ->
   run = k (linspace 0 (IZR n_lattice * dtau) (Z.to_nat n_lattice)) w) /\
  (n_lattice < 0 \/ n_points < 0 -> run = (w, ValueError)) /\
  (0 <= n_lattice -> 0 <= n_points -> d = 0%R ->
   run = (w, ZeroDivisionError)).
Proof.
  cbv zeta. unfold mbind, lift, np_linspace, np_zeros_3, float_divisor.
  destruct (Z.ltb_spec n_lattice 0); destruct (Z.ltb_spec n_points 0);
    destruct (Req_dec_T d 0); repeat split; intros; try lia;
    try contradiction; try reflexivity;
    match goal with H : _ \/ _ |- _ => destruct H; lia end.
Qed.


End Facts.

Local Open Scope R_scope.


End RilmFacts.

(** ** The statistical aggregator *)

Module AggregatorFacts.
Import Aggregator PyFacts.
Local Open Scope R_scope.

Lemma accumulate_from (samples : list R) (s q : R) :
  fold_left (fun acc x => (fst acc + x, snd acc + x ^ 2)) samples (s, q)
  = (s + fold_right Rplus 0 samples,
     q + fold_right Rplus 0 (map (fun x => x ^ 2) samples)).
Proof.
  revert s q. induction samples as [| x xs IH]; intros s q; simpl.
  - apply injective_projections; simpl; lra.
  - rewrite IH. apply injective_projections; simpl; lra.
Qed.

Lemma sum_repeat (a : R) (k : nat) :
  fold_right Rplus 0 (repeat a k) = INR k * a.
Proof.
  induction k as [| k IH].
  - simpl. lra.
  - rewrite S_INR. simpl repeat. simpl fold_right. rewrite IH. lra.
Qed.

Lemma accumulate_repeat (a : R) (k : nat) :
  accumulate (repeat a k) = (INR k * a, INR k * a ^ 2).
Proof.
  unfold accumulate. rewrite accumulate_from.
  assert (Hm : map (fun x => x ^ 2) (repeat a k) = repeat (a ^ 2) k).
  { induction k as [| k IH]; [reflexivity |].
    cbn [repeat map]. rewrite IH. reflexivity. }
  rewrite Hm, !sum_repeat. apply injective_projections; simpl; lra.
Qed.

(** The error of two samples: [sqrt(((a-b)/2)^2 / 2)]. *)
Lemma bin_error_two (a b : R) :
  bin_error 2 (a + b) (a ^ 2 + b ^ 2) = Rabs (a - b) / (2 * sqrt 2).
Proof.
  unfold bin_error, bin_mean.
  assert (H2 : sqrt 2 * sqrt 2 = 2) by (apply sqrt_sqrt; lra).
  assert (Hs : 0 < sqrt 2) by (apply sqrt_lt_R0; lra).
  replace ((a ^ 2 + b ^ 2) / 2 - ((a + b) / 2) ^ 2) with (((a - b) / 2) ^ 2)
    by field.
  rewrite Rmax_right by (apply pow2_ge_0).
  replace (((a - b) / 2) ^ 2 / 2) with (Rsqr ((a - b) / (2 * sqrt 2))).
  - rewrite sqrt_Rsqr_abs. unfold Rdiv. rewrite Rabs_mult.
    f_equal. apply Rabs_pos_eq. left. apply Rinv_0_lt_compat. lra.
  - unfold Rsqr.
    transitivity (((a - b) / 2) ^ 2 * / (sqrt 2 * sqrt 2)).
    + field. lra.
    + rewrite H2. field.
Qed.

(** The error of [k] equal samples. *)
Lemma bin_error_equal (a : R) (k : Z) :
  (1 <= k)%Z -> bin_error k (IZR k * a) (IZR k * a ^ 2) = 0.
Proof.
  intros Hk. assert (Hp : 0 < IZR k) by (apply IZR_lt; lia).
  unfold bin_error, bin_mean.
  replace (IZR k * a ^ 2 / IZR k - (IZR k * a / IZR k) ^ 2) with 0
    by (field; lra).
  rewrite Rmax_left by lra.
  replace (0 / IZR k) with 0 by (field; lra). apply sqrt_0.
Qed.

(** C6: for [n_samples >= 1] the aggregator returns, bin by bin, the mean
    [sum / n_samples] and the error
    [sqrt(max(0, sumsq / n_samples - mean^2) / n_samples)]; fed with the
    sums of two samples [a], [b] it gives mean [(a + b) / 2] and error
    [|a - b| / (2 sqrt 2)], and fed with the sums of [n_samples] equal
    samples it gives error 0. *)
Theorem C6_stat_av_var_mean_and_error
    (n_samples : Z) (sums sumsqs : list R) :
  (1 <= n_samples)%Z -> length sums = length sumsqs ->
  (exists av err,
     stat_av_var sums sumsqs n_samples = Ok (av, err) /\
     length av = length sums /\ length err = length sums /\
     forall (i : nat) (s q : R),
       sums !! i = Some s -> sumsqs !! i = Some q ->
       av !! i = Some (s / IZR n_samples) /\
       err !! i = Some (sqrt (Rmax 0 (q / IZR n_samples
                                       - (s / IZR n_samples) ^ 2)
                              / IZR n_samples))) /\
  (forall a b : R,
     stat_av_var [fst (accumulate [a; b])] [snd (accumulate [a; b])] 2
     = Ok ([(a + b) / 2], [Rabs (a - b) / (2 * sqrt 2)])) /\
  (forall a : R,
     let samples := repeat a (Z.to_nat n_samples) in
     stat_av_var [fst (accumulate samples)] [snd (accumulate samples)]
       n_samples
     = Ok ([a], [0])).
Proof.
  intros Hn Hlen. split; [| split].
  - unfold stat_av_var. destruct (Z.eqb_spec n_samples 0) as [| _]; [lia |].
    eexists _, _. split; [reflexivity |].
    split; [apply length_map |].
    split; [rewrite length_zip_with; lia |].
    intros i s q Hs Hq. split.
    + rewrite list_lookup_fmap, Hs. reflexivity.
    + rewrite lookup_zip_with, Hs. simpl. rewrite Hq. reflexivity.
  - intros a b. unfold stat_av_var, accumulate. simpl.
    replace (0 + a + b) with (a + b) by lra.
    replace (0 + a * (a * 1) + b * (b * 1)) with (a ^ 2 + b ^ 2)
      by (simpl; lra).
    rewrite bin_error_two. reflexivity.
  - intros a samples. subst samples. rewrite accumulate_repeat.
    unfold stat_av_var.
    destruct (Z.eqb_spec n_samples 0) as [| _]; [lia |].
    simpl fst. simpl snd. rewrite INR_IZR_INZ, Z2Nat.id by lia.
    simpl. rewrite bin_error_equal by assumption.
    unfold bin_mean. do 3 f_equal. field.
    apply not_0_IZR. lia.
Qed.

(** C6 at three bins accumulated over four samples. *)
Lemma C6_stat_av_var_witness :
  (1 <= 4)%Z /\ length [4; 8; 2] = length [4; 20; 3] /\
  exists av err, stat_av_var [4; 8; 2] [4; 20; 3] 4 = Ok (av, err).
Proof.
  split; [lia |]. split; [reflexivity |].
  destruct (C6_stat_av_var_mean_and_error 4 [4; 8; 2] [4; 20; 3])
    as [(av & err & H & _) _]; [lia | reflexivity |].
  exists av, err. exact H.
Defined.

End AggregatorFacts.

(** ** The streamline solver *)

Module StreamlineFacts.
Import Streamline PyFacts.
Section Facts.
Local Open Scope R_scope.

Variables (dtau x_potential_minimum : R).
Variable ansatz_instanton_conf : list R -> list R -> list R.
Variable return_action : list R -> R.
Variable find_instantons : list R -> Z -> R -> Z * Z * list R * list R.

Lemma lookup_val (x : list R) (i : nat) :
  (i < length x)%nat -> x !! i = Some (val x (Z.of_nat i)).
Proof.
  intros Hi. unfold val. rewrite Nat2Z.id.
  destruct (lookup_lt_is_Some_2 x i Hi) as [v Hv]. rewrite Hv. reflexivity.
Qed.

Lemma getitem_val (x : list R) (i : Z) :
  (0 <= i < Z.of_nat (length x))%Z -> getitem x i = Ok (val x i).
Proof.
  intros Hi. rewrite getitem_nonneg by lia.
  rewrite (lookup_val x (Z.to_nat i)) by lia. rewrite Z2Nat.id by lia.
  reflexivity.
Qed.

Lemma getitem_val_neg (x : list R) (i : Z) :
  (- Z.of_nat (length x) <= i < 0)%Z ->
  getitem x i = Ok (val x (Z.of_nat (length x) + i)).
Proof.
  intros Hi. apply getitem_neg; [lia | | lia].
  rewrite (lookup_val x) by lia. rewrite Z2Nat.id by lia. reflexivity.
Qed.

(** A loop that writes one entry per pass: pass [j] reads what it needs
    and stores [F j] at position [j] of the array it is given. *)
Lemma for_each_fill (F : nat -> R) (body : list R -> Z -> result (list R))
    (off s : nat) (a : list R) (k : nat) :
  (s + k <= length a)%nat ->
  (forall (a' : list R) (j : nat),
      length a' = length a -> (s <= j < s + k)%nat ->
      (forall j', (j <= j')%nat -> a' !! j' = a !! j') ->
      body a' (Z.of_nat (off + j)) = Ok (<[j := F j]> a')) ->
  exists a',
    for_each (map (fun j => Z.of_nat (off + j)) (seq s k)) body a = Ok a' /\
    length a' = length a /\
    (forall j, (s <= j < s + k)%nat -> a' !! j = Some (F j)) /\
    (forall j, ~ (s <= j < s + k)%nat -> a' !! j = a !! j).
Proof.
  intros Hlen Hbody. induction k as [| k IH].
  - exists a. simpl. repeat split; auto. intros j Hj. lia.
  - destruct IH as (a1 & Hrun & Hl1 & Hin & Hout); [lia | |].
    { intros a' j Hl Hj Hrest. apply Hbody; auto. lia. }
    exists (<[(s + k)%nat := F (s + k)%nat]> a1).
    rewrite seq_S, map_app, for_each_app, Hrun. simpl.
    rewrite (Hbody a1 (s + k)%nat); [| assumption | lia |].
    + split; [reflexivity |]. split; [rewrite length_insert; exact Hl1 |].
      split.
      * intros j Hj. destruct (Nat.eq_dec j (s + k)%nat) as [-> | Hne].
        -- apply list_lookup_insert_eq. lia.
        -- rewrite list_lookup_insert_ne by lia. apply Hin. lia.
      * intros j Hj. rewrite list_lookup_insert_ne by lia. apply Hout. lia.
    + intros j' Hj'. apply Hout. lia.
Qed.

Lemma interior_from_2 (n : nat) :
  interior n = map (fun j => Z.of_nat (2 + j)) (seq 0 (2 * n)).
Proof.
  unfold interior, range.
  replace (Z.to_nat (2 * Z.of_nat n + 2 - 2)) with (2 * n)%nat by lia.
  apply map_ext. intros k. lia.
Qed.

Lemma interior_from_0 (n : nat) :
  interior n = map (fun j => Z.of_nat (0 + j)) (seq 2 (2 * n)).
Proof.
  rewrite interior_from_2. rewrite <- (seq_shift (2 * n) 1).
  rewrite <- (seq_shift (2 * n) 0). rewrite !map_map.
  apply map_ext. intros k. lia.
Qed.

Lemma In_interior (n : nat) (i : Z) :
  In i (interior n) <-> (2 <= i <= 2 * Z.of_nat n + 1)%Z.
Proof. unfold interior. rewrite elem_of_range. lia. Qed.

Abbreviation functional_gradient :=
  (Streamline.functional_gradient dtau x_potential_minimum).
Abbreviation gradient_body :=
  (Streamline.gradient_body dtau x_potential_minimum).
Abbreviation gradient_loop :=
  (Streamline.gradient_loop dtau x_potential_minimum).
Abbreviation density_body :=
  (Streamline.density_body dtau x_potential_minimum).
Abbreviation density_loop :=
  (Streamline.density_loop dtau x_potential_minimum).

(** The expression of lines 102-114 is the gradient of the
    specification. *)
Lemma gradient_value (x : list R) (i : Z) :
  - ((- val x (i + 2) + 16 * val x (i + 1) - 30 * val x i
      + 16 * val x (i - 1) - val x (i - 2)) / (12 * dtau * dtau)) / 2
  + 4 * val x i
    * (val x i * val x i - x_potential_minimum * x_potential_minimum)
  = functional_gradient x i.
Proof.
  unfold Streamline.functional_gradient.
  replace (12 * dtau ^ 2) with (12 * dtau * dtau) by ring.
  unfold Rdiv. generalize (/ (12 * dtau * dtau)). intros d. field.
Qed.

Lemma gradient_body_ok (n : nat) (x lam : list R) (j : nat) :
  length x = (2 * n + 4)%nat -> (j < length lam)%nat ->
  length lam = (2 * n)%nat ->
  gradient_body x lam (Z.of_nat (2 + j))
  = Ok (<[j := functional_gradient x (Z.of_nat (2 + j))]> lam).
Proof.
  intros Hx Hj Hlam. unfold Streamline.gradient_body, der_2_at.
  rewrite !getitem_val by lia. cbn [Py.bind].
  rewrite setitem_nonneg by lia.
  replace (Z.to_nat (Z.of_nat (2 + j) - 2)) with j by lia.
  rewrite gradient_value. reflexivity.
Qed.

(** The gradient loop stays inside both arrays and leaves in
    [lambda_derivative] the gradient of the configuration it was given. *)
Lemma gradient_loop_ok (n : nat) (x lam : list R) :
  length x = (2 * n + 4)%nat -> length lam = (2 * n)%nat ->
  exists lam',
    gradient_loop n x lam = Ok lam' /\ length lam' = (2 * n)%nat /\
    forall j, (j < 2 * n)%nat ->
              lam' !! j = Some (functional_gradient x (Z.of_nat (2 + j))).
Proof.
  intros Hx Hlam. unfold Streamline.gradient_loop. rewrite interior_from_2.
  destruct (for_each_fill
              (fun j => functional_gradient x (Z.of_nat (2 + j)))
              (gradient_body x) 2 0 lam (2 * n))
    as (lam' & Hrun & Hlen & Hin & _).
  - lia.
  - intros a' j Hl Hj _. apply (gradient_body_ok n); lia.
  - exists lam'. split; [exact Hrun |]. split; [lia |].
    intros j Hj. apply Hin. lia.
Qed.

Lemma update_body_ok (n : nat) (lam : list R) (stream_time_step : R)
    (x x' : list R) (j : nat) :
  length x' = (2 * n + 4)%nat -> (2 <= j < 2 + 2 * n)%nat ->
  length lam = (2 * n)%nat -> x' !! j = x !! j ->
  update_body lam stream_time_step x' (Z.of_nat (0 + j))
  = Ok (<[j := val x (Z.of_nat j)
               + - val lam (Z.of_nat j - 2) * stream_time_step]> x').
Proof.
  intros Hx Hj Hlam Hsame. unfold update_body. simpl (0 + j)%nat.
  rewrite !getitem_val by lia. cbn [Py.bind].
  rewrite setitem_nonneg by lia. rewrite Nat2Z.id.
  replace (val x' (Z.of_nat j)) with (val x (Z.of_nat j)).
  - reflexivity.
  - unfold val. rewrite Nat2Z.id, Hsame. reflexivity.
Qed.

(** The update loop moves every interior site against the stored
    gradient and touches nothing else. *)
Lemma update_loop_ok (n : nat) (lam : list R) (stream_time_step : R)
    (x : list R) :
  length x = (2 * n + 4)%nat -> length lam = (2 * n)%nat ->
  exists x',
    update_loop n lam stream_time_step x = Ok x' /\
    length x' = (2 * n + 4)%nat /\
    (forall j, (2 <= j < 2 + 2 * n)%nat ->
               x' !! j = Some (val x (Z.of_nat j)
                               + - val lam (Z.of_nat j - 2)
                                   * stream_time_step)) /\
    (forall j, ~ (2 <= j < 2 + 2 * n)%nat -> x' !! j = x !! j).
Proof.
  intros Hx Hlam. unfold update_loop. rewrite interior_from_0.
  destruct (for_each_fill
              (fun j => val x (Z.of_nat j)
                        + - val lam (Z.of_nat j - 2) * stream_time_step)
              (update_body lam stream_time_step) 0 2 x (2 * n))
    as (x' & Hrun & Hlen & Hin & Hout).
  - lia.
  - intros a' j Hl Hj Hrest. apply (update_body_ok n); try lia.
    apply Hrest. lia.
  - exists x'. split; [exact Hrun |]. split; [lia |]. split; assumption.
Qed.

Lemma val_insert_ne (x : list R) (k : nat) (v : R) (i : Z) :
  Z.to_nat i <> k -> val (<[k := v]> x) i = val x i.
Proof.
  intros Hne. unfold val. rewrite list_lookup_insert_ne by lia. reflexivity.
Qed.

(** Re-clamping copies the first and the last interior value into the
    ghost points beside them and changes no interior site. *)
Lemma clamp_ghosts_ok (n : nat) (x : list R) :
  (1 <= n)%nat -> length x = (2 * n + 4)%nat ->
  exists x',
    clamp_ghosts x = Ok x' /\ length x' = (2 * n + 4)%nat /\
    x' !! 0%nat = x !! 2%nat /\ x' !! 1%nat = x !! 2%nat /\
    x' !! (2 * n + 2)%nat = x !! (2 * n + 1)%nat /\
    x' !! (2 * n + 3)%nat = x !! (2 * n + 1)%nat /\
    (forall j, (2 <= j <= 2 * n + 1)%nat -> x' !! j = x !! j).
Proof.
  intros Hn Hx. unfold clamp_ghosts.
  rewrite (getitem_val x 2) by lia. cbn [Py.bind].
  rewrite (setitem_nonneg x 0) by lia. cbn [Py.bind].
  set (x1 := <[Z.to_nat 0 := val x 2]> x).
  assert (H1 : length x1 = (2 * n + 4)%nat)
    by (unfold x1; rewrite length_insert; exact Hx).
  rewrite (getitem_val x1 2) by lia. cbn [Py.bind].
  rewrite (setitem_nonneg x1 1) by lia. cbn [Py.bind].
  set (x2 := <[Z.to_nat 1 := val x1 2]> x1).
  assert (H2 : length x2 = (2 * n + 4)%nat)
    by (unfold x2; rewrite length_insert; exact H1).
  rewrite (getitem_val_neg x2 (-3)) by lia. cbn [Py.bind].
  rewrite (setitem_neg x2 (-1)) by lia. cbn [Py.bind].
  rewrite H2.
  set (x3 := <[Z.to_nat (Z.of_nat (2 * n + 4) + -1) :=
                 val x2 (Z.of_nat (2 * n + 4) + -3)]> x2).
  assert (H3 : length x3 = (2 * n + 4)%nat)
    by (unfold x3; rewrite length_insert; exact H2).
  rewrite (getitem_val_neg x3 (-3)) by lia. cbn [Py.bind].
  rewrite (setitem_neg x3 (-2)) by lia. rewrite H3.
  eexists. split; [reflexivity |].
  assert (V1 : val x1 2 = val x 2)
    by (unfold x1; apply val_insert_ne; lia).
  assert (V2 : val x2 (Z.of_nat (2 * n + 4) + -3)
               = val x (Z.of_nat (2 * n + 1))).
  { unfold x2, x1. rewrite !val_insert_ne by lia. f_equal. lia. }
  assert (V3 : val x3 (Z.of_nat (2 * n + 4) + -3)
               = val x (Z.of_nat (2 * n + 1))).
  { unfold x3. rewrite val_insert_ne by lia. exact V2. }
  rewrite V3. unfold x3. rewrite V2. unfold x2. rewrite V1. unfold x1.
  rewrite (lookup_val x 2) by lia.
  rewrite (lookup_val x (2 * n + 1)) by lia.
  split; [rewrite !length_insert; exact Hx |].
  split.
  { rewrite !list_lookup_insert_ne by lia.
    apply list_lookup_insert_eq. lia. }
  split.
  { rewrite !list_lookup_insert_ne by lia.
    apply list_lookup_insert_eq. rewrite length_insert. lia. }
  split.
  { replace (2 * n + 2)%nat with (Z.to_nat (Z.of_nat (2 * n + 4) + -2))
      by lia.
    apply list_lookup_insert_eq. rewrite !length_insert. lia. }
  split.
  { rewrite list_lookup_insert_ne by lia.
    replace (2 * n + 3)%nat with (Z.to_nat (Z.of_nat (2 * n + 4) + -1))
      by lia.
    apply list_lookup_insert_eq. rewrite !length_insert. lia. }
  intros j Hj. rewrite !list_lookup_insert_ne by lia. reflexivity.
Qed.

Lemma density_loop_ok (n : nat) (x dens : list R) :
  length x = (2 * n + 4)%nat -> length dens = (2 * n)%nat ->
  exists dens',
    density_loop n x dens = Ok dens' /\ length dens' = (2 * n)%nat.
Proof.
  intros Hx Hd. unfold Streamline.density_loop. rewrite interior_from_2.
  destruct (for_each_fill
              (fun j =>
                 ((val x (Z.of_nat (2 + j) + 1)
                   - val x (Z.of_nat (2 + j) - 1)) / (2 * dtau)) ^ 2 / 4
                 + (val x (Z.of_nat (2 + j)) ^ 2
                    - x_potential_minimum ^ 2) ^ 2)
              (density_body x) 2 0 dens (2 * n))
    as (dens' & Hrun & Hlen & _).
  - lia.
  - intros a' j Hl Hj _. unfold Streamline.density_body.
    rewrite !getitem_val by lia. cbn [Py.bind].
    rewrite setitem_nonneg by lia.
    replace (Z.to_nat (Z.of_nat (2 + j) - 2)) with j by lia. reflexivity.
  - exists dens'. split; [exact Hrun | lia].
Qed.

Abbreviation record := (Streamline.record x_potential_minimum).
Abbreviation ansatz_action := (Streamline.ansatz_action x_potential_minimum).
Abbreviation iteration :=
  (Streamline.iteration dtau x_potential_minimum return_action
     find_instantons).
Abbreviation initial_x_config :=
  (Streamline.initial_x_config dtau ansatz_instanton_conf).
Abbreviation streamline_method_iilm :=
  (Streamline.streamline_method_iilm dtau x_potential_minimum
     ansatz_instanton_conf return_action find_instantons).

(** On a recording step with one root of each sign both files receive a
    line. *)
Lemma record_pair (i_s : Z) (current_action t_plus t_minus : R)
    (tw aw : list R) :
  (60000 < i_s)%Z -> (i_s mod 20 = 0)%Z ->
  record i_s current_action [t_plus] [t_minus] tw aw
  = Ok (tw ++ [Rabs (t_plus - t_minus)],
        aw ++ [(current_action - 2 * ansatz_action) / ansatz_action]).
Proof.
  intros Hlate Hmod. unfold Streamline.record.
  destruct (Z.ltb_spec 60000 i_s); [| lia].
  rewrite Hmod. reflexivity.
Qed.

(** Without exactly one root of each sign nothing is written. *)
Lemma record_skip (i_s : Z) (current_action : R)
    (pos_root neg_root tw aw : list R) :
  length pos_root <> 1%nat \/ length neg_root <> 1%nat ->
  record i_s current_action pos_root neg_root tw aw = Ok (tw, aw).
Proof.
  intros Hne. unfold Streamline.record.
  destruct ((60000 <? i_s)%Z && (i_s mod 20 =? 0)%Z); [| reflexivity].
  destruct (Nat.eqb_spec (length pos_root) 1);
    destruct (Nat.eqb_spec (length neg_root) 1); simpl;
    try reflexivity.
  lia.
Qed.

(** Recording never raises. *)
Lemma record_ok (i_s : Z) (current_action : R)
    (pos_root neg_root tw aw : list R) :
  exists w, record i_s current_action pos_root neg_root tw aw = Ok w.
Proof.
  unfold Streamline.record.
  destruct ((60000 <? i_s)%Z && (i_s mod 20 =? 0)%Z); [| eauto].
  destruct (Nat.eqb_spec (length pos_root) 1) as [Hp | Hp];
    destruct (Nat.eqb_spec (length neg_root) 1) as [Hn | Hn]; simpl;
    eauto.
  destruct pos_root as [| p [| ? ?]]; try discriminate.
  destruct neg_root as [| q [| ? ?]]; try discriminate.
  eauto.
Qed.

(** One pass of the evolution, in full. *)
Lemma iteration_spec (stream_time_step : R) (n : nat) (st : state)
    (i_s : Z) :
  (1 <= n)%nat -> well_shaped n st ->
  exists st',
    iteration stream_time_step n st i_s = Ok st' /\
    well_shaped n st' /\
    (forall j, (j < 2 * n)%nat ->
       lambda_derivative st' !! j
       = Some (functional_gradient (x_config st) (Z.of_nat (2 + j)))) /\
    (forall j, (2 <= j <= 2 * n + 1)%nat ->
       x_config st' !! j
       = Some (val (x_config st) (Z.of_nat j)
               - functional_gradient (x_config st) (Z.of_nat j)
                 * stream_time_step)) /\
    x_config st' !! 0%nat = x_config st' !! 2%nat /\
    x_config st' !! 1%nat = x_config st' !! 2%nat /\
    x_config st' !! (2 * n + 2)%nat = x_config st' !! (2 * n + 1)%nat /\
    x_config st' !! (2 * n + 3)%nat = x_config st' !! (2 * n + 1)%nat /\
    (let x' := x_config st' in
     let found :=
       find_instantons (slice x' 2 (-2)) (Z.of_nat (length x') - 4) dtau in
     record i_s (return_action (slice x' 2 (-1)))
       (snd (fst found)) (snd found) (tau_writer st) (act_writer st)
     = Ok (tau_writer st', act_writer st')).
Proof.
  intros Hn (Hx & Hlam & Hdens). unfold Streamline.iteration.
  destruct (gradient_loop_ok n (x_config st) (lambda_derivative st) Hx Hlam)
    as (lam & Hg & Hgl & Hgv).
  rewrite Hg. cbn [Py.bind].
  destruct (update_loop_ok n lam stream_time_step (x_config st) Hx Hgl)
    as (xu & Hu & Hul & Huin & Huout).
  rewrite Hu. cbn [Py.bind].
  destruct (clamp_ghosts_ok n xu Hn Hul)
    as (xc & Hc & Hcl & Hc0 & Hc1 & Hc2 & Hc3 & Hcin).
  rewrite Hc. cbn [Py.bind].
  destruct (density_loop_ok n xc (action_density st) Hcl Hdens)
    as (dens & Hd & Hdl).
  rewrite Hd. cbn [Py.bind].
  destruct (find_instantons (slice xc 2 (-2)) (Z.of_nat (length xc) - 4) dtau)
    as [[[n_i n_a] pos_root] neg_root] eqn:Hfound.
  destruct (record_ok i_s (return_action (slice xc 2 (-1))) pos_root neg_root
              (tau_writer st) (act_writer st)) as [w Hw].
  rewrite Hw. cbn [Py.bind].
  eexists. split; [reflexivity |]. cbn [x_config lambda_derivative
    action_density tau_writer act_writer].
  split; [repeat split; assumption |].
  split; [exact Hgv |].
  split.
  { intros j Hj. rewrite Hcin by lia. rewrite Huin by lia. f_equal.
    replace (val lam (Z.of_nat j - 2))
      with (functional_gradient (x_config st) (Z.of_nat j)).
    - ring.
    - unfold val.
      replace (Z.to_nat (Z.of_nat j - 2)) with (j - 2)%nat by lia.
      rewrite (Hgv (j - 2)%nat) by lia. cbv [from_option id Datatypes.id].
      do 2 f_equal. lia. }
  split; [rewrite Hc0; symmetry; apply Hcin; lia |].
  split; [rewrite Hc1; symmetry; apply Hcin; lia |].
  split; [rewrite Hc2; symmetry; apply Hcin; lia |].
  split; [rewrite Hc3; symmetry; apply Hcin; lia |].
  cbv zeta. rewrite Hfound. cbn [fst snd]. rewrite Hw.
  destruct w; reflexivity.
Qed.

Lemma tau_array_length (n : nat) :
  length (tau_array dtau n) = (2 * n)%nat.
Proof.
  unfold tau_array, linspace. rewrite length_map, length_seq. lia.
Qed.

(** The padded configuration, for an ansatz of [N >= 2] values: two
    copies of the first ansatz value, the first [N - 1] ansatz values, two
    copies of the last of these (the last ansatz value is overwritten). *)
Lemma initial_x_config_shape (r_initial_sep : R) (n N : nat) :
  let a := ansatz_instanton_conf (tau_centers_ia dtau r_initial_sep n)
             (tau_array dtau n) in
  (2 <= N)%nat -> length a = N ->
  exists x,
    initial_x_config r_initial_sep n = Ok x /\
    length x = (N + 3)%nat /\
    x !! 0%nat = Some (val a 0) /\ x !! 1%nat = Some (val a 0) /\
    (forall k, (k < N - 1)%nat ->
               x !! (2 + k)%nat = Some (val a (Z.of_nat k))) /\
    x !! (N + 1)%nat = Some (val a (Z.of_nat (N - 2))) /\
    x !! (N + 2)%nat = Some (val a (Z.of_nat (N - 2))).
Proof.
  intros a Hn Ha. unfold Streamline.initial_x_config. fold a.
  rewrite (getitem_val a 0) by lia. cbn [Py.bind]. unfold np_insert0.
  set (v := val a 0).
  rewrite (getitem_val (v :: a) 0) by (cbn [length]; lia). cbn [Py.bind].
  change (val (v :: a) 0) with v.
  set (x2 := v :: v :: a).
  assert (H2 : length x2 = (N + 2)%nat) by (unfold x2; cbn [length]; lia).
  rewrite (getitem_val_neg x2 (-2)) by lia. cbn [Py.bind].
  rewrite (setitem_neg x2 (-1)) by lia. cbn [Py.bind]. rewrite H2.
  assert (Hw : val x2 (Z.of_nat (N + 2) + -2) = val a (Z.of_nat (N - 2))).
  { unfold val, x2.
    replace (Z.to_nat (Z.of_nat (N + 2) + -2)) with (S (S (N - 2))) by lia.
    rewrite Nat2Z.id. reflexivity. }
  rewrite Hw. set (w := val a (Z.of_nat (N - 2))).
  set (x3 := <[Z.to_nat (Z.of_nat (N + 2) + -1) := w]> x2).
  assert (H3 : length x3 = (N + 2)%nat)
    by (unfold x3; rewrite length_insert; exact H2).
  rewrite (getitem_val_neg x3 (-1)) by lia. rewrite H3.
  assert (Hw3 : val x3 (Z.of_nat (N + 2) + -1) = w).
  { unfold val, x3. rewrite list_lookup_insert_eq by lia. reflexivity. }
  rewrite Hw3. unfold np_append.
  eexists. split; [reflexivity |].
  split; [rewrite length_app, H3; simpl; lia |].
  split.
  { rewrite lookup_app_l by lia. unfold x3.
    rewrite list_lookup_insert_ne by lia. reflexivity. }
  split.
  { rewrite lookup_app_l by lia. unfold x3.
    rewrite list_lookup_insert_ne by lia. reflexivity. }
  split.
  { intros k Hk. rewrite lookup_app_l by lia. unfold x3.
    rewrite list_lookup_insert_ne by lia. unfold x2. cbn [Nat.add].
    rewrite !lookup_cons. apply lookup_val. lia. }
  split.
  { rewrite lookup_app_l by lia. unfold x3.
    replace (N + 1)%nat with (Z.to_nat (Z.of_nat (N + 2) + -1)) by lia.
    apply list_lookup_insert_eq. lia. }
  rewrite lookup_app_r by lia. rewrite H3.
  replace (N + 2 - (N + 2))%nat with 0%nat by lia. reflexivity.
Qed.

(** The padded configuration: two copies of the first ansatz point, the
    ansatz at the [2 n] grid points, two copies of the last of these. *)
Lemma initial_x_config_spec (r_initial_sep : R) (n : nat) :
  let a := ansatz_instanton_conf (tau_centers_ia dtau r_initial_sep n)
             (tau_array dtau n) in
  (1 <= n)%nat -> length a = (2 * n + 1)%nat ->
  exists x,
    initial_x_config r_initial_sep n = Ok x /\
    length x = (2 * n + 4)%nat /\
    x !! 0%nat = Some (val a 0) /\ x !! 1%nat = Some (val a 0) /\
    (forall k, (k < 2 * n)%nat ->
               x !! (2 + k)%nat = Some (val a (Z.of_nat k))) /\
    x !! (2 * n + 2)%nat = Some (val a (Z.of_nat (2 * n - 1))) /\
    x !! (2 * n + 3)%nat = Some (val a (Z.of_nat (2 * n - 1))).
Proof.
  intros a Hn Ha.
  destruct (initial_x_config_shape r_initial_sep n (2 * n + 1) ltac:(lia) Ha)
    as (x & Hx & Hl & H0 & H1 & Hin & H2 & H3).
  fold a in H0, H1, Hin, H2, H3.
  exists x. split; [exact Hx |]. split; [rewrite Hl; lia |].
  split; [exact H0 |]. split; [exact H1 |]. split.
  - intros k Hk. apply Hin. lia.
  - replace (2 * n + 1 - 2)%nat with (2 * n - 1)%nat in H2, H3 by lia.
    replace (2 * n + 1 + 1)%nat with (2 * n + 2)%nat in H2 by lia.
    replace (2 * n + 1 + 2)%nat with (2 * n + 3)%nat in H3 by lia.
    split; assumption.
Qed.

(** With a configuration one point short, the gradient at the last
    interior site would read past the end. *)
Lemma der_2_at_short (n : nat) (x : list R) :
  length x = (2 * n + 3)%nat ->
  der_2_at dtau x (2 * Z.of_nat n + 1) = IndexError (2 * Z.of_nat n + 3).
Proof.
  intros Hx. unfold der_2_at. rewrite getitem_past_end by lia.
  simpl. f_equal. lia.
Qed.

(** The evolution keeps the arrays in shape, so no pass raises. *)
Lemma iterations_ok (stream_time_step : R) (n : nat) (steps : list Z) :
  (1 <= n)%nat ->
  forall st, well_shaped n st ->
  exists st',
    for_each steps (iteration stream_time_step n) st = Ok st' /\
    well_shaped n st'.
Proof.
  intros Hn. induction steps as [| i_s steps IH]; intros st Hst; simpl.
  - eauto.
  - destruct (iteration_spec stream_time_step n st i_s Hn Hst)
      as (st1 & Hrun & Hst1 & _).
    rewrite Hrun. simpl. apply IH. exact Hst1.
Qed.

Lemma streamline_method_iilm_ok (r_initial_sep stream_time_step : R)
    (n n_streamline : nat) :
  (1 <= n)%nat ->
  (forall centers grid,
      length (ansatz_instanton_conf centers grid) = S (length grid)) ->
  exists st,
    streamline_method_iilm r_initial_sep stream_time_step n n_streamline
    = Ok st /\ well_shaped n st.
Proof.
  intros Hn Hans. unfold Streamline.streamline_method_iilm.
  destruct (initial_x_config_spec r_initial_sep n Hn) as (x & Hx & Hl & _).
  { rewrite Hans, tau_array_length. lia. }
  rewrite Hx. cbn [Py.bind]. apply iterations_ok; [exact Hn |].
  unfold well_shaped, zeros. cbn [x_config lambda_derivative action_density].
  rewrite !repeat_length. auto.
Qed.

(** With a configuration one point short the gradient loop passes every
    interior site but the last one, where it raises. *)
Lemma gradient_loop_short (n : nat) (x lam : list R) :
  (1 <= n)%nat -> length x = (2 * n + 3)%nat -> length lam = (2 * n)%nat ->
  gradient_loop n x lam = IndexError (2 * Z.of_nat n + 3).
Proof.
  intros Hn Hx Hlam. unfold Streamline.gradient_loop.
  rewrite interior_from_2.
  replace (2 * n)%nat with (S (2 * n - 1)) at 1 by lia.
  rewrite seq_S, map_app, for_each_app.
  destruct (for_each_fill
              (fun j => functional_gradient x (Z.of_nat (2 + j)))
              (gradient_body x) 2 0 lam (2 * n - 1))
    as (lam' & Hrun & Hlen & _).
  - lia.
  - intros a' j Hl Hj _. unfold Streamline.gradient_body, der_2_at.
    rewrite !getitem_val by lia. cbn [Py.bind].
    rewrite setitem_nonneg by lia.
    replace (Z.to_nat (Z.of_nat (2 + j) - 2)) with j by lia.
    rewrite gradient_value. reflexivity.
  - rewrite Hrun. cbn [Py.bind map for_each].
    unfold Streamline.gradient_body.
    replace (Z.of_nat (2 + (0 + (2 * n - 1)))) with (2 * Z.of_nat n + 1)%Z
      by lia.
    rewrite (der_2_at_short n x Hx). reflexivity.
Qed.

Lemma streamline_method_iilm_short (r_initial_sep stream_time_step : R)
    (n n_streamline : nat) (x : list R) :
  (1 <= n)%nat -> (1 <= n_streamline)%nat ->
  initial_x_config r_initial_sep n = Ok x -> length x = (2 * n + 3)%nat ->
  streamline_method_iilm r_initial_sep stream_time_step n n_streamline
  = IndexError (2 * Z.of_nat n + 3).
Proof.
  intros Hn Hs Hx Hl. unfold Streamline.streamline_method_iilm.
  rewrite Hx. cbn [Py.bind]. unfold range.
  replace (Z.to_nat (Z.of_nat n_streamline - 0)) with (S (n_streamline - 1))
    by lia.
  cbn [seq map for_each]. unfold Streamline.iteration at 1.
  cbn [x_config lambda_derivative].
  rewrite (gradient_loop_short n x (zeros (2 * n)) Hn Hl)
    by (unfold zeros; apply repeat_length).
  reflexivity.
Qed.

(** C1: for [n_lattice_half >= 1] the padding works on what the ansatz
    builder returns for the two centers and the [2 n] points of the time
    grid.  When that is one value more than the grid has points (the
    lattice with its periodic end point), the initial configuration has
    [2 n + 4] entries, its interior sites 2, ..., [2 n + 1] hold the
    ansatz values at the [2 n] grid points, its two ghost points on each
    side repeat the nearest interior value, every read
    [x_config[i_pos - 2]], ..., [x_config[i_pos + 2]] of the gradient
    loop, for [i_pos] from 2 to [2 n + 1], is inside it, and the evolution
    runs through any number of passes without [IndexError], the arrays
    keeping their sizes.  When the builder returns exactly one value for
    each grid point, the configuration has [2 n + 3] entries only and the
    first pass raises [IndexError] at the read [x_config[i_pos + 2]] of
    the last interior site. *)
Theorem C1_padded_configuration_reads_in_bounds
    (r_initial_sep : R) (n_lattice_half : nat) :
  (1 <= n_lattice_half)%nat ->
  let ansatz :=
    ansatz_instanton_conf (tau_centers_ia dtau r_initial_sep n_lattice_half)
      (tau_array dtau n_lattice_half) in
  (length ansatz = S (length (tau_array dtau n_lattice_half)) ->
   exists x,
     initial_x_config r_initial_sep n_lattice_half = Ok x /\
     length x = (2 * n_lattice_half + 4)%nat /\
     (forall k, (k < 2 * n_lattice_half)%nat ->
                x !! (2 + k)%nat = ansatz !! k) /\
     x !! 0%nat = x !! 2%nat /\ x !! 1%nat = x !! 2%nat /\
     x !! (2 * n_lattice_half + 2)%nat = x !! (2 * n_lattice_half + 1)%nat /\
     x !! (2 * n_lattice_half + 3)%nat = x !! (2 * n_lattice_half + 1)%nat /\
     (forall i_pos d : Z,
         In i_pos (interior n_lattice_half) -> (-2 <= d <= 2)%Z ->
         (0 <= i_pos + d < Z.of_nat (length x))%Z /\
         getitem x (i_pos + d) = Ok (val x (i_pos + d))) /\
     (exists lam,
         gradient_loop n_lattice_half x (zeros (2 * n_lattice_half))
         = Ok lam) /\
     forall (stream_time_step : R) (n_streamline : nat),
     exists st,
       streamline_method_iilm r_initial_sep stream_time_step n_lattice_half
         n_streamline = Ok st /\
       well_shaped n_lattice_half st) /\
  (length ansatz = length (tau_array dtau n_lattice_half) ->
   exists x,
     initial_x_config r_initial_sep n_lattice_half = Ok x /\
     length x = (2 * n_lattice_half + 3)%nat /\
     In (2 * Z.of_nat n_lattice_half + 1)%Z (interior n_lattice_half) /\
     getitem x (2 * Z.of_nat n_lattice_half + 1 + 2)
     = IndexError (2 * Z.of_nat n_lattice_half + 3) /\
     gradient_loop n_lattice_half x (zeros (2 * n_lattice_half))
     = IndexError (2 * Z.of_nat n_lattice_half + 3) /\
     forall (stream_time_step : R) (n_streamline : nat),
       (1 <= n_streamline)%nat ->
       streamline_method_iilm r_initial_sep stream_time_step n_lattice_half
         n_streamline = IndexError (2 * Z.of_nat n_lattice_half + 3)).
Proof.
  intros Hn ansatz. split.
  - intros Hans. rewrite tau_array_length in Hans.
    destruct (initial_x_config_spec r_initial_sep n_lattice_half Hn)
      as (x & Hx & Hl & H0 & H1 & Hin & H2 & H3).
    { fold ansatz. lia. }
    fold ansatz in H0, H1, Hin, H2, H3.
    exists x. split; [exact Hx |]. split; [exact Hl |].
    pose proof (Hin 0%nat ltac:(lia)) as Hfirst.
    pose proof (Hin (2 * n_lattice_half - 1)%nat ltac:(lia)) as Hlast.
    replace (2 + (2 * n_lattice_half - 1))%nat
      with (2 * n_lattice_half + 1)%nat in Hlast by lia.
    split.
    { intros k Hk. rewrite (Hin k Hk). symmetry. apply lookup_val. lia. }
    split; [rewrite H0; symmetry; exact Hfirst |].
    split; [rewrite H1; symmetry; exact Hfirst |].
    split; [rewrite H2, Hlast; reflexivity |].
    split; [rewrite H3, Hlast; reflexivity |].
    split.
    { intros i_pos d Hi Hd. apply In_interior in Hi.
      assert (Hb : (0 <= i_pos + d < Z.of_nat (length x))%Z) by lia.
      split; [exact Hb | apply getitem_val; exact Hb]. }
    split.
    { destruct (gradient_loop_ok n_lattice_half x
                  (zeros (2 * n_lattice_half)))
        as (lam & Hrun & _).
      + exact Hl.
      + unfold zeros. apply repeat_length.
      + exists lam. exact Hrun. }
    intros stream_time_step n_streamline.
    unfold Streamline.streamline_method_iilm. rewrite Hx. cbn [Py.bind].
    apply iterations_ok; [exact Hn |].
    unfold well_shaped, zeros.
    cbn [x_config lambda_derivative action_density].
    rewrite !repeat_length. auto.
  - intros Hans. rewrite tau_array_length in Hans.
    destruct (initial_x_config_shape r_initial_sep n_lattice_half
                (2 * n_lattice_half) ltac:(lia) Hans)
      as (x & Hx & Hl & _).
    assert (Hl' : length x = (2 * n_lattice_half + 3)%nat) by lia.
    exists x. split; [exact Hx |]. split; [exact Hl' |].
    split; [apply In_interior; lia |].
    split.
    { rewrite getitem_past_end by lia. f_equal. lia. }
    split.
    { apply gradient_loop_short; [exact Hn | exact Hl' |].
      unfold zeros. apply repeat_length. }
    intros stream_time_step n_streamline Hs.
    apply (streamline_method_iilm_short r_initial_sep stream_time_step
             n_lattice_half n_streamline x Hn Hs Hx Hl').
Qed.

(** C5: one pass of the evolution stores, for every interior site [i],
    the gradient
    [-1/2 ((-x[i+2] + 16 x[i+1] - 30 x[i] + 16 x[i-1] - x[i-2]) / (12 dtau^2))
     + 4 x[i] (x[i]^2 - x_potential_minimum^2)]
    of the configuration before the pass, replaces [x[i]] by
    [x[i] - gradient[i] * stream_time_step], and leaves each pair of ghost
    points equal to the interior value next to it; the arrays keep their
    sizes, so this holds at every pass. *)
Theorem C5_gradient_update_and_reclamp
    (stream_time_step : R) (n_lattice_half : nat) (st : state) (i_s : Z) :
  (1 <= n_lattice_half)%nat -> well_shaped n_lattice_half st ->
  exists st',
    iteration stream_time_step n_lattice_half st i_s = Ok st' /\
    well_shaped n_lattice_half st' /\
    (forall i : Z, (2 <= i <= 2 * Z.of_nat n_lattice_half + 1)%Z ->
       lambda_derivative st' !! Z.to_nat (i - 2)
       = Some (functional_gradient (x_config st) i) /\
       x_config st' !! Z.to_nat i
       = Some (val (x_config st) i
               - functional_gradient (x_config st) i * stream_time_step)) /\
    x_config st' !! 0%nat = x_config st' !! 2%nat /\
    x_config st' !! 1%nat = x_config st' !! 2%nat /\
    x_config st' !! (2 * n_lattice_half + 2)%nat
    = x_config st' !! (2 * n_lattice_half + 1)%nat /\
    x_config st' !! (2 * n_lattice_half + 3)%nat
    = x_config st' !! (2 * n_lattice_half + 1)%nat.
Proof.
  intros Hn Hst.
  destruct (iteration_spec stream_time_step n_lattice_half st i_s Hn Hst)
    as (st' & Hrun & Hst' & Hlam & Hx & G0 & G1 & G2 & G3 & _).
  exists st'. split; [exact Hrun |]. split; [exact Hst' |].
  split; [| auto].
  intros i Hi. split.
  - rewrite (Hlam (Z.to_nat (i - 2))) by lia. do 2 f_equal. lia.
  - rewrite (Hx (Z.to_nat i)) by lia. rewrite Z2Nat.id by lia. reflexivity.
Qed.

(** C3: on a recording pass ([i_s > 60000] and [i_s] a multiple of 20),
    when the detector returns one positive root [t_plus] and one negative
    root [t_minus], the pass appends [|t_plus - t_minus|] to the
    separations and [(current_action - 2 S0) / S0], with
    [S0 = 4/3 x_potential_minimum^3], to the interaction actions; when it
    does not return exactly one root of each sign, both outputs are left
    as they were.  In either case the pass returns normally, with the
    arrays in shape for the next one. *)
Theorem C3_recording_needs_one_root_of_each_sign
    (stream_time_step : R) (n_lattice_half : nat) (st : state) (i_s : Z) :
  (1 <= n_lattice_half)%nat -> well_shaped n_lattice_half st ->
  (60000 < i_s)%Z -> (i_s mod 20 = 0)%Z ->
  exists st',
    iteration stream_time_step n_lattice_half st i_s = Ok st' /\
    well_shaped n_lattice_half st' /\
    let x' := x_config st' in
    let found :=
      find_instantons (slice x' 2 (-2)) (Z.of_nat (length x') - 4) dtau in
    let current_action := return_action (slice x' 2 (-1)) in
    let S0 := 4 / 3 * x_potential_minimum ^ 3 in
    (forall t_plus t_minus : R,
        snd (fst found) = [t_plus] -> snd found = [t_minus] ->
        tau_writer st' = tau_writer st ++ [Rabs (t_plus - t_minus)] /\
        act_writer st'
        = act_writer st ++ [(current_action - 2 * S0) / S0]) /\
    (length (snd (fst found)) <> 1%nat \/ length (snd found) <> 1%nat ->
     tau_writer st' = tau_writer st /\ act_writer st' = act_writer st).
Proof.
  intros Hn Hst Hlate Hmod.
  destruct (iteration_spec stream_time_step n_lattice_half st i_s Hn Hst)
    as (st' & Hrun & Hst' & _ & _ & _ & _ & _ & _ & Hrec).
  exists st'. split; [exact Hrun |]. split; [exact Hst' |].
  cbv zeta in *. split.
  - intros t_plus t_minus Hp Hm. rewrite Hp, Hm in Hrec.
    rewrite record_pair in Hrec by assumption.
    inversion Hrec. split; reflexivity.
  - intros Hne. rewrite record_skip in Hrec by exact Hne.
    inversion Hrec. split; reflexivity.
Qed.

End Facts.

Local Open Scope R_scope.

(** A builder that returns one value for each point of the time grid, as
    section 4.6 of the specification describes it: at [n_lattice_half = 1]
    the padded configuration has five entries and the gradient loop reads
    [x_config[5]] at its last site [i_pos = 3]. *)
Lemma C1_one_value_per_grid_point_raises :
  exists x,
    Streamline.initial_x_config (1 / 20) (fun _ grid => grid) (18 / 10) 1
    = Ok x /\
    length x = 5%nat /\
    In 3%Z (Streamline.interior 1) /\
    getitem x (3 + 2) = IndexError 5 /\
    Streamline.gradient_loop (1 / 20) (14 / 10) 1 x (zeros 2) = IndexError 5 /\
    Streamline.streamline_method_iilm (1 / 20) (14 / 10) (fun _ grid => grid)
      (fun _ => 0) (fun _ _ _ => (0%Z, 0%Z, [], [])) (18 / 10) (1 / 1000) 1 1
    = IndexError 5.
Proof.
  destruct (initial_x_config_shape (1 / 20) (fun _ grid => grid) (18 / 10)
              1 2 ltac:(lia) eq_refl)
    as (x & Hx & Hl & _).
  exists x. split; [exact Hx |]. split; [exact Hl |].
  split; [apply In_interior; lia |].
  split; [apply getitem_past_end; rewrite Hl; simpl; lia |].
  split.
  - apply (gradient_loop_short (1 / 20) (14 / 10) 1 x (zeros 2));
      [lia | exact Hl | reflexivity].
  - apply (streamline_method_iilm_short (1 / 20) (14 / 10)
             (fun _ grid => grid) (fun _ => 0)
             (fun _ _ _ => (0%Z, 0%Z, [], [])) (18 / 10) (1 / 1000) 1 1 x);
      [lia | lia | exact Hx | exact Hl].
Qed.

(** C1 at [n_lattice_half = 1], for a builder that closes the lattice
    with one more point. *)
Lemma C1_padded_configuration_witness :
  (1 <= 1)%nat /\
  length ((fun _ g : list R => g ++ [0])
            (Streamline.tau_centers_ia (1 / 20) (18 / 10) 1)
            (Streamline.tau_array (1 / 20) 1))
  = S (length (Streamline.tau_array (1 / 20) 1)) /\
  exists x,
    Streamline.initial_x_config (1 / 20) (fun _ g => g ++ [0]) (18 / 10) 1
    = Ok x /\ length x = 6%nat /\
    forall k, (k < 2 * 1)%nat ->
      x !! (2 + k)%nat = (Streamline.tau_array (1 / 20) 1 ++ [0]) !! k.
Proof.
  assert (Hn : (1 <= 1)%nat) by lia.
  assert (Hlen : length ((fun _ g : list R => g ++ [0])
                           (Streamline.tau_centers_ia (1 / 20) (18 / 10) 1)
                           (Streamline.tau_array (1 / 20) 1))
                 = S (length (Streamline.tau_array (1 / 20) 1)))
    by reflexivity.
  split; [exact Hn |]. split; [exact Hlen |].
  destruct (proj1 (C1_padded_configuration_reads_in_bounds (1 / 20) (14 / 10)
                     (fun _ g => g ++ [0]) (fun _ => 0)
                     (fun _ _ _ => (0%Z, 0%Z, [], [])) (18 / 10) 1 Hn) Hlen)
    as (x & Hx & Hl & Hin & _).
  exists x. split; [exact Hx |]. split; [exact Hl |]. exact Hin.
Defined.

(** C5 on a flat configuration of six points. *)
Lemma C5_gradient_update_witness :
  let st := {| x_config := [1; 1; 1; 1; 1; 1];
               lambda_derivative := [0; 0]; action_density := [0; 0];
               tau_writer := []; act_writer := [] |} in
  (1 <= 1)%nat /\ well_shaped 1 st /\
  exists st',
    Streamline.iteration (1 / 20) 1 (fun _ => 0)
      (fun _ _ _ => (0%Z, 0%Z, [], [])) (1 / 1000) 1 st 0 = Ok st'
    /\ well_shaped 1 st'.
Proof.
  intros st.
  assert (Hst : well_shaped 1 st) by (repeat split; reflexivity).
  split; [lia |]. split; [exact Hst |].
  destruct (C5_gradient_update_and_reclamp (1 / 20) 1 (fun _ => 0)
              (fun _ _ _ => (0%Z, 0%Z, [], [])) (1 / 1000) 1 st 0
              ltac:(lia) Hst) as (st' & Hrun & Hst' & _).
  exists st'. split; [exact Hrun | exact Hst'].
Defined.

(** C3 at pass 60020, with a detector that reports one root of each
    sign. *)
Lemma C3_recording_witness :
  let st := {| x_config := [1; 1; 1; 1; 1; 1];
               lambda_derivative := [0; 0]; action_density := [0; 0];
               tau_writer := []; act_writer := [] |} in
  (1 <= 1)%nat /\ well_shaped 1 st /\
  (60000 < 60020)%Z /\ (60020 mod 20 = 0)%Z /\
  exists st',
    Streamline.iteration (1 / 20) 1 (fun _ => 3)
      (fun _ _ _ => (1%Z, 1%Z, [2], [5])) (1 / 1000) 1 st 60020 = Ok st'
    /\ tau_writer st' = [Rabs (2 - 5)].
Proof.
  intros st.
  assert (Hst : well_shaped 1 st) by (repeat split; reflexivity).
  split; [lia |]. split; [exact Hst |]. split; [lia |].
  split; [reflexivity |].
  destruct (C3_recording_needs_one_root_of_each_sign (1 / 20) 1
              (fun _ => 3) (fun _ _ _ => (1%Z, 1%Z, [2], [5]))
              (1 / 1000) 1 st 60020 ltac:(lia) Hst ltac:(lia) eq_refl)
    as (st' & Hrun & _ & Hpair & _).
  exists st'. split; [exact Hrun |].
  destruct (Hpair 2 5 eq_refl eq_refl) as [Htau _]. exact Htau.
Defined.

End StreamlineFacts.

(** ** The cooled Monte Carlo density driver *)

Module CoolingDensityFacts.
Import CoolingDensity PyFacts.
Section Facts.

Variable RNG : Type.
Variable dtau : R.
Variable initialize_lattice : Z -> bool -> RNG -> RNG * list R.
Variable metropolis_question : R -> RNG -> list R -> RNG * list R.
Variable configuration_cooling : list R -> R -> list R.
Variable find_instantons : list R -> Z -> R -> Z * Z * list R * list R.
Variable return_action : R -> list R -> R.

Abbreviation world := (CoolingDensity.world RNG).
Abbreviation heap := (CoolingDensity.heap RNG).
Abbreviation trace := (CoolingDensity.trace RNG).
Abbreviation cooling_sweep_body :=
  (CoolingDensity.cooling_sweep_body RNG dtau configuration_cooling
     find_instantons return_action).
Abbreviation cooling_event :=
  (CoolingDensity.cooling_event RNG dtau configuration_cooling
     find_instantons return_action).
Abbreviation mc_body :=
  (CoolingDensity.mc_body RNG dtau metropolis_question
     configuration_cooling find_instantons return_action).
Abbreviation minimum_body :=
  (CoolingDensity.minimum_body RNG dtau initialize_lattice
     metropolis_question configuration_cooling find_instantons
     return_action).
Abbreviation cooled_monte_carlo_density :=
  (CoolingDensity.cooled_monte_carlo_density RNG dtau initialize_lattice
     metropolis_question configuration_cooling find_instantons
     return_action).

(** *** The sampler's configuration is out of the cooling's reach *)

(** A pass of the cooling loop writes to the cooled array only, and
    draws no random number. *)
Lemma cooling_sweep_body_frame (x l : loc) (c : list R) (g : RNG) (v : R)
    (n_lattice : Z) (acc : accumulators) (i : Z) (w : world) :
  l <> x -> heap w !! x = Some c /\ rng RNG w = g ->
  wp (cooling_sweep_body v n_lattice l acc i)
    (fun _ w' => heap w' !! x = Some c /\ rng RNG w' = g)
    (fun w' => heap w' !! x = Some c /\ rng RNG w' = g) w.
Proof.
  intros Hne [Hx Hg].
  unfold wp, CoolingDensity.cooling_sweep_body, do_cooling, emit, load,
    store, mbind, modify, gets, lift, mret. simpl.
  destruct (find_instantons _ n_lattice dtau) as [[[n_i n_a] p] q].
  repeat match goal with
         | |- context [add_at ?f ?a ?j ?v] =>
             destruct (add_at f a j v); simpl
         end;
    (split; [rewrite lookup_insert_ne by exact Hne; exact Hx | exact Hg]).
Qed.

Lemma cooling_event_frame (x : loc) (c : list R) (v : R)
    (n_lattice n_cooling_sweeps : Z) (acc : accumulators) (w : world) :
  heap w !! x = Some c ->
  wp (cooling_event v n_lattice n_cooling_sweeps x acc)
    (fun _ w' => heap w' !! x = Some c /\ rng RNG w' = rng RNG w)
    (fun w' => heap w' !! x = Some c /\ rng RNG w' = rng RNG w) w.
Proof.
  intros Hx. unfold CoolingDensity.cooling_event. apply wp_bind.
  unfold wp at 1. unfold np_copy, load, alloc, mbind, gets. simpl.
  set (l := fresh (dom (heap w))).
  assert (Hl : l <> x).
  { intros Heq. apply (is_fresh (dom (heap w))). fold l. rewrite Heq.
    apply elem_of_dom. rewrite Hx. eauto. }
  pose proof (wp_for_each
                (fun _ _ w' => heap w' !! x = Some c /\ rng RNG w' = rng RNG w)
                (fun w' => heap w' !! x = Some c /\ rng RNG w' = rng RNG w)
                (range 0 n_cooling_sweeps)
                (cooling_sweep_body v n_lattice l)) as Hloop.
  apply Hloop.
  - intros k i st w' _ Hw'. apply cooling_sweep_body_frame; assumption.
  - simpl. split; [| reflexivity].
    rewrite lookup_insert_ne by exact Hl. exact Hx.
Qed.

(** C10: a cooling event works on a copy.  Whatever the number of cooling
    sweeps, and whether or not the event ends normally, the array that
    [x_config] names holds after the event what it held before, and the
    random generator is in the state it was in: nothing the Metropolis
    chain depends on has changed. *)
Theorem C10_cooling_event_leaves_x_config
    (v : R) (n_lattice n_cooling_sweeps : Z) (x_config : loc)
    (acc : accumulators) (w : world) (c : list R) :
  heap w !! x_config = Some c ->
  let w' := fst (cooling_event v n_lattice n_cooling_sweeps x_config acc w) in
  heap w' !! x_config = Some c /\ rng RNG w' = rng RNG w.
Proof.
  intros Hx w'.
  pose proof (cooling_event_frame x_config c v n_lattice n_cooling_sweeps
                acc w Hx) as Hwp.
  apply wp_elim in Hwp. destruct Hwp as [(a & _ & H) | [_ H]]; exact H.
Qed.

(** *** Every pass of the loops returns normally *)

Lemma zero_sums_shaped (n_cooling_sweeps : Z) :
  acc_shaped n_cooling_sweeps (zero_sums n_cooling_sweeps).
Proof.
  unfold acc_shaped, zero_sums, zeros. simpl.
  rewrite !repeat_length. auto.
Qed.

(** The allocation of the sums: a size that is not negative gives the
    four arrays of zeros, a negative one is refused. *)
Lemma zero_accumulators_ok (n_cooling_sweeps : Z) :
  0 <= n_cooling_sweeps ->
  zero_accumulators n_cooling_sweeps = Ok (zero_sums n_cooling_sweeps).
Proof.
  intros Hn. unfold zero_accumulators, np_zeros_int, np_zeros.
  destruct (Z.ltb_spec n_cooling_sweeps 0); [lia | reflexivity].
Qed.

Lemma zero_accumulators_negative (n_cooling_sweeps : Z) :
  n_cooling_sweeps < 0 -> zero_accumulators n_cooling_sweeps = ValueError.
Proof.
  intros Hn. unfold zero_accumulators, np_zeros_int.
  destruct (Z.ltb_spec n_cooling_sweeps 0); [reflexivity | lia].
Qed.

Lemma add_at_ok {A} (f : A -> A -> A) (a : list A) (i : Z) (v : A) :
  0 <= i < Z.of_nat (length a) ->
  exists old,
    a !! Z.to_nat i = Some old /\
    add_at f a i v = Ok (<[Z.to_nat i := f old v]> a).
Proof.
  intros Hi. destruct (lookup_lt_is_Some_2 a (Z.to_nat i)) as [old Hold];
    [lia |].
  exists old. split; [exact Hold |]. unfold add_at.
  rewrite getitem_nonneg by lia. rewrite Hold. simpl.
  apply setitem_nonneg. exact Hi.
Qed.

(** One pass of the cooling loop: the cooled array takes one more
    cooling sweep and bin [i_cooling] of the action sums receives the
    action of the result. *)
Lemma cooling_sweep_body_spec (l : loc) (a : list R) (v : R)
    (n_lattice n_cooling_sweeps : Z) (acc : accumulators) (i : Z)
    (w : world) :
  heap w !! l = Some a -> acc_shaped n_cooling_sweeps acc ->
  0 <= i < n_cooling_sweeps ->
  exists w' acc' old,
    cooling_sweep_body v n_lattice l acc i w = (w', Ok acc') /\
    heap w' = <[l := configuration_cooling a v]> (heap w) /\
    trace w' = trace w ++ [Cooling l] /\
    acc_shaped n_cooling_sweeps acc' /\
    action_cooling acc !! Z.to_nat i = Some old /\
    action_cooling acc'
    = <[Z.to_nat i :=
          (old + return_action v (configuration_cooling a v))%R]>
        (action_cooling acc).
Proof.
  intros Hl (S1 & S2 & S3 & S4) Hi.
  unfold CoolingDensity.cooling_sweep_body, do_cooling, emit, load, store,
    mbind, modify, gets, lift, mret. simpl.
  rewrite Hl. simpl. rewrite !lookup_insert_eq. simpl.
  destruct (find_instantons (configuration_cooling a v) n_lattice dtau)
    as [[[n_i n_a] p] q].
  destruct (add_at_ok Z.add (n_total_instantons_sum acc) i (n_i + n_a))
    as (o1 & _ & ->); [lia |].
  match goal with
  | |- context [add_at Z.add (n2_total_instantons_sum acc) i ?x] =>
      destruct (add_at_ok Z.add (n2_total_instantons_sum acc) i x)
        as (o2 & _ & ->); [lia |]
  end.
  simpl. rewrite ?lookup_insert_eq. simpl.
  destruct (add_at_ok Rplus (action_cooling acc) i
              (return_action v (configuration_cooling a v)))
    as (o3 & Ho3 & ->); [lia |].
  match goal with
  | |- context [add_at Rplus (action2_cooling acc) i ?x] =>
      destruct (add_at_ok Rplus (action2_cooling acc) i x)
        as (o4 & _ & ->); [lia |]
  end.
  eexists _, _, o3. split; [reflexivity |]. simpl.
  split; [reflexivity |]. split; [reflexivity |].
  split; [| split; [exact Ho3 | reflexivity]].
  unfold acc_shaped. simpl. rewrite !length_insert. auto.
Qed.

Abbreviation cool_n v k c :=
  (Nat.iter k (fun a => configuration_cooling a v) c).

(** A cooling event: it returns normally, hands nothing to the
    aggregator, and adds to bin [j] of the action sums the action of the
    configuration after [j + 1] cooling sweeps. *)
Lemma cooling_event_spec (x : loc) (c : list R) (v : R)
    (n_lattice n_cooling_sweeps : Z) (acc : accumulators) (w : world) :
  heap w !! x = Some c -> acc_shaped n_cooling_sweeps acc ->
  exists w' acc',
    cooling_event v n_lattice n_cooling_sweeps x acc w = (w', Ok acc') /\
    acc_shaped n_cooling_sweeps acc' /\
    (Forall supplies_samples (trace w) ->
     Forall supplies_samples (trace w')) /\
    (forall j, (j < Z.to_nat n_cooling_sweeps)%nat ->
       exists old,
         action_cooling acc !! j = Some old /\
         action_cooling acc' !! j
         = Some (old + return_action v (cool_n v (S j) c))%R).
Proof.
  intros Hx Hacc.
  set (Inv := fun (k : nat) (acc1 : accumulators) (w1 : world) =>
              exists l,
              heap w1 !! l = Some (cool_n v k c) /\
              acc_shaped n_cooling_sweeps acc1 /\
              (Forall supplies_samples (trace w) ->
               Forall supplies_samples (trace w1)) /\
              (forall j, (j < k)%nat ->
                 exists old,
                   action_cooling acc !! j = Some old /\
                   action_cooling acc1 !! j
                   = Some (old + return_action v (cool_n v (S j) c))%R) /\
              (forall j, (k <= j)%nat ->
                 action_cooling acc1 !! j = action_cooling acc !! j)).
  assert (Hwp : wp (cooling_event v n_lattice n_cooling_sweeps x acc)
                  (fun acc' w' =>
                     Inv (length (range 0 n_cooling_sweeps)) acc' w')
                  (fun _ => False) w).
  { unfold CoolingDensity.cooling_event. apply wp_bind.
    unfold wp at 1. unfold np_copy, load, alloc, mbind, gets. simpl.
    rewrite Hx. simpl. set (l := fresh (dom (heap w))).
    set (Inv' := fun (k : nat) (acc1 : accumulators) (w1 : world) =>
              heap w1 !! l = Some (cool_n v k c) /\
              acc_shaped n_cooling_sweeps acc1 /\
              (Forall supplies_samples (trace w) ->
               Forall supplies_samples (trace w1)) /\
              (forall j, (j < k)%nat ->
                 exists old,
                   action_cooling acc !! j = Some old /\
                   action_cooling acc1 !! j
                   = Some (old + return_action v (cool_n v (S j) c))%R) /\
              (forall j, (k <= j)%nat ->
                 action_cooling acc1 !! j = action_cooling acc !! j)).
    apply (wp_mono _ (fun acc' w' =>
                        Inv' (length (range 0 n_cooling_sweeps)) acc' w')
             _ (fun _ => False)); [| intros a w' H; exists l; exact H | auto].
    apply (wp_for_each Inv').
    - intros k i acc1 w1 Hk (Hl & Hs & HT & Hlt & Hge).
      pose proof (range_lookup_lt _ _ _ _ Hk) as Hi.
      pose proof (range_lookup _ _ _ _ Hk) as Hik.
      destruct (cooling_sweep_body_spec l _ v n_lattice n_cooling_sweeps
                  acc1 i w1 Hl Hs Hi)
        as (w2 & acc2 & old & Hrun & Hh & Ht & Hs2 & Hold & Hnew).
      apply (wp_of_eq _ _ _ _ _ _ Hrun).
      replace (Z.to_nat i) with k in * by lia.
      split; [rewrite Hh; apply lookup_insert_eq |].
      split; [exact Hs2 |].
      split.
      { intros H. rewrite Ht. apply Forall_app. split; [auto |].
        constructor; [exact Logic.I | constructor]. }
      split.
      + intros j Hj. rewrite Hnew.
        destruct (Nat.eq_dec j k) as [-> | Hne].
        * exists old. split; [rewrite <- Hge by lia; exact Hold |].
          apply list_lookup_insert_eq. apply lookup_lt_Some in Hold.
          exact Hold.
        * rewrite list_lookup_insert_ne by lia. apply Hlt. lia.
      + intros j Hj. rewrite Hnew.
        rewrite list_lookup_insert_ne by lia. apply Hge. lia.
    - split; [apply lookup_insert_eq |]. split; [exact Hacc |].
      split; [auto |]. split; [intros j Hj; lia | auto]. }
  apply wp_no_raise in Hwp.
  destruct Hwp as (w' & acc' & Hrun & l & _ & Hs & HT & Hlt & _).
  exists w', acc'. split; [exact Hrun |]. split; [exact Hs |].
  split; [exact HT |]. intros j Hj. apply Hlt.
  rewrite range_length. lia.
Qed.

Abbreviation T w := (Forall supplies_samples (trace w)).

Lemma do_metropolis_spec (v : R) (x : loc) (w : world) :
  exists w',
    do_metropolis RNG metropolis_question v x w = (w', Ok tt) /\
    trace w' = trace w ++ [Metropolis x] /\
    is_Some (heap w' !! x).
Proof.
  unfold do_metropolis, emit, load, store, mbind, modify, gets. simpl.
  destruct (metropolis_question v (rng RNG w) (default [] (heap w !! x)))
    as [g a'].
  eexists. split; [reflexivity |]. simpl. split; [reflexivity |].
  rewrite lookup_insert_eq. eauto.
Qed.

Lemma T_snoc (w w' : world) (e : event) :
  trace w' = trace w ++ [e] -> supplies_samples e -> T w -> T w'.
Proof.
  intros Ht He H. rewrite Ht. apply Forall_app. split; [exact H |].
  constructor; [exact He | constructor].
Qed.

(** One pass of the loop over [i_mc]: a Metropolis sweep and, when
    [i_mc] is a multiple of [n_sweeps_btw_cooling], a cooling event,
    counted in [n_cooling]. *)
Lemma mc_body_spec (v : R)
    (n_lattice n_sweeps_btw_cooling n_cooling_sweeps : Z) (x : loc)
    (st : Z * accumulators) (i_mc : Z) (w : world) :
  n_sweeps_btw_cooling <> 0 -> acc_shaped n_cooling_sweeps (snd st) ->
  exists w' st',
    mc_body v n_lattice n_sweeps_btw_cooling n_cooling_sweeps x st i_mc w
    = (w', Ok st') /\
    acc_shaped n_cooling_sweeps (snd st') /\
    (T w -> T w') /\
    fst st <= fst st' /\ (i_mc = 0 -> fst st' = fst st + 1).
Proof.
  intros Hk Hacc. unfold CoolingDensity.mc_body.
  destruct (do_metropolis_spec v x w) as (w1 & Hm & Ht1 & [c Hc]).
  unfold mbind at 1. rewrite Hm.
  destruct (Z.eqb_spec n_sweeps_btw_cooling 0) as [| _]; [contradiction |].
  assert (HT1 : T w -> T w1) by (apply (T_snoc _ _ _ Ht1); exact I).
  destruct (Z.eqb_spec (i_mc mod n_sweeps_btw_cooling) 0) as [Hz | Hnz].
  - destruct (cooling_event_spec x c v n_lattice n_cooling_sweeps (snd st)
                w1 Hc Hacc) as (w2 & acc2 & Hrun & Hs2 & HT2 & _).
    unfold mbind. rewrite Hrun. unfold mret.
    eexists _, _. split; [reflexivity |]. simpl.
    split; [exact Hs2 |]. split; [auto |]. lia.
  - unfold mret. eexists _, _. split; [reflexivity |].
    split; [exact Hacc |]. split; [exact HT1 |]. split; [lia |].
    intros ->. rewrite Z.mod_0_l in Hnz by exact Hk. contradiction.
Qed.

(** The measurement sweeps: with at least one of them, the first cools,
    so at least one cooling event has been counted at the end. *)
Lemma mc_loop_spec (v : R)
    (n_lattice n_sweeps_btw_cooling n_cooling_sweeps n_sweeps : Z)
    (x : loc) (acc : accumulators) (w : world) :
  n_sweeps_btw_cooling <> 0 -> 1 <= n_sweeps ->
  acc_shaped n_cooling_sweeps acc ->
  exists w' st',
    mfor_each (range 0 n_sweeps)
      (mc_body v n_lattice n_sweeps_btw_cooling n_cooling_sweeps x)
      (0, acc) w = (w', Ok st') /\
    acc_shaped n_cooling_sweeps (snd st') /\ (T w -> T w') /\
    1 <= fst st'.
Proof.
  intros Hk Hn Hacc.
  set (Inv := fun (k : nat) (st : Z * accumulators) (w1 : world) =>
                acc_shaped n_cooling_sweeps (snd st) /\ (T w -> T w1) /\
                ((1 <= k)%nat -> 1 <= fst st) /\ 0 <= fst st).
  assert (Hwp : wp (mfor_each (range 0 n_sweeps)
                      (mc_body v n_lattice n_sweeps_btw_cooling
                         n_cooling_sweeps x) (0, acc))
                  (fun st' w' => Inv (length (range 0 n_sweeps)) st' w')
                  (fun _ => False) w).
  { apply (wp_for_each Inv).
    - intros k i st w1 Hki (Hs & HT & H1 & H0).
      pose proof (range_lookup _ _ _ _ Hki) as Hik.
      destruct (mc_body_spec v n_lattice n_sweeps_btw_cooling
                  n_cooling_sweeps x st i w1 Hk Hs)
        as (w2 & st2 & Hrun & Hs2 & HT2 & Hle & Hfirst).
      apply (wp_of_eq _ _ _ _ _ _ Hrun).
      split; [exact Hs2 |]. split; [auto |]. split; [| lia].
      intros _. destruct k as [| k]; [rewrite Hfirst; lia |].
      assert (1 <= fst st) by (apply H1; lia). lia.
    - split; [exact Hacc |]. split; [auto |]. simpl. split; lia. }
  apply wp_no_raise in Hwp.
  destruct Hwp as (w' & st' & Hrun & Hs & HT & H1 & _).
  exists w', st'. split; [exact Hrun |]. split; [exact Hs |].
  split; [exact HT |]. apply H1. rewrite range_length. lia.
Qed.

Lemma equilibration_spec (v : R) (x : loc) (n_equil : Z) (w : world) :
  exists w',
    mfor_each (range 0 n_equil)
      (fun _ _ => do_metropolis RNG metropolis_question v x) tt w
    = (w', Ok tt) /\ (T w -> T w').
Proof.
  generalize (range 0 n_equil). intros xs. revert w.
  induction xs as [| i xs IH]; intros w; simpl.
  - exists w. split; [reflexivity | auto].
  - destruct (do_metropolis_spec v x w) as (w1 & Hm & Ht1 & _).
    unfold mbind. rewrite Hm. destruct (IH w1) as (w2 & Hrun & HT).
    exists w2. split; [exact Hrun |]. intros H. apply HT.
    apply (T_snoc _ _ _ Ht1); [exact I | exact H].
Qed.

Lemma do_initialize_lattice_spec (n_lattice : Z) (i_cold : bool)
    (w : world) :
  exists w' x c,
    do_initialize_lattice RNG initialize_lattice n_lattice i_cold w
    = (w', Ok x) /\
    trace w' = trace w /\ heap w' !! x = Some c.
Proof.
  unfold do_initialize_lattice, alloc.
  destruct (initialize_lattice n_lattice i_cold (rng RNG w)) as [g a].
  simpl. eexists _, _, a. split; [reflexivity |]. simpl.
  split; [reflexivity | apply lookup_insert_eq].
Qed.

(** The equilibration sweeps, written out on the trace. *)
Lemma equilibration_events (v : R) (x : loc) (n_equil : Z) (w : world) :
  exists w',
    mfor_each (range 0 n_equil)
      (fun _ _ => do_metropolis RNG metropolis_question v x) tt w
    = (w', Ok tt) /\
    trace w' = trace w ++ repeat (Metropolis x) (Z.to_nat n_equil).
Proof.
  replace (Z.to_nat n_equil) with (length (range 0 n_equil))
    by (rewrite range_length; f_equal; lia).
  generalize (range 0 n_equil). intros xs. revert w.
  induction xs as [| i xs IH]; intros w; simpl.
  - exists w. split; [reflexivity |]. rewrite app_nil_r. reflexivity.
  - destruct (do_metropolis_spec v x w) as (w1 & Hm & Ht1 & _).
    unfold mbind. rewrite Hm. destruct (IH w1) as (w2 & Hrun & Ht2).
    exists w2. split; [exact Hrun |].
    rewrite Ht2, Ht1, <- app_assoc. reflexivity.
Qed.

(** One value of the potential minimum, run with at least one
    measurement sweep. *)
Lemma minimum_body_spec (n_lattice n_equil n_mc_sweeps : Z) (i_cold : bool)
    (n_sweeps_btw_cooling n_cooling_sweeps : Z)
    (potential_minima : list R) (i_minimum : Z) (w : world) :
  n_sweeps_btw_cooling <> 0 -> n_equil < n_mc_sweeps ->
  0 <= n_cooling_sweeps ->
  0 <= i_minimum < Z.of_nat (length potential_minima) ->
  exists w' pm',
    minimum_body n_lattice n_equil n_mc_sweeps i_cold n_sweeps_btw_cooling
      n_cooling_sweeps potential_minima i_minimum w = (w', Ok pm') /\
    length pm' = length potential_minima /\ (T w -> T w').
Proof.
  intros Hk Hn Hcs Hi. unfold CoolingDensity.minimum_body.
  rewrite setitem_nonneg by exact Hi.
  unfold mbind at 1. unfold lift at 1.
  destruct (do_initialize_lattice_spec n_lattice i_cold w)
    as (w1 & x & c & Hinit & Ht1 & Hx).
  unfold mbind at 1. rewrite Hinit.
  rewrite (zero_accumulators_ok n_cooling_sweeps Hcs).
  unfold mbind at 1. unfold lift at 1.
  set (v := (14 / 10 + 1 / 10 * IZR i_minimum)%R).
  destruct (equilibration_spec v x n_equil w1) as (w2 & Heq & HT2).
  unfold mbind at 1. rewrite Heq.
  set (acc := zero_sums n_cooling_sweeps).
  pose proof (zero_sums_shaped n_cooling_sweeps) as Hacc.
  fold acc in Hacc.
  destruct (mc_loop_spec v n_lattice n_sweeps_btw_cooling n_cooling_sweeps
              (n_mc_sweeps - n_equil) x acc w2 Hk ltac:(lia) Hacc)
    as (w3 & st & Hmc & Hs & HT3 & Hcount).
  unfold mbind at 1. rewrite Hmc.
  unfold mbind, emit, modify, lift, mret, Aggregator.stat_av_var. simpl.
  destruct (Z.eqb_spec (fst st) 0) as [| _]; [lia |].
  eexists _, _. split; [reflexivity |].
  split; [apply length_insert |].
  intros H. simpl.
  assert (H3 : T w3).
  { apply HT3, HT2. rewrite Ht1. exact H. }
  repeat (apply Forall_app; split);
    try (constructor; [simpl; try exact I; try assumption | constructor]).
  exact H3.
Qed.

(** One value of the potential minimum, run without a measurement
    sweep: after the equilibration sweeps the aggregator is handed the
    sample count 0, and refuses it. *)
Lemma minimum_body_no_measurement (n_lattice n_equil : Z) (i_cold : bool)
    (n_sweeps_btw_cooling n_cooling_sweeps : Z)
    (potential_minima : list R) (i_minimum : Z) (w : world) :
  0 <= n_cooling_sweeps ->
  0 <= i_minimum < Z.of_nat (length potential_minima) ->
  exists w' x,
    minimum_body n_lattice n_equil n_equil i_cold n_sweeps_btw_cooling
      n_cooling_sweeps potential_minima i_minimum w
    = (w', ZeroDivisionError) /\
    trace w' = trace w ++ repeat (Metropolis x) (Z.to_nat n_equil)
                       ++ [Stat_av_var 0].
Proof.
  intros Hcs Hi. unfold CoolingDensity.minimum_body.
  rewrite setitem_nonneg by exact Hi.
  unfold mbind at 1. unfold lift at 1.
  destruct (do_initialize_lattice_spec n_lattice i_cold w)
    as (w1 & x & c & Hinit & Ht1 & Hx).
  unfold mbind at 1. rewrite Hinit.
  rewrite (zero_accumulators_ok n_cooling_sweeps Hcs).
  unfold mbind at 1. unfold lift at 1.
  set (v := (14 / 10 + 1 / 10 * IZR i_minimum)%R).
  destruct (equilibration_events v x n_equil w1) as (w2 & Heq & Ht2).
  unfold mbind at 1. rewrite Heq.
  rewrite Z.sub_diag. change (range 0 0) with (@nil Z).
  cbn [mfor_each]. unfold mbind, mret, emit, modify, lift,
    Aggregator.stat_av_var. simpl.
  eexists _, x. split; [reflexivity |]. simpl.
  rewrite Ht2, Ht1, <- app_assoc. reflexivity.
Qed.

(** One value of the potential minimum, asked for a negative number of
    cooling sweeps: the allocation of the sums is refused before any
    sweep. *)
Lemma minimum_body_negative (n_lattice n_equil n_mc_sweeps : Z)
    (i_cold : bool) (n_sweeps_btw_cooling n_cooling_sweeps : Z)
    (potential_minima : list R) (i_minimum : Z) (w : world) :
  n_cooling_sweeps < 0 ->
  0 <= i_minimum < Z.of_nat (length potential_minima) ->
  exists w',
    minimum_body n_lattice n_equil n_mc_sweeps i_cold n_sweeps_btw_cooling
      n_cooling_sweeps potential_minima i_minimum w = (w', ValueError) /\
    trace w' = trace w.
Proof.
  intros Hcs Hi. unfold CoolingDensity.minimum_body.
  rewrite setitem_nonneg by exact Hi.
  unfold mbind at 1. unfold lift at 1.
  destruct (do_initialize_lattice_spec n_lattice i_cold w)
    as (w1 & x & c & Hinit & Ht1 & Hx).
  unfold mbind at 1. rewrite Hinit.
  rewrite (zero_accumulators_negative n_cooling_sweeps Hcs).
  unfold mbind, lift. exists w1. split; [reflexivity | exact Ht1].
Qed.

(** C4, as the code has it.  With [n_mc_sweeps < n_equil] the run asks
    for no Metropolis sweep: it prints the diagnostic and returns 1.
    With [n_mc_sweeps > n_equil], [n_sweeps_btw_cooling] not zero and
    numbers of cooling sweeps and of minima that are not negative, it
    returns 0, and every sample count it hands to the aggregator is at
    least 1, because the first measurement sweep always cools.  With
    [n_mc_sweeps = n_equil] and at least one minimum the check is passed,
    the equilibration sweeps of the first minimum are made, and the
    aggregator is handed the sample count 0: an aggregator that fails
    loudly ends the run there, in [ZeroDivisionError].  A negative number
    of minima or of cooling sweeps passes the check as well and ends in
    the [ValueError] of [np.zeros] or [np.linspace], before any sweep. *)
Theorem C4_validation_and_sample_counts
    (n_lattice n_equil n_mc_sweeps : Z) (i_cold : bool)
    (n_sweeps_btw_cooling n_cooling_sweeps n_minima : Z) (w : world) :
  let run := cooled_monte_carlo_density n_lattice n_equil n_mc_sweeps i_cold
               n_sweeps_btw_cooling n_cooling_sweeps n_minima w in
  (n_mc_sweeps < n_equil ->
   run = ({| CoolingDensity.heap := heap w; rng := rng RNG w;
             CoolingDensity.trace := trace w ++ [Print_too_few] |}, Ok 1)) /\
  (n_equil < n_mc_sweeps -> n_sweeps_btw_cooling <> 0 ->
   0 <= n_cooling_sweeps -> 0 <= n_minima ->
   Forall supplies_samples (trace w) ->
   snd run = Ok 0 /\ Forall supplies_samples (trace (fst run))) /\
  (n_mc_sweeps = n_equil -> 0 <= n_cooling_sweeps -> 1 <= n_minima ->
   snd run = ZeroDivisionError /\
   exists x,
     trace (fst run)
     = trace w ++ repeat (Metropolis x) (Z.to_nat n_equil)
               ++ [Stat_av_var 0]) /\
  (n_equil <= n_mc_sweeps -> n_minima < 0 \/ n_cooling_sweeps < 0 ->
   snd run = ValueError /\ trace (fst run) = trace w).
Proof.
  intros run. subst run.
  assert (Hfirst : 0 <= n_minima -> 1 <= n_minima ->
            range 0 n_minima = 0 :: range 1 n_minima).
  { intros _ Hm. unfold range.
    replace (Z.to_nat (n_minima - 0)) with (S (Z.to_nat (n_minima - 1)))
      by lia.
    cbn [seq map]. f_equal. rewrite <- seq_shift, map_map.
    apply map_ext. intros k. lia. }
  split; [| split; [| split]].
  - intros Hlt. unfold CoolingDensity.cooled_monte_carlo_density.
    destruct (Z.ltb_spec n_mc_sweeps n_equil); [| lia].
    reflexivity.
  - intros Hgt Hk Hcs Hm HT.
    unfold CoolingDensity.cooled_monte_carlo_density.
    destruct (Z.ltb_spec n_mc_sweeps n_equil); [lia |].
    unfold np_zeros, np_linspace.
    destruct (Z.ltb_spec n_minima 0); [lia |].
    destruct (Z.ltb_spec n_cooling_sweeps 0); [lia |].
    set (Inv := fun (k : nat) (pm : list R) (w1 : world) =>
                  length pm = Z.to_nat n_minima /\ T w1).
    assert (Hwp : wp (mfor_each (range 0 n_minima)
                        (minimum_body n_lattice n_equil n_mc_sweeps i_cold
                           n_sweeps_btw_cooling n_cooling_sweeps)
                        (zeros (Z.to_nat n_minima)))
                    (fun pm w' => Inv (length (range 0 n_minima)) pm w')
                    (fun _ => False) w).
    { apply (wp_for_each Inv).
      - intros k i pm w1 Hki [Hl HT1].
        pose proof (range_lookup_lt _ _ _ _ Hki) as Hi.
        destruct (minimum_body_spec n_lattice n_equil n_mc_sweeps i_cold
                    n_sweeps_btw_cooling n_cooling_sweeps pm i w1 Hk Hgt Hcs)
          as (w2 & pm2 & Hrun & Hl2 & HT2); [lia |].
        apply (wp_of_eq _ _ _ _ _ _ Hrun).
        split; [lia | auto].
      - split; [apply repeat_length | exact HT]. }
    apply wp_no_raise in Hwp. destruct Hwp as (w' & pm & Hrun & _ & HT').
    unfold mbind, emit, modify, mret, lift. rewrite Hrun. simpl.
    split; [reflexivity |].
    repeat (apply Forall_app; split);
      try (constructor; [exact I | constructor]).
    exact HT'.
  - intros Heq Hcs Hm. subst n_mc_sweeps.
    destruct (minimum_body_no_measurement n_lattice n_equil i_cold
                n_sweeps_btw_cooling n_cooling_sweeps
                (zeros (Z.to_nat n_minima)) 0 w Hcs)
      as (w' & x & Hrun & Ht).
    { unfold zeros. rewrite repeat_length. lia. }
    assert (Hfull : cooled_monte_carlo_density n_lattice n_equil n_equil
                      i_cold n_sweeps_btw_cooling n_cooling_sweeps n_minima w
                    = (w', ZeroDivisionError)).
    { unfold CoolingDensity.cooled_monte_carlo_density.
      destruct (Z.ltb_spec n_equil n_equil); [lia |].
      unfold np_zeros. destruct (Z.ltb_spec n_minima 0); [lia |].
      rewrite Hfirst by lia.
      unfold mbind at 1. unfold lift at 1.
      cbn [mfor_each]. unfold mbind. rewrite Hrun. reflexivity. }
    rewrite Hfull. simpl. split; [reflexivity |]. exists x. exact Ht.
  - intros Hle Hneg.
    assert (Hfull : exists w',
              cooled_monte_carlo_density n_lattice n_equil n_mc_sweeps
                i_cold n_sweeps_btw_cooling n_cooling_sweeps n_minima w
              = (w', ValueError) /\ trace w' = trace w).
    { unfold CoolingDensity.cooled_monte_carlo_density.
      destruct (Z.ltb_spec n_mc_sweeps n_equil); [lia |].
      unfold np_zeros. destruct (Z.ltb_spec n_minima 0) as [Hm | Hm].
      { exists w. split; reflexivity. }
      destruct Hneg as [Hneg | Hcs]; [lia |].
      destruct (Z.eq_dec n_minima 0) as [-> | Hpos].
      - change (range 0 0) with (@nil Z). cbn [mfor_each].
        unfold np_linspace.
        destruct (Z.ltb_spec n_cooling_sweeps 0); [| lia].
        exists w. split; reflexivity.
      - rewrite Hfirst by lia.
        destruct (minimum_body_negative n_lattice n_equil n_mc_sweeps i_cold
                    n_sweeps_btw_cooling n_cooling_sweeps
                    (zeros (Z.to_nat n_minima)) 0 w Hcs)
          as (w' & Hrun & Ht).
        { unfold zeros. rewrite repeat_length. lia. }
        exists w'. split; [| exact Ht].
        unfold mbind at 1. unfold lift at 1.
        cbn [mfor_each]. unfold mbind. rewrite Hrun. reflexivity. }
    destruct Hfull as (w' & Hfull & Ht). rewrite Hfull. simpl.
    split; [reflexivity | exact Ht].
Qed.

End Facts.

Local Open Scope R_scope.

(** A sampler for examples: a cold start, and sweeps that leave the
    configuration as it is. *)
Abbreviation example_run :=
  (CoolingDensity.cooled_monte_carlo_density unit (1 / 20)
     (fun _ _ g => (g, [0; 0; 0; 0]))
     (fun _ g a => (g, a))
     (fun a _ => map (fun x => x / 2) a)
     (fun _ _ _ => (0%Z, 0%Z, [], []))
     (fun _ _ => 0)).

Abbreviation empty_world :=
  ({| CoolingDensity.heap := ∅; rng := tt; CoolingDensity.trace := [] |}
   : CoolingDensity.world unit).

(** With as many sweeps as equilibration sweeps the validation passes
    ([n_mc_sweeps < n_equil] is false), the two equilibration sweeps are
    made, no measurement sweep follows, and the aggregator is handed a
    sample count of zero. *)
Lemma C4_zero_samples_pass_validation :
  let run := example_run 4%Z 2%Z 2%Z true 1%Z 1%Z 1%Z empty_world in
  (2 <? 2)%Z = false /\
  In (Metropolis 0%nat) (CoolingDensity.trace unit (fst run)) /\
  In (Stat_av_var 0) (CoolingDensity.trace unit (fst run)) /\
  snd run <> Ok 0%Z.
Proof.
  split; [reflexivity |]. split; [| split].
  - vm_compute. tauto.
  - vm_compute. tauto.
  - vm_compute. discriminate.
Qed.

(** C4 on a run of one equilibration sweep and two measurement sweeps,
    on one of two sweeps that are both equilibration sweeps, and on one
    asked for a negative number of cooling sweeps. *)
Lemma C4_validation_witness :
  ((1 < 3)%Z /\ (2 <> 0)%Z /\ (0 <= 1)%Z /\
   let run := example_run 4%Z 1%Z 3%Z true 2%Z 1%Z 1%Z empty_world in
   snd run = Ok 0%Z /\
   Forall supplies_samples (CoolingDensity.trace unit (fst run))) /\
  (let run := example_run 4%Z 2%Z 2%Z true 2%Z 1%Z 1%Z empty_world in
   snd run = ZeroDivisionError) /\
  ((1 <= 3)%Z /\ (-1 < 0)%Z /\
   let run := example_run 4%Z 1%Z 3%Z true 2%Z (-1)%Z 1%Z empty_world in
   snd run = ValueError).
Proof.
  split; [| split].
  - split; [lia |]. split; [lia |]. split; [lia |].
    apply (C4_validation_and_sample_counts unit (1 / 20)
             (fun _ _ g => (g, [0; 0; 0; 0])) (fun _ g a => (g, a))
             (fun a _ => map (fun x => x / 2) a)
             (fun _ _ _ => (0%Z, 0%Z, [], [])) (fun _ _ => 0)
             4%Z 1%Z 3%Z true 2%Z 1%Z 1%Z empty_world);
      [lia | lia | lia | lia | constructor].
  - apply (C4_validation_and_sample_counts unit (1 / 20)
             (fun _ _ g => (g, [0; 0; 0; 0])) (fun _ g a => (g, a))
             (fun a _ => map (fun x => x / 2) a)
             (fun _ _ _ => (0%Z, 0%Z, [], [])) (fun _ _ => 0)
             4%Z 2%Z 2%Z true 2%Z 1%Z 1%Z empty_world);
      [reflexivity | lia | lia].
  - split; [lia |]. split; [lia |].
    apply (C4_validation_and_sample_counts unit (1 / 20)
             (fun _ _ g => (g, [0; 0; 0; 0])) (fun _ g a => (g, a))
             (fun a _ => map (fun x => x / 2) a)
             (fun _ _ _ => (0%Z, 0%Z, [], [])) (fun _ _ => 0)
             4%Z 1%Z 3%Z true 2%Z (-1)%Z 1%Z empty_world);
      [lia | right; lia].
Defined.

(** C10 on a configuration of two sites: the copy is cooled, the
    original is not. *)
Lemma C10_cooling_event_witness :
  let w := {| CoolingDensity.heap := {[ 0%nat := [1; 2] ]}; rng := tt;
              CoolingDensity.trace := [] |} in
  let acc := {| n_total_instantons_sum := [0%Z; 0%Z];
                n2_total_instantons_sum := [0%Z; 0%Z];
                action_cooling := [0; 0]; action2_cooling := [0; 0] |} in
  let w' := fst (CoolingDensity.cooling_event unit (1 / 20)
                   (fun a _ => map (fun x => x / 2) a)
                   (fun _ _ _ => (0%Z, 0%Z, [], [])) (fun _ _ => 0)
                   (14 / 10) 2 2 0%nat acc w) in
  CoolingDensity.heap unit w !! 0%nat = Some [1; 2] /\
  CoolingDensity.heap unit w' !! 0%nat = Some [1; 2].
Proof.
  intros w acc w'.
  assert (Hx : CoolingDensity.heap unit w !! 0%nat = Some [1; 2])
    by reflexivity.
  split; [exact Hx |].
  exact (proj1 (C10_cooling_event_leaves_x_config unit (1 / 20)
                  (fun a _ => map (fun x => x / 2) a)
                  (fun _ _ _ => (0%Z, 0%Z, [], [])) (fun _ _ => 0)
                  (14 / 10) 2%Z 2%Z 0%nat acc w [1; 2] Hx)).
Defined.

End CoolingDensityFacts.

(** ** Cooling and the action *)

Module LatticeFacts.
Import Lattice CoolingDensity PyFacts.
Local Open Scope R_scope.

(** *** Sums over the sites *)

Abbreviation sum_n F n := (fold_right Rplus 0 (map F (seq 0 n))).

Lemma sum_n_S (F : nat -> R) (n : nat) : sum_n F (S n) = sum_n F n + F n.
Proof.
  rewrite seq_S, map_app, fold_right_app. simpl.
  generalize (map F (seq 0 n)). intros l.
  induction l as [| x l IH]; simpl; lra.
Qed.

Lemma sum_n_ext (F G : nat -> R) (n : nat) :
  (forall j, (j < n)%nat -> F j = G j) -> sum_n F n = sum_n G n.
Proof.
  induction n as [| n IH]; intros H; [reflexivity |].
  rewrite !sum_n_S. rewrite IH by (intros j Hj; apply H; lia).
  rewrite (H n) by lia. reflexivity.
Qed.

Lemma sum_n_plus (F G : nat -> R) (n : nat) :
  sum_n (fun j => F j + G j) n = sum_n F n + sum_n G n.
Proof.
  induction n as [| n IH]; [simpl; lra |].
  rewrite !sum_n_S, IH. lra.
Qed.

Lemma sum_n_zero (n : nat) : sum_n (fun _ => 0) n = 0.
Proof.
  induction n as [| n IH]; [reflexivity |]. rewrite sum_n_S, IH. lra.
Qed.

Lemma sum_n_indicator (d n : nat) (r : R) :
  (d < n)%nat -> sum_n (fun j => if Nat.eqb j d then r else 0) n = r.
Proof.
  induction n as [| n IH]; intros Hd; [lia |].
  rewrite sum_n_S. destruct (Nat.eqb_spec n d) as [-> | Hne].
  - rewrite (sum_n_ext _ (fun _ => 0)), sum_n_zero; [lra |].
    intros j Hj. destruct (Nat.eqb_spec j d); [lia | reflexivity].
  - rewrite IH by lia. lra.
Qed.

(** A sum whose terms vanish away from three sites. *)
Lemma sum_n_three (H : nat -> R) (n p i q : nat) :
  (p < n)%nat -> (i < n)%nat -> (q < n)%nat ->
  p <> i -> p <> q -> i <> q ->
  (forall j, (j < n)%nat -> j <> p -> j <> i -> j <> q -> H j = 0) ->
  sum_n H n = H p + H i + H q.
Proof.
  intros Hp Hi Hq Hpi Hpq Hiq H0.
  rewrite (sum_n_ext H
             (fun j => (if Nat.eqb j p then H p else 0)
                       + ((if Nat.eqb j i then H i else 0)
                          + (if Nat.eqb j q then H q else 0)))).
  - rewrite !sum_n_plus, !sum_n_indicator by assumption. lra.
  - intros j Hj.
    destruct (Nat.eqb_spec j p) as [Ep | Np];
      destruct (Nat.eqb_spec j i) as [Ei | Ni];
      destruct (Nat.eqb_spec j q) as [Eq | Nq];
      try congruence; try (subst; lra).
    rewrite H0 by assumption. lra.
Qed.

(** *** Sites of a periodic lattice *)

Lemma mod_window (z N : Z) :
  (0 < N)%Z -> (- N <= z < 2 * N)%Z ->
  (z mod N)%Z
  = if (z <? 0)%Z then (z + N)%Z else if (z <? N)%Z then z else (z - N)%Z.
Proof.
  intros HN Hz.
  destruct (Z.ltb_spec z 0); [| destruct (Z.ltb_spec z N)]; symmetry.
  - apply (Z.mod_unique_pos z N (-1)); lia.
  - apply (Z.mod_unique_pos z N 0); lia.
  - apply (Z.mod_unique_pos z N 1); lia.
Qed.

Lemma site_congr (c : list R) (z z' : Z) :
  (z mod Z.of_nat (length c) = z' mod Z.of_nat (length c))%Z ->
  site c z = site c z'.
Proof. intros H. unfold site. rewrite H. reflexivity. Qed.

Lemma site_insert (c : list R) (i : nat) (y : R) (z : Z) :
  (i < length c)%nat ->
  site (<[i := y]> c) z
  = if Z.eq_dec (z mod Z.of_nat (length c)) (Z.of_nat i) then y
    else site c z.
Proof.
  intros Hi. unfold site. rewrite length_insert.
  pose proof (Z.mod_pos_bound z (Z.of_nat (length c)) ltac:(lia)) as Hm.
  destruct (Z.eq_dec (z mod Z.of_nat (length c)) (Z.of_nat i)) as [e | ne].
  - rewrite e, Nat2Z.id, list_lookup_insert_eq by lia. reflexivity.
  - rewrite list_lookup_insert_ne by lia. reflexivity.
Qed.

Lemma site_in_box (B : R) (c : list R) (z : Z) :
  0 <= B -> in_box B c -> - B <= site c z <= B.
Proof.
  intros HB Hc. unfold site.
  destruct (c !! Z.to_nat (z mod Z.of_nat (length c))) as [x |] eqn:Hx;
    simpl; [| lra].
  exact (Forall_lookup_1 _ _ _ _ Hc Hx).
Qed.

(** *** The change of the action when one site moves *)

Section Change.
Variables (dtau v : R).

Abbreviation action := (Lattice.action dtau v).
Abbreviation local_term := (Lattice.local_term dtau v).
Abbreviation local_gradient := (Lattice.local_gradient dtau v).
Abbreviation cooling_step := (Lattice.cooling_step dtau v).
Abbreviation cooling_sweep := (Lattice.cooling_sweep dtau v).
Abbreviation curvature := (Lattice.curvature dtau v).

(** On a lattice of at least three sites the value at site [i] enters
    three terms of the action: its own potential term and the central
    differences of its two neighbours. *)
Lemma action_insert (c : list R) (i : nat) (y : R) :
  (3 <= length c)%nat -> (i < length c)%nat ->
  let x := site c (Z.of_nat i) in
  let a := site c (Z.of_nat i - 2) in
  let b := site c (Z.of_nat i + 2) in
  action (<[i := y]> c) - action c
  = ((y ^ 2 - v ^ 2) ^ 2 + 1 / 4 * ((y - a) / (2 * dtau)) ^ 2
     + 1 / 4 * ((b - y) / (2 * dtau)) ^ 2)
    - ((x ^ 2 - v ^ 2) ^ 2 + 1 / 4 * ((x - a) / (2 * dtau)) ^ 2
       + 1 / 4 * ((b - x) / (2 * dtau)) ^ 2).
Proof.
  intros Hn Hi x a b. unfold Lattice.action. rewrite length_insert.
  set (n := length c) in *. set (N := Z.of_nat n).
  set (c' := <[i := y]> c).
  set (p := if (i =? 0)%nat then (n - 1)%nat else (i - 1)%nat).
  set (q := if (S i =? n)%nat then 0%nat else S i).
  assert (Hp : (p < n)%nat /\ p <> i /\
               (Z.of_nat p = Z.of_nat i - 1 \/
                Z.of_nat p = Z.of_nat i - 1 + N)%Z).
  { unfold p, N. destruct (Nat.eqb_spec i 0); lia. }
  assert (Hq : (q < n)%nat /\ q <> i /\
               (Z.of_nat q = Z.of_nat i + 1 \/
                Z.of_nat q = Z.of_nat i + 1 - N)%Z).
  { unfold q, N. destruct (Nat.eqb_spec (S i) n); lia. }
  assert (Hpq : p <> q).
  { unfold p, q. destruct (Nat.eqb_spec i 0); destruct (Nat.eqb_spec (S i) n);
      lia. }
  destruct Hp as (Hp & Hpi & HP). destruct Hq as (Hq & Hqi & HQ).
  set (H := fun j => local_term c' (Z.of_nat j) - local_term c (Z.of_nat j)).
  assert (Hsum : sum_n (fun j => local_term c' (Z.of_nat j)) n
                 = sum_n (fun j => local_term c (Z.of_nat j)) n + sum_n H n).
  { rewrite <- sum_n_plus. apply sum_n_ext. intros j _. unfold H. ring. }
  rewrite Hsum.
  rewrite (sum_n_three H n p i q Hp Hi Hq Hpi Hpq (not_eq_sym Hqi)).
  - (* the three terms that change *)
    assert (Hs : forall z,
               site c' z = if Z.eq_dec (z mod N) (Z.of_nat i) then y
                           else site c z).
    { intros z. apply site_insert. exact Hi. }
    assert (HN : (3 <= N)%Z) by (unfold N; lia).
    assert (Hw : forall z, (- N <= z < 2 * N)%Z ->
               (z mod N)%Z
               = if (z <? 0)%Z then (z + N)%Z
                 else if (z <? N)%Z then z else (z - N)%Z).
    { intros z Hz. apply mod_window; lia. }
    assert (Hsame : forall z z', (- N <= z < 2 * N)%Z ->
               (- N <= z' < 2 * N)%Z ->
               (z = z' \/ z = z' + N \/ z = z' - N)%Z ->
               site c z = site c z').
    { intros z z' Hz Hz' Hzz. apply site_congr. fold n. fold N.
      rewrite (Hw z Hz), (Hw z' Hz').
      destruct (Z.ltb_spec z 0); destruct (Z.ltb_spec z N);
        destruct (Z.ltb_spec z' 0); destruct (Z.ltb_spec z' N); lia. }
    assert (Hchanged : forall z, (- N <= z < 2 * N)%Z ->
               (z = Z.of_nat i \/ z = Z.of_nat i + N \/ z = Z.of_nat i - N)%Z ->
               site c' z = y).
    { intros z Hz Hzz. rewrite Hs, (Hw z Hz).
      destruct (Z.ltb_spec z 0); destruct (Z.ltb_spec z N);
        match goal with
        | |- context [Z.eq_dec ?u ?w] => destruct (Z.eq_dec u w)
        end; try reflexivity; lia. }
    assert (Hkept : forall z, (- N <= z < 2 * N)%Z ->
               (z <> Z.of_nat i /\ z <> Z.of_nat i + N /\
                z <> Z.of_nat i - N)%Z ->
               site c' z = site c z).
    { intros z Hz Hzz. rewrite Hs, (Hw z Hz).
      destruct (Z.ltb_spec z 0); destruct (Z.ltb_spec z N);
        match goal with
        | |- context [Z.eq_dec ?u ?w] => destruct (Z.eq_dec u w)
        end; try reflexivity; lia. }
    unfold H, Lattice.local_term.
    rewrite (Hchanged (Z.of_nat p + 1)%Z) by lia.
    rewrite (Hkept (Z.of_nat p - 1)%Z) by lia.
    rewrite (Hkept (Z.of_nat p)) by lia.
    rewrite (Hkept (Z.of_nat i + 1)%Z) by lia.
    rewrite (Hkept (Z.of_nat i - 1)%Z) by lia.
    rewrite (Hchanged (Z.of_nat i)) by lia.
    rewrite (Hkept (Z.of_nat q + 1)%Z) by lia.
    rewrite (Hchanged (Z.of_nat q - 1)%Z) by lia.
    rewrite (Hkept (Z.of_nat q)) by lia.
    rewrite (Hsame (Z.of_nat p + 1)%Z (Z.of_nat i)) by lia.
    rewrite (Hsame (Z.of_nat p - 1)%Z (Z.of_nat i - 2)%Z) by lia.
    rewrite (Hsame (Z.of_nat q - 1)%Z (Z.of_nat i)) by lia.
    rewrite (Hsame (Z.of_nat q + 1)%Z (Z.of_nat i + 2)%Z) by lia.
    fold x a b. ring.
  - (* the terms that do not *)
    intros j Hj Hjp Hji Hjq. unfold H, Lattice.local_term.
    assert (HN : (3 <= N)%Z) by (unfold N; lia).
    assert (Hkept : forall z, (- N <= z < 2 * N)%Z ->
               (z <> Z.of_nat i /\ z <> Z.of_nat i + N /\
                z <> Z.of_nat i - N)%Z ->
               site c' z = site c z).
    { intros z Hz Hzz. unfold c'. rewrite site_insert by exact Hi.
      fold n. fold N. rewrite (mod_window z N) by lia.
      destruct (Z.ltb_spec z 0); destruct (Z.ltb_spec z N);
        match goal with
        | |- context [Z.eq_dec ?u ?w] => destruct (Z.eq_dec u w)
        end; try reflexivity; lia. }
    rewrite !Hkept by lia. ring.
Qed.

(** A gradient step in numbers: [x] is the value at the site, [a] and [b]
    are the values two sites away and [k2] multiplies the differences.
    A step that is small for the box [-B, B] stays inside it. *)
Lemma step_upper (x a b B eta k2 : R) :
  - B <= x <= B -> - B <= a <= B -> - B <= b <= B -> - B <= v <= B ->
  0 <= eta -> 0 <= k2 -> eta * (12 * B ^ 2 + 2 * k2) <= 1 ->
  x - eta * (4 * x * (x ^ 2 - v ^ 2) + (2 * x - a - b) * k2) <= B.
Proof.
  intros Hx Ha Hb Hv He Hk Hs.
  assert (HB : 0 <= B) by lra.
  set (GB := 4 * B * (B ^ 2 - v ^ 2) + (2 * B - a - b) * k2).
  set (Q := 4 * (B ^ 2 + B * x + x ^ 2) - 4 * v ^ 2 + 2 * k2).
  assert (Hv2 : v ^ 2 <= B ^ 2) by nra.
  assert (HGB : 0 <= GB).
  { unfold GB.
    assert (0 <= 4 * B * (B ^ 2 - v ^ 2)) by nra.
    assert (0 <= (2 * B - a - b) * k2) by (apply Rmult_le_pos; lra).
    lra. }
  assert (HQ : Q <= 12 * B ^ 2 + 2 * k2).
  { unfold Q. assert (B * x <= B ^ 2) by nra.
    assert (x ^ 2 <= B ^ 2) by nra. assert (0 <= v ^ 2) by nra. lra. }
  assert (HeQ : eta * Q <= 1).
  { apply Rle_trans with (eta * (12 * B ^ 2 + 2 * k2)); [| exact Hs].
    apply Rmult_le_compat_l; assumption. }
  assert (Hid : B - (x - eta * (4 * x * (x ^ 2 - v ^ 2)
                                + (2 * x - a - b) * k2))
                = (B - x) * (1 - eta * Q) + eta * GB)
    by (unfold Q, GB; ring).
  assert (0 <= (B - x) * (1 - eta * Q)) by (apply Rmult_le_pos; lra).
  assert (0 <= eta * GB) by (apply Rmult_le_pos; assumption).
  lra.
Qed.

Lemma step_lower (x a b B eta k2 : R) :
  - B <= x <= B -> - B <= a <= B -> - B <= b <= B -> - B <= v <= B ->
  0 <= eta -> 0 <= k2 -> eta * (12 * B ^ 2 + 2 * k2) <= 1 ->
  - B <= x - eta * (4 * x * (x ^ 2 - v ^ 2) + (2 * x - a - b) * k2).
Proof.
  intros Hx Ha Hb Hv He Hk Hs.
  pose proof (step_upper (- x) (- a) (- b) B eta k2 ltac:(lra) ltac:(lra)
                ltac:(lra) Hv He Hk Hs) as H.
  replace (- x - eta * (4 * - x * ((- x) ^ 2 - v ^ 2)
                        + (2 * - x - - a - - b) * k2))
    with (- (x - eta * (4 * x * (x ^ 2 - v ^ 2) + (2 * x - a - b) * k2)))
    in H by ring.
  lra.
Qed.

(** Inside the box such a step does not raise the local action. *)
Lemma step_gain (x a b B eta k2 : R) :
  - B <= x <= B -> - B <= a <= B -> - B <= b <= B -> - B <= v <= B ->
  0 <= eta -> 0 <= k2 -> eta * (12 * B ^ 2 + 2 * k2) <= 1 ->
  let g := 4 * x * (x ^ 2 - v ^ 2) + (2 * x - a - b) * k2 in
  let y := x - eta * g in
  - eta * g ^ 2 * (1 - eta * (y ^ 2 + 2 * x * y + 3 * x ^ 2 + k2 - 2 * v ^ 2))
  <= 0.
Proof.
  intros Hx Ha Hb Hv He Hk Hs g y.
  pose proof (step_upper x a b B eta k2 Hx Ha Hb Hv He Hk Hs) as Hu.
  pose proof (step_lower x a b B eta k2 Hx Ha Hb Hv He Hk Hs) as Hl.
  fold g in Hu, Hl. fold y in Hu, Hl.
  set (kappa := y ^ 2 + 2 * x * y + 3 * x ^ 2 + k2 - 2 * v ^ 2).
  assert (HB : 0 <= B) by lra.
  assert (Hk6 : kappa <= 6 * B ^ 2 + k2).
  { unfold kappa. assert (y ^ 2 <= B ^ 2) by nra.
    assert (x * y <= B ^ 2) by nra. assert (x ^ 2 <= B ^ 2) by nra.
    assert (0 <= v ^ 2) by nra. lra. }
  assert (Hek : eta * kappa <= 1 / 2).
  { apply Rle_trans with (eta * (6 * B ^ 2 + k2)).
    - apply Rmult_le_compat_l; assumption.
    - lra. }
  assert (0 <= eta * g ^ 2) by (apply Rmult_le_pos; [exact He | nra]).
  assert (0 <= eta * g ^ 2 * (1 - eta * kappa))
    by (apply Rmult_le_pos; lra).
  lra.
Qed.

(** The change of the action under a gradient step at one site of a
    lattice of at least three sites. *)
Lemma cooling_step_change (step_size : R) (c : list R) (i : nat) :
  dtau <> 0 -> (3 <= length c)%nat -> (i < length c)%nat ->
  let g := local_gradient c (Z.of_nat i) in
  let y := site c (Z.of_nat i) - step_size * g in
  action (cooling_step step_size c i) - action c
  = - step_size * g ^ 2 * (1 - step_size * curvature c (Z.of_nat i) y).
Proof.
  intros Hd Hn Hi g y. unfold Lattice.cooling_step. fold g. fold y.
  rewrite (action_insert c i y Hn Hi). cbv zeta.
  unfold y, g, Lattice.curvature, Lattice.local_gradient. field. exact Hd.
Qed.

Section Box.
Variables (B step_size : R).
Hypothesis Hdtau : dtau <> 0.
Hypothesis Hv : - B <= v <= B.
Hypothesis Hstep : 0 <= step_size.
Hypothesis Hsmall : step_size * (12 * B ^ 2 + 1 / (4 * dtau ^ 2)) <= 1.

Lemma k2_facts :
  0 <= / (8 * dtau ^ 2) /\
  step_size * (12 * B ^ 2 + 2 * / (8 * dtau ^ 2)) <= 1.
Proof.
  assert (Hd2 : 0 < dtau ^ 2).
  { replace (dtau ^ 2) with (Rsqr dtau) by (unfold Rsqr; ring).
    apply Rlt_0_sqr. exact Hdtau. }
  split.
  - left. apply Rinv_0_lt_compat. lra.
  - replace (2 * / (8 * dtau ^ 2)) with (1 / (4 * dtau ^ 2))
      by (field; exact Hdtau).
    exact Hsmall.
Qed.

Lemma small_without_differences : step_size * (12 * B ^ 2 + 2 * 0) <= 1.
Proof.
  destruct k2_facts as [Hk Hs].
  assert (0 <= step_size * / (8 * dtau ^ 2))
    by (apply Rmult_le_pos; assumption).
  lra.
Qed.

(** The value a gradient step puts at a site of a configuration in the
    box lies in the box. *)
Lemma new_value_in_box (c : list R) (i : Z) :
  in_box B c ->
  - B <= site c i - step_size * local_gradient c i <= B.
Proof.
  intros Hc. destruct k2_facts as [Hk Hs].
  assert (HB : 0 <= B) by lra.
  pose proof (site_in_box B c i HB Hc) as Hx.
  pose proof (site_in_box B c (i - 2) HB Hc) as Ha.
  pose proof (site_in_box B c (i + 2) HB Hc) as Hb.
  unfold Lattice.local_gradient. unfold Rdiv at 1.
  split.
  - apply (step_lower _ _ _ B step_size _ Hx Ha Hb Hv Hstep Hk Hs).
  - apply (step_upper _ _ _ B step_size _ Hx Ha Hb Hv Hstep Hk Hs).
Qed.

Lemma cooling_step_in_box (c : list R) (i : nat) :
  in_box B c ->
  in_box B (cooling_step step_size c i) /\
  length (cooling_step step_size c i) = length c.
Proof.
  intros Hc. unfold Lattice.cooling_step. split.
  - apply Forall_insert; [exact Hc |]. apply new_value_in_box. exact Hc.
  - apply length_insert.
Qed.

(** On a lattice of one or two sites the central differences vanish and
    the action is the sum of the potential terms. *)
Lemma cooling_step_short (c : list R) (i : nat) :
  in_box B c -> (length c <= 2)%nat -> (i < length c)%nat ->
  action (cooling_step step_size c i) <= action c.
Proof.
  intros Hc Hn Hi.
  pose proof small_without_differences as Hs0.
  destruct c as [| x0 [| x1 [| x2 c]]]; simpl in Hn, Hi; try lia.
  - destruct i as [| i]; [| lia].
    apply Forall_cons_1 in Hc. destruct Hc as [H0 _].
    pose proof (step_gain x0 x0 x0 B step_size 0 H0 H0 H0 Hv Hstep
                  (Rle_refl 0) Hs0) as Hg.
    cbv zeta in Hg.
    unfold Lattice.cooling_step, Lattice.local_gradient, Lattice.action,
      Lattice.local_term, site. simpl.
    unfold Rdiv. nra.
  - apply Forall_cons_1 in Hc. destruct Hc as [H0 Hc].
    apply Forall_cons_1 in Hc. destruct Hc as [H1 _].
    destruct i as [| [| i]]; [| | lia].
    + pose proof (step_gain x0 x0 x0 B step_size 0 H0 H0 H0 Hv Hstep
                    (Rle_refl 0) Hs0) as Hg.
      cbv zeta in Hg.
      unfold Lattice.cooling_step, Lattice.local_gradient, Lattice.action,
        Lattice.local_term, site. simpl.
      unfold Rdiv. nra.
    + pose proof (step_gain x1 x1 x1 B step_size 0 H1 H1 H1 Hv Hstep
                    (Rle_refl 0) Hs0) as Hg.
      cbv zeta in Hg.
      unfold Lattice.cooling_step, Lattice.local_gradient, Lattice.action,
        Lattice.local_term, site. simpl.
      unfold Rdiv. nra.
Qed.

(** A small step at one site does not raise the action. *)
Lemma cooling_step_le (c : list R) (i : nat) :
  in_box B c -> (i < length c)%nat ->
  action (cooling_step step_size c i) <= action c.
Proof.
  intros Hc Hi.
  destruct (Nat.le_gt_cases 3 (length c)) as [Hn | Hn];
    [| apply cooling_step_short; [exact Hc | lia | exact Hi]].
  pose proof (cooling_step_change step_size c i Hdtau Hn Hi) as Hch.
  cbv zeta in Hch.
  destruct k2_facts as [Hk Hs].
  assert (HB : 0 <= B) by lra.
  pose proof (site_in_box B c (Z.of_nat i) HB Hc) as Hx.
  pose proof (site_in_box B c (Z.of_nat i - 2) HB Hc) as Ha.
  pose proof (site_in_box B c (Z.of_nat i + 2) HB Hc) as Hb.
  pose proof (step_gain _ _ _ B step_size _ Hx Ha Hb Hv Hstep Hk Hs) as Hg.
  cbv zeta in Hg.
  unfold Lattice.curvature, Lattice.local_gradient in Hch.
  unfold Rdiv in Hch. rewrite Rmult_1_l in Hch.
  lra.
Qed.

Lemma sweep_sites_ok (sites : list nat) :
  forall c,
    in_box B c -> Forall (fun i => (i < length c)%nat) sites ->
    let c' := fold_left (cooling_step step_size) sites c in
    in_box B c' /\ length c' = length c /\ action c' <= action c.
Proof.
  induction sites as [| i sites IH]; intros c Hc Hs; cbv zeta; simpl.
  - repeat split; [exact Hc | lra].
  - apply Forall_cons_1 in Hs. destruct Hs as [Hi Hs].
    destruct (cooling_step_in_box c i Hc) as [Hc1 Hl1].
    pose proof (cooling_step_le c i Hc Hi) as Ha1.
    destruct (IH (cooling_step step_size c i) Hc1) as (Hc2 & Hl2 & Ha2).
    { rewrite Hl1. exact Hs. }
    split; [exact Hc2 |]. split; [lia | lra].
Qed.

(** A sweep of small steps keeps the configuration in the box and does
    not raise the action. *)
Lemma cooling_sweep_ok (c : list R) :
  in_box B c ->
  in_box B (cooling_sweep step_size c) /\
  length (cooling_sweep step_size c) = length c /\
  action (cooling_sweep step_size c) <= action c.
Proof.
  intros Hc. apply (sweep_sites_ok (seq 0 (length c)) c Hc).
  apply Forall_forall. intros i Hi. apply list_elem_of_In in Hi.
  apply in_seq in Hi. lia.
Qed.

Lemma cooling_sweeps_in_box (c : list R) (k : nat) :
  in_box B c -> in_box B (Nat.iter k (cooling_sweep step_size) c).
Proof.
  intros Hc. induction k as [| k IH]; simpl; [exact Hc |].
  apply cooling_sweep_ok. exact IH.
Qed.

(** Actions along successive sweeps. *)
Lemma actions_along_sweeps (c : list R) (i j : nat) :
  in_box B c -> (i <= j)%nat ->
  action (Nat.iter j (cooling_sweep step_size) c)
  <= action (Nat.iter i (cooling_sweep step_size) c).
Proof.
  intros Hc Hij. induction Hij as [| j Hij IH]; [lra |].
  simpl.
  pose proof (cooling_sweep_ok _ (cooling_sweeps_in_box c j Hc))
    as (_ & _ & Hle).
  lra.
Qed.

End Box.
End Change.

(** No step size suits every configuration: far enough from the wells
    the step overshoots, already on a lattice of one site. *)
Lemma fixed_step_overshoots (dtau v eta : R) :
  0 < eta ->
  exists c : list R,
    Lattice.action dtau v (Lattice.cooling_sweep dtau v eta c)
    > Lattice.action dtau v c + 1.
Proof.
  intros He.
  assert (Hi : 0 < / eta) by (apply Rinv_0_lt_compat; exact He).
  assert (Hie : eta * / eta = 1) by (apply Rinv_r; lra).
  set (w := 1 + / eta).
  assert (Hw0 : 0 <= v ^ 2 + w) by (unfold w; nra).
  set (X := sqrt (v ^ 2 + w)).
  assert (HX : X * X = v * v + w).
  { unfold X. rewrite sqrt_sqrt by exact Hw0. ring. }
  exists [X].
  unfold Lattice.cooling_sweep, Lattice.cooling_step, Lattice.local_gradient,
    Lattice.action, Lattice.local_term, site. simpl.
  set (y := X - eta * (4 * X * (X * (X * 1) - v * (v * 1))
                       + (2 * X - X - X) / (8 * (dtau * (dtau * 1))))).
  assert (Hx2 : X * (X * 1) - v * (v * 1) = w) by lra.
  assert (Hy : y = - X * (3 + 4 * eta)).
  { unfold y. rewrite Hx2. unfold Rdiv, w.
    replace (X - eta * (4 * X * (1 + / eta)
                        + (2 * X - X - X) * / (8 * (dtau * (dtau * 1)))))
      with (X - 4 * X * eta - 4 * X * (eta * / eta)) by ring.
    rewrite Hie. ring. }
  assert (Hw1 : 1 <= w) by (unfold w; lra).
  assert (Hy2 : y * (y * 1) - v * (v * 1)
                = (3 + 4 * eta) ^ 2 * (v * v + w) - v * v).
  { rewrite Hy, <- HX. ring. }
  unfold Rdiv.
  replace ((y - y) * / (2 * dtau)) with 0 by ring.
  replace ((X - X) * / (2 * dtau)) with 0 by ring.
  rewrite Hy2, Hx2.
  assert (H9 : 9 * w <= (3 + 4 * eta) ^ 2 * (v * v + w) - v * v).
  { assert (0 <= v * v) by nra. nra. }
  nra.
Qed.


Lemma lookup_zeros (n j : nat) (x : R) : zeros n !! j = Some x -> x = 0.
Proof.
  unfold zeros. intros H. apply list_elem_of_lookup_2 in H.
  apply list_elem_of_In in H. apply repeat_spec in H. exact H.
Qed.



End LatticeFacts.

(** ** More on the removal loop of the diagonalisation *)

Module DiagLoop.
Import Diag PyFacts.
Local Open Scope R_scope.

Lemma range_snoc (i : Z) : (0 <= i)%Z -> range 0 (i + 1) = range 0 i ++ [i].
Proof.
  intros Hi. unfold range.
  replace (Z.to_nat (i + 1 - 0)) with (S (Z.to_nat (i - 0))) by lia.
  rewrite seq_S, map_app. simpl. do 2 f_equal. lia.
Qed.

Lemma step_negative (e : list R) (n k : Z) (idx : list Z) (x : R) :
  (0 <= k < n)%Z -> e !! Z.to_nat k = Some x -> x < 0 ->
  removal_step e n (k, idx) = Next ((k + 1)%Z, idx ++ [k]).
Proof.
  intros Hk Hx Hneg. unfold removal_step. simpl fst.
  destruct (Z.ltb_spec k n); [| lia].
  unfold removal_body. rewrite getitem_nonneg by lia. rewrite Hx. simpl.
  destruct (Rlt_dec x 0); [reflexivity | contradiction].
Qed.

Lemma step_above (e : list R) (n k : Z) (idx : list Z) (x : R) :
  (0 <= k < n)%Z -> e !! Z.to_nat k = Some x -> threshold < x ->
  removal_step e n (k, idx) = Exited (k, idx).
Proof.
  intros Hk Hx Habove. pose proof DiagFacts.threshold_bounds as Ht.
  unfold removal_step. simpl fst.
  destruct (Z.ltb_spec k n); [| lia].
  unfold removal_body. rewrite getitem_nonneg by lia. rewrite Hx. simpl.
  destruct (Rlt_dec x 0); [lra |].
  destruct (Rlt_dec threshold x); [reflexivity | lra].
Qed.

Lemma step_band (e : list R) (n k : Z) (idx : list Z) (x : R) :
  (0 <= k < n)%Z -> e !! Z.to_nat k = Some x -> 0 <= x <= threshold ->
  removal_step e n (k, idx) = Next (k, idx).
Proof.
  intros Hk Hx Hband. unfold removal_step. simpl fst.
  destruct (Z.ltb_spec k n); [| lia].
  unfold removal_body. rewrite getitem_nonneg by lia. rewrite Hx. simpl.
  destruct (Rlt_dec x 0); [lra |].
  destruct (Rlt_dec threshold x); [lra | reflexivity].
Qed.

Lemma step_end (e : list R) (n : Z) (st : loop_state) :
  (n <= fst st)%Z -> removal_step e n st = Exited st.
Proof.
  intros Hk. unfold removal_step.
  destruct (Z.ltb_spec (fst st) n); [lia | reflexivity].
Qed.

(** The three ways a pass can go, for an array that is long enough. *)
Lemma step_cases (e : list R) (n : Z) (st : loop_state) :
  (n <= Z.of_nat (length e))%Z -> loop_invariant e n st ->
  (fst st = n /\ removal_step e n st = Exited st) \/
  (exists x, (fst st < n)%Z /\ e !! Z.to_nat (fst st) = Some x /\
     ((x < 0 /\ removal_step e n st
                = Next ((fst st + 1)%Z, snd st ++ [fst st])) \/
      (threshold < x /\ removal_step e n st = Exited st) \/
      (0 <= x <= threshold /\ removal_step e n st = Next st))).
Proof.
  intros Hlen (Hk & _ & _). destruct st as [k idx]. simpl in *.
  destruct (Z.eq_dec k n) as [-> | Hne].
  - left. split; [reflexivity |]. apply step_end. simpl. lia.
  - right. destruct (lookup_lt_is_Some_2 e (Z.to_nat k)) as [x Hx]; [lia |].
    exists x. split; [lia |]. split; [exact Hx |].
    destruct (Rlt_dec x 0) as [Hneg | Hnn].
    + left. split; [exact Hneg |]. apply (step_negative e n k idx x);
        [lia | exact Hx | exact Hneg].
    + right. destruct (Rlt_dec threshold x) as [Hab | Hnab].
      * left. split; [exact Hab |]. apply (step_above e n k idx x);
          [lia | exact Hx | exact Hab].
      * right. split; [lra |]. apply (step_band e n k idx x);
          [lia | exact Hx | lra].
Qed.

Lemma invariant_initial (e : list R) (n : Z) :
  (0 <= n)%Z -> loop_invariant e n initial.
Proof.
  intros Hn. unfold loop_invariant, initial. simpl.
  split; [lia |]. split; [reflexivity |]. intros j x Hj. lia.
Qed.

Lemma invariant_advance (e : list R) (n : Z) (st : loop_state) (x : R) :
  loop_invariant e n st -> (fst st < n)%Z ->
  e !! Z.to_nat (fst st) = Some x -> x < 0 ->
  loop_invariant e n ((fst st + 1)%Z, snd st ++ [fst st]).
Proof.
  intros (Hk & Hidx & Hneg) Hlt Hx Hx0. unfold loop_invariant. simpl.
  split; [lia |]. split.
  - rewrite Hidx. symmetry. apply range_snoc. lia.
  - intros j y Hj Hy.
    destruct (Z.eq_dec (Z.of_nat j) (fst st)) as [Heq | Hne].
    + rewrite <- Heq, Nat2Z.id in Hx. rewrite Hx in Hy. inversion Hy.
      subst y. exact Hx0.
    + apply (Hneg j y); [lia | exact Hy].
Qed.

(** What an exit tells, and that no pass raises. *)
Lemma loop_from_invariant (e : list R) (n : Z) :
  (n <= Z.of_nat (length e))%Z ->
  forall fuel st, loop_invariant e n st ->
    match removal_loop fuel e n st with
    | None => True
    | Some Raised => False
    | Some (Next _) => False
    | Some (Exited st') =>
        loop_invariant e n st' /\
        (fst st' = n \/
         exists x, (fst st' < n)%Z /\ e !! Z.to_nat (fst st') = Some x /\
                   threshold < x)
    end.
Proof.
  intros Hlen. induction fuel as [| fuel IH]; intros st Hinv; simpl.
  - exact I.
  - destruct (step_cases e n st Hlen Hinv)
      as [[Hend ->] | (x & Hlt & Hx & [[Hneg ->] | [[Hab ->] | [Hband ->]]])].
    + split; [exact Hinv | left; exact Hend].
    + apply IH. apply (invariant_advance e n st x); assumption.
    + split; [exact Hinv |]. right. exists x. auto.
    + apply IH. exact Hinv.
Qed.

(** X1: The loop never reads outside its array, and when it exits,
    [indices_removed] is [0, ..., i_removal - 1], the eigenvalues at these
    positions are all negative, and either every position was visited or
    the eigenvalue at [i_removal] is above 1e-5. *)
Theorem removal_loop_exit_state
    (energy_eigenvalues : list R) (n_hamiltonian : Z) (fuel : nat) :
  (0 <= n_hamiltonian <= Z.of_nat (length energy_eigenvalues))%Z ->
  removal_loop fuel energy_eigenvalues n_hamiltonian initial <> Some Raised /\
  forall i_removal indices_removed,
    removal_loop fuel energy_eigenvalues n_hamiltonian initial
    = Some (Exited (i_removal, indices_removed)) ->
    (0 <= i_removal <= n_hamiltonian)%Z /\
    indices_removed = range 0 i_removal /\
    (forall (j : nat) (x : R),
        (Z.of_nat j < i_removal)%Z -> energy_eigenvalues !! j = Some x ->
        x < 0) /\
    (i_removal = n_hamiltonian \/
     exists x, energy_eigenvalues !! Z.to_nat i_removal = Some x /\
               1 / 100000 < x).
Proof.
  intros [Hn Hlen].
  pose proof (loop_from_invariant energy_eigenvalues n_hamiltonian Hlen fuel
                initial (invariant_initial _ _ Hn)) as H.
  split.
  - intros Heq. rewrite Heq in H. exact H.
  - intros i idx Heq. rewrite Heq in H.
    destruct H as [(Hk & Hidx & Hneg) Hexit]. simpl in *.
    split; [exact Hk |]. split; [exact Hidx |]. split; [exact Hneg |].
    destruct Hexit as [-> | (x & _ & Hx & Hab)]; [left; reflexivity |].
    right. exists x. split; [exact Hx |].
    pose proof DiagFacts.threshold_bounds. lra.
Qed.

Lemma removal_loop_exit_state_witness :
  (0 <= 3 <= Z.of_nat (length [-2; -1; 3]))%Z /\
  removal_loop 5 [-2; -1; 3] 3 initial <> Some Raised.
Proof.
  assert (H : (0 <= 3 <= Z.of_nat (length [-2; -1; 3]))%Z) by (simpl; lia).
  split; [exact H |].
  exact (proj1 (removal_loop_exit_state [-2; -1; 3] 3 5 H)).
Defined.

Lemma fuel_more (e : list R) (n : Z) (r : step_result) :
  forall fuel extra st,
    removal_loop fuel e n st = Some r ->
    removal_loop (fuel + extra) e n st = Some r.
Proof.
  induction fuel as [| fuel IH]; intros extra st H; simpl in *.
  - discriminate.
  - destruct (removal_step e n st); auto.
Qed.

Lemma terminates_from (e : list R) (n : Z) :
  (n <= Z.of_nat (length e))%Z ->
  (forall (j : nat) (x : R),
      (Z.of_nat j < n)%Z -> e !! j = Some x -> x < 0 \/ threshold < x) ->
  forall m st, loop_invariant e n st -> (Z.to_nat (n - fst st) <= m)%nat ->
    exists st', removal_loop (S m) e n st = Some (Exited st').
Proof.
  intros Hlen Hclean. induction m as [| m IH]; intros st Hinv Hm;
    destruct (step_cases e n st Hlen Hinv)
      as [[Hend Hs] | (x & Hlt & Hx & [[Hneg Hs] | [[Hab Hs] | [Hband Hs]]])];
    cbn [removal_loop]; rewrite Hs.
  - eauto.
  - exfalso. lia.
  - eauto.
  - exfalso. destruct Hinv as [[H0 _] _].
    destruct (Hclean (Z.to_nat (fst st)) x) as [H | H];
      [lia | exact Hx | lra | lra].
  - eauto.
  - apply IH.
    + apply (invariant_advance e n st x); assumption.
    + simpl. lia.
  - eauto.
  - exfalso. destruct Hinv as [[H0 _] _].
    destruct (Hclean (Z.to_nat (fst st)) x) as [H | H];
      [lia | exact Hx | lra | lra].
Qed.

(** X2: When none of the first [n_hamiltonian] eigenvalues lies in
    [0, 1e-5], with [1e-5] the double [threshold] the code compares with,
    the loop is over after at most [n_hamiltonian + 1] tests of its
    condition. *)
Theorem removal_loop_terminates
    (energy_eigenvalues : list R) (n_hamiltonian : Z) (fuel : nat) :
  (0 <= n_hamiltonian <= Z.of_nat (length energy_eigenvalues))%Z ->
  (forall (j : nat) (x : R),
      (Z.of_nat j < n_hamiltonian)%Z -> energy_eigenvalues !! j = Some x ->
      x < 0 \/ threshold < x) ->
  (Z.to_nat n_hamiltonian < fuel)%nat ->
  exists st,
    removal_loop fuel energy_eigenvalues n_hamiltonian initial
    = Some (Exited st).
Proof.
  intros [Hn Hlen] Hclean Hfuel.
  destruct (terminates_from energy_eigenvalues n_hamiltonian Hlen Hclean
              (Z.to_nat n_hamiltonian) initial (invariant_initial _ _ Hn))
    as [st Hst].
  { unfold initial. simpl. lia. }
  exists st.
  replace fuel with (S (Z.to_nat n_hamiltonian)
                     + (fuel - S (Z.to_nat n_hamiltonian)))%nat by lia.
  apply fuel_more. exact Hst.
Qed.

Lemma removal_loop_terminates_witness :
  (0 <= 3 <= Z.of_nat (length [-2; -1; 3]))%Z /\
  (forall (j : nat) (x : R),
      (Z.of_nat j < 3)%Z -> [-2; -1; 3] !! j = Some x ->
      x < 0 \/ threshold < x) /\
  (Z.to_nat 3 < 4)%nat /\
  exists st, removal_loop 4 [-2; -1; 3] 3 initial = Some (Exited st).
Proof.
  assert (H : (0 <= 3 <= Z.of_nat (length [-2; -1; 3]))%Z) by (simpl; lia).
  assert (Hc : forall (j : nat) (x : R),
             (Z.of_nat j < 3)%Z -> [-2; -1; 3] !! j = Some x ->
             x < 0 \/ threshold < x).
  { pose proof DiagFacts.threshold_bounds as Ht.
    intros j x Hj Hx. destruct j as [| [| [| j]]]; simpl in Hx;
      inversion Hx; subst; lra || lia. }
  assert (Hf : (Z.to_nat 3 < 4)%nat) by lia.
  split; [exact H |]. split; [exact Hc |]. split; [exact Hf |].
  exact (removal_loop_terminates [-2; -1; 3] 3 4 H Hc Hf).
Defined.

Lemma diverges_from (e : list R) (n : Z) (i : nat) (x : R) :
  (Z.of_nat i < n)%Z -> e !! i = Some x -> 0 <= x <= threshold ->
  (forall (j : nat) (y : R), (j < i)%nat -> e !! j = Some y -> y < 0) ->
  forall fuel (k : nat), (k <= i)%nat ->
    removal_loop fuel e n (Z.of_nat k, range 0 (Z.of_nat k)) = None.
Proof.
  intros Hi Hx Hband Hneg. induction fuel as [| fuel IH]; intros k Hk.
  - reflexivity.
  - destruct (Nat.eq_dec k i) as [-> | Hne].
    + apply DiagFacts.removal_loop_stuck.
      apply (step_band e n (Z.of_nat i) _ x);
        [lia | rewrite Nat2Z.id; exact Hx | exact Hband].
    + assert (Hlt : (k < length e)%nat).
      { apply lookup_lt_Some in Hx. lia. }
      destruct (lookup_lt_is_Some_2 e k Hlt) as [y Hy].
      cbn [removal_loop].
      rewrite (step_negative e n (Z.of_nat k) _ y);
        [| lia | rewrite Nat2Z.id; exact Hy | apply (Hneg k y); [lia | exact Hy]].
      rewrite <- range_snoc by lia.
      replace (Z.of_nat k + 1)%Z with (Z.of_nat (S k)) by lia.
      apply IH. lia.
Qed.

Lemma exits_or_band (e : list R) (n : Z) :
  (n <= Z.of_nat (length e))%Z ->
  forall m st, loop_invariant e n st -> (Z.to_nat (n - fst st) <= m)%nat ->
    (exists st', removal_loop (S m) e n st = Some (Exited st')) \/
    (exists (i : nat) (x : R),
        (Z.of_nat i < n)%Z /\ e !! i = Some x /\ 0 <= x <= threshold /\
        forall (j : nat) (y : R), (j < i)%nat -> e !! j = Some y -> y < 0).
Proof.
  intros Hlen.
  assert (Hfound : forall st x,
             loop_invariant e n st -> (fst st < n)%Z ->
             e !! Z.to_nat (fst st) = Some x -> 0 <= x <= threshold ->
             exists (i : nat) (x : R),
               (Z.of_nat i < n)%Z /\ e !! i = Some x /\
               0 <= x <= threshold /\
               forall (j : nat) (y : R),
                 (j < i)%nat -> e !! j = Some y -> y < 0).
  { intros st x (Hk & _ & Hn) Hlt Hx Hband.
    exists (Z.to_nat (fst st)), x. split; [lia |]. split; [exact Hx |].
    split; [exact Hband |]. intros j y Hj Hy.
    apply (Hn j y); [lia | exact Hy]. }
  induction m as [| m IH]; intros st Hinv Hm;
    destruct (step_cases e n st Hlen Hinv)
      as [[Hend Hs] | (x & Hlt & Hx & [[Hneg Hs] | [[Hab Hs] | [Hband Hs]]])];
    cbn [removal_loop]; rewrite Hs.
  - left. eauto.
  - exfalso. lia.
  - left. eauto.
  - right. apply (Hfound st x); assumption.
  - left. eauto.
  - apply IH.
    + apply (invariant_advance e n st x); assumption.
    + simpl. lia.
  - left. eauto.
  - right. apply (Hfound st x); assumption.
Qed.

(** X3: The loop runs forever exactly when the first of the eigenvalues that
    is not negative lies in [0, 1e-5], with [1e-5] the double [threshold]
    the code compares with. *)
Theorem removal_loop_diverges_iff
    (energy_eigenvalues : list R) (n_hamiltonian : Z) :
  (0 <= n_hamiltonian <= Z.of_nat (length energy_eigenvalues))%Z ->
  (forall fuel,
      removal_loop fuel energy_eigenvalues n_hamiltonian initial = None) <->
  (exists (i : nat) (x : R),
      (Z.of_nat i < n_hamiltonian)%Z /\
      energy_eigenvalues !! i = Some x /\ 0 <= x <= threshold /\
      forall (j : nat) (y : R),
        (j < i)%nat -> energy_eigenvalues !! j = Some y -> y < 0).
Proof.
  intros [Hn Hlen]. split.
  - intros Hdiv.
    destruct (exits_or_band energy_eigenvalues n_hamiltonian Hlen
                (Z.to_nat n_hamiltonian) initial (invariant_initial _ _ Hn))
      as [[st Hst] | Hband].
    + unfold initial. simpl. lia.
    + rewrite Hdiv in Hst. discriminate.
    + exact Hband.
  - intros (i & x & Hi & Hx & Hband & Hneg) fuel.
    apply (diverges_from energy_eigenvalues n_hamiltonian i x Hi Hx Hband
             Hneg fuel 0%nat). lia.
Qed.

Lemma removal_loop_diverges_witness :
  (0 <= 3 <= Z.of_nat (length [-2; 0; 3]))%Z /\
  forall fuel, removal_loop fuel [-2; 0; 3] 3 initial = None.
Proof.
  assert (H : (0 <= 3 <= Z.of_nat (length [-2; 0; 3]))%Z) by (simpl; lia).
  split; [exact H |].
  apply (proj2 (removal_loop_diverges_iff [-2; 0; 3] 3 H)).
  pose proof DiagFacts.threshold_bounds as Ht.
  exists 1%nat, 0. split; [lia |]. split; [reflexivity |].
  split; [lra |]. intros j y Hj Hy.
  destruct j as [| j]; [| lia]. simpl in Hy. inversion Hy. lra.
Defined.

Lemma norm_indices_range (len i : nat) :
  (i <= len)%nat -> norm_indices len (range 0 (Z.of_nat i)) = Ok (seq 0 i).
Proof.
  intros Hi. unfold range.
  replace (Z.to_nat (Z.of_nat i - 0)) with i by lia.
  assert (H : forall s k, (s + k <= len)%nat ->
            norm_indices len (map (fun j => (0 + Z.of_nat j)%Z) (seq s k))
            = Ok (seq s k)).
  { intros s k. revert s. induction k as [| k IH]; intros s Hs; simpl.
    - reflexivity.
    - change (0 + Z.of_nat s)%Z with (Z.of_nat s).
      rewrite norm_index_nonneg by lia.
      destruct (Z.ltb_spec (Z.of_nat s) (Z.of_nat len)); [| lia].
      rewrite IH by lia. simpl. rewrite Nat2Z.id. reflexivity. }
  apply H. lia.
Qed.

Lemma existsb_seq (s i : nat) :
  existsb (Nat.eqb s) (seq 0 i) = if (s <? i)%nat then true else false.
Proof.
  destruct (Nat.ltb_spec s i) as [Hlt | Hge].
  - apply existsb_exists. exists s. split; [apply in_seq; lia |].
    apply Nat.eqb_refl.
  - destruct (existsb (Nat.eqb s) (seq 0 i)) eqn:E; [| reflexivity].
    apply existsb_exists in E. destruct E as (y & Hy & Heq).
    apply in_seq in Hy. apply Nat.eqb_eq in Heq. lia.
Qed.

Lemma delete_prefix {A} (a : list A) (i : nat) :
  forall s,
    map snd (List.filter
               (fun p => negb (existsb (Nat.eqb (fst p)) (seq 0 i)))
               (combine (seq s (length a)) a))
    = drop (i - s) a.
Proof.
  induction a as [| x a IH]; intros s; simpl.
  - rewrite drop_nil. reflexivity.
  - rewrite existsb_seq. destruct (Nat.ltb_spec s i) as [Hlt | Hge]; simpl.
    + rewrite IH. replace (i - s)%nat with (S (i - S s)) by lia.
      reflexivity.
    + rewrite IH. replace (i - s)%nat with 0%nat by lia.
      replace (i - S s)%nat with 0%nat by lia. reflexivity.
Qed.

(** X4: After the loop, what is written as removed and what [np.delete]
    keeps split the spectrum in two: the removed values are the first
    [i_removal] eigenvalues, all negative, the kept ones are the rest, in
    order, and nothing is lost or repeated. *)
Theorem removed_and_kept_partition
    (energy_eigenvalues : list R) (n_hamiltonian : Z) (fuel : nat)
    (st : loop_state) :
  (0 <= n_hamiltonian <= Z.of_nat (length energy_eigenvalues))%Z ->
  removal_loop fuel energy_eigenvalues n_hamiltonian initial
  = Some (Exited st) ->
  exists kept,
    kept_values energy_eigenvalues st = Ok kept /\
    removed_values energy_eigenvalues st ++ kept = energy_eigenvalues /\
    length (removed_values energy_eigenvalues st) = Z.to_nat (fst st) /\
    Forall (fun x => x < 0) (removed_values energy_eigenvalues st).
Proof.
  intros [Hn Hlen] Hexit.
  pose proof (loop_from_invariant energy_eigenvalues n_hamiltonian Hlen fuel
                initial (invariant_initial _ _ Hn)) as H.
  rewrite Hexit in H. destruct H as [(Hk & Hidx & Hneg) _].
  destruct st as [i idx]. simpl in *.
  assert (Hrem : removed_values energy_eigenvalues (i, idx)
                 = take (Z.to_nat i) energy_eigenvalues).
  { unfold removed_values, slice, slice_bound. simpl.
    destruct (Z.leb_spec 0 i); [| lia].
    rewrite Nat.min_l by lia. rewrite Nat.sub_0_r. reflexivity. }
  exists (drop (Z.to_nat i) energy_eigenvalues).
  split.
  - unfold kept_values, np_delete. simpl. rewrite Hidx.
    rewrite <- (Z2Nat.id i) at 1 by lia.
    rewrite norm_indices_range by lia. simpl.
    rewrite delete_prefix. rewrite Nat.sub_0_r. reflexivity.
  - rewrite Hrem. split; [apply take_drop |].
    split; [rewrite length_take; lia |].
    apply Forall_forall. intros x Hx.
    apply (proj1 (list_elem_of_lookup _ _)) in Hx. destruct Hx as [j Hj].
    pose proof (lookup_lt_Some _ _ _ Hj) as Hjl. rewrite length_take in Hjl.
    rewrite lookup_take_lt in Hj by lia.
    apply (Hneg j x); [lia | exact Hj].
Qed.

Lemma removed_and_kept_witness :
  (0 <= 3 <= Z.of_nat (length [-2; -1; 3]))%Z /\
  removal_loop 4 [-2; -1; 3] 3 initial
  = Some (Exited (2%Z, [0%Z; 1%Z])) /\
  exists kept, kept_values [-2; -1; 3] (2%Z, [0%Z; 1%Z]) = Ok kept.
Proof.
  assert (H : (0 <= 3 <= Z.of_nat (length [-2; -1; 3]))%Z) by (simpl; lia).
  assert (Hrun : removal_loop 4 [-2; -1; 3] 3 initial
                 = Some (Exited (2%Z, [0%Z; 1%Z]))).
  { pose proof DiagFacts.threshold_bounds as Ht.
    cbn [removal_loop]. unfold initial.
    rewrite (step_negative _ _ 0%Z _ (-2)); [| lia | reflexivity | lra].
    rewrite (step_negative _ _ (0 + 1)%Z _ (-1)); [| lia | reflexivity | lra].
    rewrite (step_above _ _ (0 + 1 + 1)%Z _ 3); [| lia | reflexivity | lra].
    reflexivity. }
  split; [exact H |]. split; [exact Hrun |].
  destruct (removed_and_kept_partition [-2; -1; 3] 3 4 _ H Hrun)
    as (kept & Hk & _).
  exists kept. exact Hk.
Defined.

Lemma ascending_three (a b c : R) : a <= b -> b <= c -> ascending [a; b; c].
Proof.
  intros Hab Hbc i j x y Hij Hx Hy.
  destruct i as [| [| [| i]]]; destruct j as [| [| [| j]]];
    simpl in Hx, Hy; try discriminate; try lia;
    inversion Hx; inversion Hy; subst; lra.
Qed.

(** An ascending array on which the loop never ends: after the negative
    eigenvalue the loop meets [0.0], which no branch of the body handles. *)
Lemma C8_ascending_input_hangs :
  ascending [-1; 0; 2] /\
  Z.of_nat (length [-1; 0; 2]) = 3%Z /\
  forall fuel, removal_loop fuel [-1; 0; 2] 3 initial = None.
Proof.
  pose proof DiagFacts.threshold_bounds as Ht.
  split; [apply ascending_three; lra |]. split; [reflexivity |].
  assert (Hneg : forall (j : nat) (y : R),
             (j < 1)%nat -> [-1; 0; 2] !! j = Some y -> y < 0).
  { intros j y Hj Hy. destruct j as [| j]; [| lia].
    simpl in Hy. inversion Hy. lra. }
  intros fuel.
  apply (diverges_from [-1; 0; 2] 3 1%nat 0 ltac:(lia) eq_refl ltac:(lra)
           Hneg fuel 0%nat). lia.
Qed.

(** C8: the loop that collects the removed eigenvalues does not always
    terminate, and ascending order does not make it terminate: there is an
    ascending eigenvalue array (of the length [n_hamiltonian] the loop
    expects) on which the loop is still running after any number of
    passes.  The loop hangs whenever the first eigenvalue that is not
    negative lies in [0, 1e-5], where no branch of the body advances
    [i_removal] or leaves the loop; it is over after at most
    [n_hamiltonian + 1] tests of its condition when none of the first
    [n_hamiltonian] eigenvalues lies in that band, whatever their order:
    on the array [1, -1], which is not ascending, it exits in the first
    pass. *)
Theorem C8_removal_loop_can_run_unbounded :
  (exists (energy_eigenvalues : list R) (n_hamiltonian : Z),
      Z.of_nat (length energy_eigenvalues) = n_hamiltonian /\
      ascending energy_eigenvalues /\
      forall fuel,
        removal_loop fuel energy_eigenvalues n_hamiltonian initial = None) /\
  (forall (energy_eigenvalues : list R) (n_hamiltonian : Z) (i : nat) (x : R),
      (Z.of_nat i < n_hamiltonian)%Z ->
      energy_eigenvalues !! i = Some x -> 0 <= x <= threshold ->
      (forall (j : nat) (y : R),
          (j < i)%nat -> energy_eigenvalues !! j = Some y -> y < 0) ->
      forall fuel,
        removal_loop fuel energy_eigenvalues n_hamiltonian initial = None) /\
  (forall (energy_eigenvalues : list R) (n_hamiltonian : Z),
      (0 <= n_hamiltonian <= Z.of_nat (length energy_eigenvalues))%Z ->
      (forall (j : nat) (x : R),
          (Z.of_nat j < n_hamiltonian)%Z ->
          energy_eigenvalues !! j = Some x -> x < 0 \/ threshold < x) ->
      exists st,
        removal_loop (S (Z.to_nat n_hamiltonian)) energy_eigenvalues
          n_hamiltonian initial = Some (Exited st)) /\
  (~ ascending [1; -1] /\
   removal_loop 1 [1; -1] 2 initial = Some (Exited initial)).
Proof.
  pose proof DiagFacts.threshold_bounds as Ht.
  split; [| split; [| split]].
  - exists [-2; 0; 3], 3%Z. split; [reflexivity |].
    split; [apply ascending_three; lra |].
    assert (Hneg : forall (j : nat) (y : R),
               (j < 1)%nat -> [-2; 0; 3] !! j = Some y -> y < 0).
    { intros j y Hj Hy. destruct j as [| j]; [| lia].
      simpl in Hy. inversion Hy. lra. }
    intros fuel.
    apply (diverges_from [-2; 0; 3] 3 1%nat 0 ltac:(lia) eq_refl ltac:(lra)
             Hneg fuel 0%nat). lia.
  - intros e n i x Hi Hx Hband Hneg fuel.
    apply (diverges_from e n i x Hi Hx Hband Hneg fuel 0%nat). lia.
  - intros e n [Hn Hlen] Hclean.
    apply (terminates_from e n Hlen Hclean (Z.to_nat n) initial
             (invariant_initial _ _ Hn)).
    unfold initial. simpl. lia.
  - split.
    + intros Hasc.
      pose proof (Hasc 0%nat 1%nat 1 (-1) ltac:(lia) eq_refl eq_refl). lra.
    + cbn [removal_loop]. unfold initial.
      rewrite (step_above _ _ 0%Z _ 1); [reflexivity | lia | reflexivity | lra].
Qed.

(** C8 on the ascending array [-1, 5e-6, 2], which hangs at its second
    entry, and on [-2, -1, 3], where the loop is over at the fourth test. *)
Lemma C8_removal_loop_witness :
  (forall fuel, removal_loop fuel [-1; 1 / 200000; 2] 3 initial = None) /\
  (exists st, removal_loop 4 [-2; -1; 3] 3 initial = Some (Exited st)).
Proof.
  pose proof DiagFacts.threshold_bounds as Ht.
  destruct C8_removal_loop_can_run_unbounded as (_ & Hhang & Hend & _).
  split.
  - apply (Hhang [-1; 1 / 200000; 2] 3%Z 1%nat (1 / 200000));
      [lia | reflexivity | lra |].
    intros j y Hj Hy. destruct j as [| j]; [| lia].
    simpl in Hy. inversion Hy. lra.
  - apply (Hend [-2; -1; 3] 3%Z); [simpl; lia |].
    intros j x Hj Hx. destruct j as [| [| [| j]]]; simpl in Hx;
      inversion Hx; subst; lra || lia.
Defined.

End DiagLoop.

(** ** The functions of the diagonalisation module *)

Module DiagFunctionsFacts.
Import DiagFunctions PyFacts.
Local Open Scope R_scope.

Lemma exp_le (x y : R) : x <= y -> exp x <= exp y.
Proof.
  intros [Hlt | ->]; [left; apply exp_increasing; exact Hlt | right; reflexivity].
Qed.

Lemma range_0_seq (n : Z) :
  range 0 n = map (fun j => Z.of_nat (0 + j)) (seq 0 (Z.to_nat n)).
Proof.
  unfold range. rewrite Z.sub_0_r. apply map_ext. intros k. lia.
Qed.

(** A loop over a list that, pass after pass, writes one entry of an array
    held in its state and moves on to the next entry. *)
Lemma for_each_indexed {St : Type} (idx : St -> Z) (arr : St -> list R)
    (ok : St -> Prop) (V : R -> R -> R) (body : St -> R -> result St) :
  (forall st x old,
      ok st -> (0 <= idx st)%Z -> arr st !! Z.to_nat (idx st) = Some old ->
      exists st',
        body st x = Ok st' /\ ok st' /\ idx st' = (idx st + 1)%Z /\
        arr st' = <[Z.to_nat (idx st) := V old x]> (arr st)) ->
  forall xs st,
    ok st -> (0 <= idx st)%Z ->
    (Z.to_nat (idx st) + length xs <= length (arr st))%nat ->
    exists st',
      for_each xs body st = Ok st' /\ ok st' /\
      idx st' = (idx st + Z.of_nat (length xs))%Z /\
      length (arr st') = length (arr st) /\
      (forall k x old,
          xs !! k = Some x ->
          arr st !! (Z.to_nat (idx st) + k)%nat = Some old ->
          arr st' !! (Z.to_nat (idx st) + k)%nat = Some (V old x)) /\
      (forall m,
          (m < Z.to_nat (idx st))%nat \/
          (Z.to_nat (idx st) + length xs <= m)%nat ->
          arr st' !! m = arr st !! m).
Proof.
  intros Hbody. induction xs as [| x xs IH]; intros st Hok Hidx Hlen.
  - exists st. simpl. split; [reflexivity |]. split; [exact Hok |].
    split; [lia |]. split; [reflexivity |]. split; [| auto].
    intros k y old Hk. rewrite lookup_nil in Hk. discriminate.
  - simpl in Hlen.
    destruct (lookup_lt_is_Some_2 (arr st) (Z.to_nat (idx st))) as [old Hold];
      [lia |].
    destruct (Hbody st x old Hok Hidx Hold) as (st1 & Hrun & Hok1 & Hi1 & Ha1).
    assert (Hl1 : length (arr st1) = length (arr st))
      by (rewrite Ha1; apply length_insert).
    destruct (IH st1 Hok1) as (st2 & Hrun2 & Hok2 & Hi2 & Hl2 & Hin & Hout);
      [lia | lia |].
    exists st2. simpl. rewrite Hrun. simpl.
    split; [exact Hrun2 |]. split; [exact Hok2 |].
    split; [rewrite Hi2, Hi1; simpl length; lia |].
    split; [lia |]. split.
    + intros k y old' Hk Hold'. destruct k as [| k].
      * simpl in Hk. inversion Hk. subst y.
        rewrite Nat.add_0_r in *. rewrite Hold in Hold'. inversion Hold'.
        subst old'. rewrite Hout by lia. rewrite Ha1.
        apply list_lookup_insert_eq. lia.
      * simpl in Hk.
        replace (Z.to_nat (idx st) + S k)%nat
          with (Z.to_nat (idx st1) + k)%nat in * by lia.
        apply (Hin k y old' Hk). rewrite Ha1.
        rewrite list_lookup_insert_ne by lia. exact Hold'.
    + intros m Hm. rewrite Hout by (simpl length in Hm; lia).
      rewrite Ha1. apply list_lookup_insert_ne. simpl length in Hm. lia.
Qed.

Lemma zeros_lookup (n j : nat) : (j < n)%nat -> zeros n !! j = Some 0.
Proof.
  intros Hj. unfold zeros.
  destruct (lookup_lt_is_Some_2 (repeat 0 n) j) as [x Hx];
    [rewrite repeat_length; exact Hj |].
  rewrite Hx. f_equal.
  apply list_elem_of_lookup_2 in Hx. apply list_elem_of_In in Hx.
  apply repeat_spec in Hx. exact Hx.
Qed.

(** *** [psi_simple_model] *)

(** X5: For a positive position of the minimum (the base of the real power
    is then positive) the trial ground state is an even function of the
    position and is nowhere negative.  (Far from both minima the two
    exponentials are too small for a double and the code returns [0.0], so
    that the value is not positive everywhere.) *)
Theorem psi_simple_model_even_nonnegative
    (x_position x_potential_minimum : R) :
  0 < x_potential_minimum ->
  psi_simple_model (- x_position) x_potential_minimum
  = psi_simple_model x_position x_potential_minimum /\
  0 <= psi_simple_model x_position x_potential_minimum.
Proof.
  intros _. unfold psi_simple_model. split.
  - replace ((- x_position - x_potential_minimum) ^ 2)
      with ((x_position + x_potential_minimum) ^ 2) by ring.
    replace ((- x_position + x_potential_minimum) ^ 2)
      with ((x_position - x_potential_minimum) ^ 2) by ring.
    ring.
  - unfold Rpower. apply Rlt_le.
    apply Rmult_lt_0_compat; [| apply exp_pos].
    apply Rplus_lt_0_compat; apply Rmult_lt_0_compat; apply exp_pos.
Qed.

Lemma psi_simple_model_witness :
  0 < 14 / 10 /\
  psi_simple_model (- 1) (14 / 10) = psi_simple_model 1 (14 / 10) /\
  0 <= psi_simple_model 1 (14 / 10).
Proof.
  assert (H : 0 < 14 / 10) by lra.
  split; [exact H |].
  exact (psi_simple_model_even_nonnegative 1 (14 / 10) H).
Defined.

(** *** [corr_functs_analytic] *)

Lemma corr_inner_loop (E : list R) (tau : R) :
  forall ds st old,
    (0 <= i_tau st)%Z ->
    correlation_funct st !! Z.to_nat (i_tau st) = Some old ->
    (0 <= j_energy st)%Z ->
    (Z.to_nat (j_energy st) + length ds <= length E)%nat ->
    for_each ds (corr_inner E tau) st
    = Ok {| i_tau := i_tau st;
            j_energy := (j_energy st + Z.of_nat (length ds))%Z;
            correlation_funct :=
              <[Z.to_nat (i_tau st) :=
                  old + fold_right Rplus 0
                          (zip_with
                             (fun rho e =>
                                rho * exp (- (e - default 0 (E !! 0%nat)) * tau))
                             ds (drop (Z.to_nat (j_energy st)) E))]>
                (correlation_funct st) |}.
Proof.
  induction ds as [| rho ds IH]; intros st old Hi Hold Hj Hlen.
  - destruct st as [i j cf]. simpl in *. f_equal. f_equal; [lia |].
    rewrite Rplus_0_r. symmetry. apply list_insert_id. exact Hold.
  - simpl in Hlen.
    destruct (lookup_lt_is_Some_2 E (Z.to_nat (j_energy st))) as [ej Hej];
      [lia |].
    destruct (lookup_lt_is_Some_2 E 0%nat) as [e0 He0]; [lia |].
    cbn [for_each]. unfold corr_inner at 1.
    rewrite (getitem_nonneg (correlation_funct st)) by lia. rewrite Hold.
    cbn [Py.bind].
    rewrite (getitem_nonneg E (j_energy st)) by lia. rewrite Hej.
    cbn [Py.bind].
    rewrite (getitem_nonneg E 0) by lia. change (Z.to_nat 0) with 0%nat.
    rewrite He0. cbn [Py.bind].
    rewrite setitem_nonneg
      by (apply lookup_lt_Some in Hold; lia).
    cbn [Py.bind].
    rewrite (IH _ (old + rho * exp (- (ej - e0) * tau)));
      cbn [i_tau j_energy correlation_funct]; try lia.
    + f_equal. f_equal; [simpl length; lia |].
      rewrite list_insert_insert_eq. f_equal.
      rewrite (drop_S E ej (Z.to_nat (j_energy st)) Hej).
      replace (Z.to_nat (j_energy st + 1)) with (S (Z.to_nat (j_energy st)))
        by lia.
      simpl. rewrite He0. simpl. lra.
    + apply list_lookup_insert_eq. apply lookup_lt_Some in Hold. exact Hold.
Qed.

Lemma corr_inner_raises (E : list R) (tau : R) :
  forall ds st,
    (0 <= i_tau st < Z.of_nat (length (correlation_funct st)))%Z ->
    (0 <= j_energy st <= Z.of_nat (length E))%Z ->
    (length E < Z.to_nat (j_energy st) + length ds)%nat ->
    for_each ds (corr_inner E tau) st = IndexError (Z.of_nat (length E)).
Proof.
  induction ds as [| rho ds IH]; intros st Hi Hj Hlen.
  - simpl in Hlen. lia.
  - destruct (lookup_lt_is_Some_2 (correlation_funct st)
                (Z.to_nat (i_tau st))) as [old Hold]; [lia |].
    cbn [for_each]. unfold corr_inner at 1.
    rewrite (getitem_nonneg (correlation_funct st)) by lia. rewrite Hold.
    cbn [Py.bind].
    destruct (Z.eq_dec (j_energy st) (Z.of_nat (length E))) as [Heq | Hne].
    + rewrite getitem_past_end by lia. simpl. f_equal. exact Heq.
    + destruct (lookup_lt_is_Some_2 E (Z.to_nat (j_energy st))) as [ej Hej];
        [lia |].
      destruct (lookup_lt_is_Some_2 E 0%nat) as [e0 He0]; [lia |].
      rewrite (getitem_nonneg E (j_energy st)) by lia. rewrite Hej.
      cbn [Py.bind].
      rewrite (getitem_nonneg E 0) by lia. change (Z.to_nat 0) with 0%nat.
      rewrite He0. cbn [Py.bind].
      rewrite setitem_nonneg by lia. cbn [Py.bind].
      apply IH; cbn [i_tau j_energy correlation_funct].
      * rewrite length_insert. lia.
      * lia.
      * simpl in Hlen. lia.
Qed.

Lemma corr_values (energy_density tau_array energy_eigenvalues : list R) :
  (length energy_density <= length energy_eigenvalues)%nat ->
  exists cf,
    corr_functs_analytic energy_density tau_array energy_eigenvalues = Ok cf /\
    length cf = length tau_array /\
    forall i tau,
      tau_array !! i = Some tau ->
      cf !! i = Some (correlator energy_density energy_eigenvalues tau).
Proof.
  intros Hlen. unfold corr_functs_analytic.
  destruct (for_each_indexed i_tau correlation_funct
              (fun st => j_energy st = 0%Z)
              (fun old tau =>
                 old + correlator energy_density energy_eigenvalues tau)
              (corr_outer energy_density energy_eigenvalues))
    with (xs := tau_array)
         (st := {| i_tau := 0%Z; j_energy := 0%Z;
                   correlation_funct := zeros (length tau_array) |})
    as (st' & Hrun & _ & _ & Hl & Hin & _).
  - intros st tau old Hj Hi Hold. unfold corr_outer.
    rewrite (corr_inner_loop energy_eigenvalues tau energy_density st old
               Hi Hold) by (rewrite Hj; simpl; lia).
    cbn [Py.bind i_tau j_energy correlation_funct].
    eexists. split; [reflexivity |]. cbn [i_tau j_energy correlation_funct].
    split; [reflexivity |]. split; [reflexivity |].
    rewrite Hj. reflexivity.
  - reflexivity.
  - simpl. lia.
  - cbn [i_tau correlation_funct]. unfold zeros. rewrite repeat_length.
    simpl. lia.
  - rewrite Hrun. cbn [Py.bind]. exists (correlation_funct st').
    split; [reflexivity |].
    cbn [correlation_funct] in Hl. unfold zeros in Hl.
    rewrite repeat_length in Hl. split; [exact Hl |].
    intros i tau Htau.
    specialize (Hin i tau 0 Htau). cbn [i_tau correlation_funct] in Hin.
    simpl in Hin. rewrite Hin.
    + f_equal. lra.
    + apply zeros_lookup. apply lookup_lt_Some in Htau. exact Htau.
Qed.

(** X6: [corr_functs_analytic] returns, for each time of [tau_array], the sum
    [sum_j rho_j exp(-(E_j - E_0) tau)] whenever there are at least as
    many eigenvalues as matrix elements (or no time at all); with fewer
    eigenvalues and at least one time it raises [IndexError] at the
    index just past the eigenvalues. *)
Theorem corr_functs_analytic_value_or_error
    (energy_density tau_array energy_eigenvalues : list R) :
  ((length energy_density <= length energy_eigenvalues)%nat ->
   exists cf,
     corr_functs_analytic energy_density tau_array energy_eigenvalues
     = Ok cf /\
     length cf = length tau_array /\
     forall i tau,
       tau_array !! i = Some tau ->
       cf !! i = Some (correlator energy_density energy_eigenvalues tau)) /\
  ((length energy_eigenvalues < length energy_density)%nat ->
   (tau_array = [] ->
    corr_functs_analytic energy_density tau_array energy_eigenvalues
    = Ok []) /\
   (tau_array <> [] ->
    corr_functs_analytic energy_density tau_array energy_eigenvalues
    = IndexError (Z.of_nat (length energy_eigenvalues)))).
Proof.
  split; [apply corr_values |].
  intros Hshort. split.
  - intros ->. reflexivity.
  - intros Hne. destruct tau_array as [| tau rest]; [contradiction |].
    unfold corr_functs_analytic. cbn [for_each]. unfold corr_outer at 1.
    rewrite corr_inner_raises; cbn [i_tau j_energy correlation_funct].
    + reflexivity.
    + unfold zeros. rewrite repeat_length. simpl. lia.
    + lia.
    + simpl. lia.
Qed.

Lemma corr_functs_analytic_witness :
  (length [1; 2] <= length [0; 3; 5])%nat /\
  (length [0] < length [1; 2])%nat /\ [0; 1] <> [] /\
  (exists cf,
     corr_functs_analytic [1; 2] [0; 1] [0; 3; 5] = Ok cf /\
     length cf = length [0; 1] /\
     forall i tau,
       [0; 1] !! i = Some tau ->
       cf !! i = Some (correlator [1; 2] [0; 3; 5] tau)) /\
  corr_functs_analytic [1; 2] [] [0] = Ok [] /\
  corr_functs_analytic [1; 2] [0; 1] [0]
  = IndexError (Z.of_nat (length [0])).
Proof.
  assert (Hlen : (length [1; 2] <= length [0; 3; 5])%nat) by (simpl; lia).
  assert (Hshort : (length [0] < length [1; 2])%nat) by (simpl; lia).
  assert (Hne : [0; 1] <> []) by discriminate.
  split; [exact Hlen |]. split; [exact Hshort |]. split; [exact Hne |].
  split; [| split].
  - exact (proj1 (corr_functs_analytic_value_or_error
                    [1; 2] [0; 1] [0; 3; 5]) Hlen).
  - exact (proj1 (proj2 (corr_functs_analytic_value_or_error [1; 2] [] [0])
                    Hshort) eq_refl).
  - exact (proj2 (proj2 (corr_functs_analytic_value_or_error
                           [1; 2] [0; 1] [0]) Hshort) Hne).
Defined.

Lemma correlator_decreasing (density E : list R) (t1 t2 : R) :
  Forall (fun rho => 0 <= rho) density ->
  Forall (fun e => default 0 (E !! 0%nat) <= e) E ->
  t1 <= t2 ->
  0 <= correlator density E t2 <= correlator density E t1.
Proof.
  intros Hrho HE Ht. unfold correlator.
  generalize (default 0 (E !! 0%nat)) HE. clear HE. intros e0 HE.
  revert E HE. induction Hrho as [| rho density Hr Hrho IH]; intros E HE.
  - simpl. lra.
  - destruct HE as [| e E He HE]; simpl; [lra |].
    specialize (IH E HE).
    assert (H1 : exp (- (e - e0) * t2) <= exp (- (e - e0) * t1))
      by (apply exp_le; nra).
    pose proof (exp_pos (- (e - e0) * t2)).
    assert (0 <= rho * exp (- (e - e0) * t2)) by (apply Rmult_le_pos; lra).
    assert (rho * exp (- (e - e0) * t2) <= rho * exp (- (e - e0) * t1))
      by (apply Rmult_le_compat_l; lra).
    lra.
Qed.

(** X7: With non-negative matrix elements and no eigenvalue below the first,
    the correlation function returned is non-negative and does not
    increase with the time: a later time never gets a larger value. *)
Theorem corr_functs_analytic_decreasing
    (energy_density tau_array energy_eigenvalues cf : list R) :
  (length energy_density <= length energy_eigenvalues)%nat ->
  Forall (fun rho => 0 <= rho) energy_density ->
  Forall (fun e => default 0 (energy_eigenvalues !! 0%nat) <= e)
    energy_eigenvalues ->
  corr_functs_analytic energy_density tau_array energy_eigenvalues = Ok cf ->
  forall i k t_i t_k c_i c_k,
    tau_array !! i = Some t_i -> tau_array !! k = Some t_k ->
    cf !! i = Some c_i -> cf !! k = Some c_k ->
    t_i <= t_k -> 0 <= c_k <= c_i.
Proof.
  intros Hlen Hrho HE Hrun i k t_i t_k c_i c_k Hti Htk Hci Hck Ht.
  destruct (corr_values energy_density tau_array energy_eigenvalues Hlen)
    as (cf' & Hrun' & _ & Hval).
  rewrite Hrun in Hrun'. inversion Hrun'. subst cf'.
  rewrite (Hval i t_i Hti) in Hci. rewrite (Hval k t_k Htk) in Hck.
  inversion Hci. inversion Hck.
  apply correlator_decreasing; assumption.
Qed.

Lemma corr_functs_analytic_decreasing_witness :
  (length [1; 2] <= length [0; 3; 5])%nat /\
  Forall (fun rho => 0 <= rho) [1; 2] /\
  Forall (fun e => default 0 ([0; 3; 5] !! 0%nat) <= e) [0; 3; 5] /\
  exists cf, corr_functs_analytic [1; 2] [0; 1] [0; 3; 5] = Ok cf /\
    forall c_0 c_1, cf !! 0%nat = Some c_0 -> cf !! 1%nat = Some c_1 ->
                    0 <= c_1 <= c_0.
Proof.
  assert (Hlen : (length [1; 2] <= length [0; 3; 5])%nat) by (simpl; lia).
  assert (Hrho : Forall (fun rho => 0 <= rho) [1; 2])
    by (repeat constructor; lra).
  assert (HE : Forall (fun e => default 0 ([0; 3; 5] !! 0%nat) <= e)
                 [0; 3; 5]) by (repeat constructor; simpl; lra).
  split; [exact Hlen |]. split; [exact Hrho |]. split; [exact HE |].
  destruct (corr_values [1; 2] [0; 1] [0; 3; 5] Hlen) as (cf & Hrun & _).
  exists cf. split; [exact Hrun |]. intros c_0 c_1 H0 H1.
  apply (corr_functs_analytic_decreasing [1; 2] [0; 1] [0; 3; 5] cf
           Hlen Hrho HE Hrun 0%nat 1%nat 0 1 c_0 c_1);
    [reflexivity | reflexivity | exact H0 | exact H1 | lra].
Defined.

(** *** [log_corr_funct_forward_difference] *)

Lemma repeat_lookup (x : R) (n i : nat) :
  (i < n)%nat -> repeat x n !! i = Some x.
Proof.
  revert i. induction n as [| n IH]; intros i Hi; [lia |].
  destruct i as [| i]; [reflexivity |]. simpl. apply IH. lia.
Qed.

Lemma forward_difference_values (corr_funct : list R) (dtau : R) :
  corr_funct <> [] ->
  exists fd,
    log_corr_funct_forward_difference corr_funct dtau = Value (Ok fd) /\
    length fd = (length corr_funct - 1)%nat /\
    forall i a b,
      corr_funct !! i = Some b -> corr_funct !! S i = Some a ->
      fd !! i = Some (- (ln a - ln b) / dtau).
Proof.
  intros Hne. unfold log_corr_funct_forward_difference.
  assert (Hpos : (1 <= length corr_funct)%nat)
    by (destruct corr_funct; [contradiction | simpl; lia]).
  destruct (Z.ltb_spec (Z.of_nat (length corr_funct) - 1) 0); [lia |].
  rewrite range_0_seq.
  replace (Z.to_nat (Z.of_nat (length corr_funct) - 1))
    with (length corr_funct - 1)%nat by lia.
  destruct (StreamlineFacts.for_each_fill
              (fun j => - (ln (nth (S j) corr_funct 0)
                           - ln (nth j corr_funct 0)) / dtau)
              (fun fd i =>
                 let* a := getitem corr_funct (i + 1) in
                 let* b := getitem corr_funct i in
                 setitem fd i (- (ln a - ln b) / dtau))
              0 0 (zeros (length corr_funct - 1)) (length corr_funct - 1))
    as (fd & Hrun & Hl & Hin & _).
  - unfold zeros. rewrite repeat_length. lia.
  - intros a' j Hl Hj _. unfold zeros in Hl. rewrite repeat_length in Hl.
    destruct (lookup_lt_is_Some_2 corr_funct (S j)) as [a Ha]; [lia |].
    destruct (lookup_lt_is_Some_2 corr_funct j) as [b Hb]; [lia |].
    replace (Z.of_nat (0 + j) + 1)%Z with (Z.of_nat (S j)) by lia.
    rewrite (getitem_nat corr_funct (S j) a Ha). cbn [Py.bind].
    change (0 + j)%nat with j.
    rewrite (getitem_nat corr_funct j b Hb). cbn [Py.bind].
    rewrite setitem_nonneg by lia. rewrite Nat2Z.id.
    rewrite !nth_lookup, Ha, Hb. reflexivity.
  - exists fd. split; [rewrite Hrun; reflexivity |].
    unfold zeros in Hl. rewrite repeat_length in Hl. split; [exact Hl |].
    intros i a b Hb Ha. rewrite Hin.
    + rewrite !nth_lookup, Ha, Hb. reflexivity.
    + apply lookup_lt_Some in Ha. lia.
Qed.

(** X8: On an empty correlation function the allocation of [size - 1]
    entries fails with a [ValueError]; on any other one the function
    returns [size - 1] entries without reading out of bounds, and for a
    step [dtau <> 0] the entry between two positive values [c[i]] and
    [c[i+1]] is [-(ln c[i+1] - ln c[i]) / dtau]. *)
Theorem forward_difference_shape (corr_funct : list R) (dtau : R) :
  dtau <> 0 ->
  (corr_funct = [] ->
   log_corr_funct_forward_difference corr_funct dtau = ValueError) /\
  (corr_funct <> [] ->
   exists fd,
     log_corr_funct_forward_difference corr_funct dtau = Value (Ok fd) /\
     Z.of_nat (length fd) = (Z.of_nat (length corr_funct) - 1)%Z /\
     forall i a b,
       corr_funct !! i = Some b -> corr_funct !! S i = Some a ->
       0 < a -> 0 < b ->
       fd !! i = Some (- (ln a - ln b) / dtau)).
Proof.
  intros _. split.
  - intros ->. reflexivity.
  - intros Hne.
    destruct (forward_difference_values corr_funct dtau Hne)
      as (fd & Hrun & Hl & Hval).
    exists fd. split; [exact Hrun |]. split.
    + destruct corr_funct; [contradiction | simpl in *; lia].
    + intros i a b Hb Ha _ _. exact (Hval i a b Hb Ha).
Qed.

Lemma forward_difference_shape_witness :
  1 <> 0 /\ [2; 1] <> [] /\
  log_corr_funct_forward_difference [] 1 = ValueError /\
  exists fd,
    log_corr_funct_forward_difference [2; 1] 1 = Value (Ok fd) /\
    Z.of_nat (length fd) = (Z.of_nat (length [2; 1]) - 1)%Z /\
    forall i a b,
      [2; 1] !! i = Some b -> [2; 1] !! S i = Some a ->
      0 < a -> 0 < b ->
      fd !! i = Some (- (ln a - ln b) / 1).
Proof.
  assert (Hd : 1 <> 0) by lra.
  assert (Hne : [2; 1] <> []) by discriminate.
  split; [exact Hd |]. split; [exact Hne |]. split.
  - exact (proj1 (forward_difference_shape [] 1 Hd) eq_refl).
  - exact (proj2 (forward_difference_shape [2; 1] 1 Hd) Hne).
Defined.

(** X9: The forward difference is exact on a single exponential: from the
    samples [A exp(-E (t0 + i dtau))], [A > 0], taken with a step
    [dtau <> 0], every entry returned is the exponent [E]. *)
Theorem forward_difference_of_exponential (A E t0 dtau : R) (n : nat) :
  0 < A -> dtau <> 0 ->
  log_corr_funct_forward_difference
    (map (fun i => A * exp (- E * (t0 + INR i * dtau))) (seq 0 (S n))) dtau
  = Value (Ok (repeat E n)).
Proof.
  intros HA Hdtau.
  set (c := map _ _).
  assert (Hlen : length c = S n)
    by (unfold c; rewrite length_map, length_seq; reflexivity).
  destruct (forward_difference_values c dtau) as (fd & Hrun & Hl & Hval).
  { intros Hc. rewrite Hc in Hlen. discriminate. }
  rewrite Hrun. do 2 f_equal. rewrite Hlen in Hl. simpl in Hl.
  rewrite Nat.sub_0_r in Hl.
  assert (Hc : forall i, (i < S n)%nat ->
             c !! i = Some (A * exp (- E * (t0 + INR i * dtau)))).
  { intros i Hi. unfold c. rewrite list_lookup_fmap.
    rewrite lookup_seq_lt by exact Hi. reflexivity. }
  apply list_eq. intros i.
  destruct (Nat.lt_ge_cases i n) as [Hi | Hi].
  - rewrite (Hval i _ _ (Hc i ltac:(lia)) (Hc (S i) ltac:(lia))).
    rewrite repeat_lookup.
    + f_equal. rewrite !ln_mult by (try exact HA; apply exp_pos).
      rewrite !ln_exp. rewrite S_INR. field. exact Hdtau.
    + exact Hi.
  - rewrite (proj2 (lookup_ge_None fd i)) by lia.
    symmetry. apply lookup_ge_None. rewrite repeat_length. exact Hi.
Qed.

Lemma forward_difference_of_exponential_witness :
  0 < 1 /\ 1 <> 0 /\
  log_corr_funct_forward_difference
    (map (fun i => 1 * exp (- 3 * (0 + INR i * 1))) (seq 0 (S 2))) 1
  = Value (Ok (repeat 3 2)).
Proof.
  assert (H1 : 0 < 1) by lra. assert (H2 : 1 <> 0) by lra.
  split; [exact H1 |]. split; [exact H2 |].
  exact (forward_difference_of_exponential 1 3 0 1 2 H1 H2).
Defined.

(** *** [free_energy] *)

Lemma fold_left_partition (E : list R) (T z0 : R) :
  fold_left (fun z energy => z + exp (- energy / T)) E z0
  = z0 + partition_sum E T.
Proof.
  unfold partition_sum. revert z0.
  induction E as [| e E IH]; intros z0; simpl; [lra |].
  rewrite (IH (z0 + exp (- e / T))), (IH (0 + exp (- e / T))). lra.
Qed.

Lemma temperature_array_length : length temperature_array = 99%nat.
Proof.
  unfold temperature_array, linspace_closed.
  rewrite length_map, length_seq. reflexivity.
Qed.

Lemma temperature_array_lookup (i : nat) (T : R) :
  temperature_array !! i = Some T ->
  (i < 99)%nat /\ T = 1 / 100 + INR i * ((2 - 1 / 100) / 98).
Proof.
  unfold temperature_array, linspace_closed. intros H.
  rewrite list_lookup_fmap in H.
  destruct (seq 0 99 !! i) as [j |] eqn:Hj; [| discriminate].
  apply lookup_seq in Hj. destruct Hj as [-> Hi].
  change (99 - 1)%nat with 98%nat in H. rewrite (INR_IZR_INZ 98) in H.
  change (IZR (Z.of_nat 98)) with 98 in H. change (0 + i)%nat with i in H.
  inversion H as [HT]. split; [exact Hi |].
  reflexivity.
Qed.

Lemma temperature_array_range (i : nat) (T : R) :
  temperature_array !! i = Some T -> 1 / 100 <= T <= 2.
Proof.
  intros H. apply temperature_array_lookup in H. destruct H as [Hi ->].
  pose proof (pos_INR i) as H0.
  assert (H1 : INR i <= 98).
  { replace 98 with (INR 98) by (rewrite (INR_IZR_INZ 98); reflexivity).
    apply le_INR. lia. }
  lra.
Qed.

Lemma partition_sum_cons (e : R) (E : list R) (T : R) :
  partition_sum (e :: E) T = exp (- e / T) + partition_sum E T.
Proof.
  unfold partition_sum. simpl. rewrite fold_left_partition.
  unfold partition_sum. lra.
Qed.

Lemma partition_sum_nonneg (E : list R) (T : R) : 0 <= partition_sum E T.
Proof.
  induction E as [| e E IH].
  - unfold partition_sum. simpl. lra.
  - rewrite partition_sum_cons. pose proof (exp_pos (- e / T)). lra.
Qed.

Lemma partition_sum_upper (E : list R) (T b : R) :
  Forall (fun e => - e / T <= b) E ->
  partition_sum E T <= INR (length E) * exp b.
Proof.
  intros HE. induction HE as [| e E He HE IH].
  - unfold partition_sum. simpl. lra.
  - rewrite partition_sum_cons. cbn [length]. rewrite S_INR.
    pose proof (exp_le _ _ He). lra.
Qed.

Lemma partition_sum_lower (E : list R) (T e0 : R) :
  In e0 E -> exp (- e0 / T) <= partition_sum E T.
Proof.
  induction E as [| e E IH]; intros Hin; [contradiction |].
  rewrite partition_sum_cons.
  destruct Hin as [-> | Hin].
  - pose proof (partition_sum_nonneg E T). lra.
  - specialize (IH Hin). pose proof (exp_pos (- e / T)). lra.
Qed.

Lemma free_energy_values (energy_eigenvalues : list R) :
  exists F,
    free_energy energy_eigenvalues = Ok (temperature_array, F) /\
    length F = length temperature_array /\
    forall i T,
      temperature_array !! i = Some T ->
      F !! i = Some (T * ln (partition_sum energy_eigenvalues T)).
Proof.
  unfold free_energy.
  destruct (for_each_indexed i_f_energy free_energy_array
              (fun st => z_partition_function st = 0)
              (fun _ T => T * ln (partition_sum energy_eigenvalues T))
              (free_energy_body energy_eigenvalues))
    with (xs := temperature_array)
         (st := {| z_partition_function := 0; i_f_energy := 0%Z;
                   free_energy_array := zeros (length temperature_array) |})
    as (st' & Hrun & _ & _ & Hl & Hin & _).
  - intros st T old Hz Hi Hold. unfold free_energy_body.
    rewrite Hz. fold (partition_sum energy_eigenvalues T).
    rewrite setitem_nonneg by (apply lookup_lt_Some in Hold; lia).
    cbn [Py.bind]. eexists. split; [reflexivity |].
    cbn [z_partition_function i_f_energy free_energy_array].
    repeat split.
  - reflexivity.
  - simpl. lia.
  - cbn [i_f_energy free_energy_array]. unfold zeros.
    rewrite repeat_length. simpl. lia.
  - rewrite Hrun. cbn [Py.bind]. exists (free_energy_array st').
    split; [reflexivity |].
    cbn [free_energy_array] in Hl. unfold zeros in Hl.
    rewrite repeat_length in Hl. split; [exact Hl |].
    intros i T HT.
    apply (Hin i T 0 HT). cbn [i_f_energy free_energy_array]. simpl.
    apply zeros_lookup. apply lookup_lt_Some in HT. exact HT.
Qed.

(** X10: [free_energy] does not raise: at each of the 99 temperatures from
    0.01 to 2 it writes [T ln Z], where the partition sum [Z] adds
    [exp(-E_j / T)] to [0.0] in the order of the spectrum and is started
    afresh at each temperature.  When every eigenvalue is at least -7 and
    one of them is at most 7, every exponent lies within [-700, 700], so
    that no term overflows and [Z] is at least [exp(-700)], a number that
    a double holds: the logarithm is taken of a positive number.  (Outside
    that range the sum can be [0.0] or infinite in doubles, and the entry
    written is infinite.) *)
Theorem free_energy_writes_T_ln_Z (energy_eigenvalues : list R) (e0 : R) :
  In e0 energy_eigenvalues -> e0 <= 7 ->
  Forall (fun e => - 7 <= e) energy_eigenvalues ->
  exists F,
    free_energy energy_eigenvalues = Ok (temperature_array, F) /\
    length F = 99%nat /\ length temperature_array = 99%nat /\
    temperature_array !! 0%nat = Some (1 / 100) /\
    temperature_array !! 98%nat = Some 2 /\
    forall i T,
      temperature_array !! i = Some T ->
      1 / 100 <= T <= 2 /\
      exp (- 700) <= partition_sum energy_eigenvalues T
                  <= INR (length energy_eigenvalues) * exp 700 /\
      F !! i = Some (T * ln (partition_sum energy_eigenvalues T)).
Proof.
  intros Hin He0 Hlow.
  destruct (free_energy_values energy_eigenvalues) as (F & Hrun & Hl & Hval).
  exists F. split; [exact Hrun |].
  rewrite temperature_array_length in Hl. split; [exact Hl |].
  split; [apply temperature_array_length |].
  split; [| split].
  - destruct (lookup_lt_is_Some_2 temperature_array 0) as [T HT];
      [rewrite temperature_array_length; lia |].
    rewrite HT. f_equal.
    apply temperature_array_lookup in HT. destruct HT as [_ ->].
    change (INR 0) with 0. lra.
  - destruct (lookup_lt_is_Some_2 temperature_array 98) as [T HT];
      [rewrite temperature_array_length; lia |].
    rewrite HT. f_equal.
    apply temperature_array_lookup in HT. destruct HT as [_ ->].
    rewrite (INR_IZR_INZ 98). change (IZR (Z.of_nat 98)) with 98. lra.
  - intros i T HT.
    pose proof (temperature_array_range i T HT) as HTr.
    assert (HT0 : 0 < T) by lra.
    assert (Hinv : 0 < / T <= 100).
    { split; [apply Rinv_0_lt_compat; exact HT0 |].
      replace 100 with (/ (1 / 100)) by lra.
      apply Rinv_le_contravar; lra. }
    split; [exact HTr |]. split; [split |].
    + apply Rle_trans with (exp (- e0 / T));
        [| apply partition_sum_lower; exact Hin].
      apply exp_le. unfold Rdiv.
      destruct (Rle_dec e0 0) as [Hneg | Hpos].
      * assert (0 <= - e0 * / T) by (apply Rmult_le_pos; lra). lra.
      * assert (e0 * / T <= 7 * 100)
          by (apply Rmult_le_compat; lra).
        lra.
    + apply partition_sum_upper.
      eapply Forall_impl; [exact Hlow |]. intros e He. simpl. unfold Rdiv.
      destruct (Rle_dec 0 e) as [Hpos | Hneg].
      * assert (0 <= e * / T) by (apply Rmult_le_pos; lra). lra.
      * assert (- e * / T <= 7 * 100)
          by (apply Rmult_le_compat; lra).
        lra.
    + exact (Hval i T HT).
Qed.

Lemma free_energy_writes_witness :
  In 1 [1; 2] /\ 1 <= 7 /\ Forall (fun e => - 7 <= e) [1; 2] /\
  exists F,
    free_energy [1; 2] = Ok (temperature_array, F) /\
    length F = 99%nat /\ length temperature_array = 99%nat /\
    temperature_array !! 0%nat = Some (1 / 100) /\
    temperature_array !! 98%nat = Some 2 /\
    forall i T,
      temperature_array !! i = Some T ->
      1 / 100 <= T <= 2 /\
      exp (- 700) <= partition_sum [1; 2] T <= INR (length [1; 2]) * exp 700 /\
      F !! i = Some (T * ln (partition_sum [1; 2] T)).
Proof.
  assert (Hin : In 1 [1; 2]) by (left; reflexivity).
  assert (H7 : 1 <= 7) by lra.
  assert (Hlow : Forall (fun e => - 7 <= e) [1; 2])
    by (repeat constructor; lra).
  split; [exact Hin |]. split; [exact H7 |]. split; [exact Hlow |].
  exact (free_energy_writes_T_ln_Z [1; 2] 1 Hin H7 Hlow).
Defined.

(** *** [hermite_pol_coeff] *)

Lemma hermite_value_pos (x_position norm : R) (n : Z) :
  0 < hermite_value x_position norm n.
Proof.
  unfold hermite_value, Rpower.
  repeat apply Rmult_lt_0_compat; apply exp_pos.
Qed.

Lemma Rpower_half_cancel (x : R) :
  0 < x -> Rpower x (- 1 / 2) * sqrt x = 1.
Proof.
  intros Hx. rewrite <- (Rpower_sqrt x Hx), <- Rpower_plus.
  replace (- 1 / 2 + / 2) with 0 by lra. apply Rpower_O. exact Hx.
Qed.

Lemma hermite_value_succ (x_position norm : R) (n : nat) :
  hermite_value x_position norm (Z.of_nat (S n)) * sqrt (2 * INR (S n))
  = hermite_value x_position norm (Z.of_nat n).
Proof.
  unfold hermite_value.
  assert (HS : 0 < INR (S n)) by (apply lt_0_INR; lia).
  assert (Hf : 0 < INR (fact n)) by (apply lt_0_INR; apply lt_O_fact).
  rewrite !Nat2Z.id, Nat2Z.inj_succ, succ_IZR.
  replace (- (IZR (Z.of_nat n) + 1) / 2)
    with (- IZR (Z.of_nat n) / 2 + - 1 / 2) by lra.
  rewrite Rpower_plus.
  change (fact (S n)) with (S n * fact n)%nat. rewrite mult_INR.
  rewrite <- (Rpower_mult_distr (INR (S n)) (INR (fact n))) by assumption.
  rewrite sqrt_mult by lra.
  pose proof (Rpower_half_cancel 2 ltac:(lra)) as H2.
  pose proof (Rpower_half_cancel (INR (S n)) HS) as Hn.
  set (P := Rpower (PI * norm * norm) (- 1 / 4)).
  set (X := Rpower 2 (- IZR (Z.of_nat n) / 2)).
  set (Y := Rpower (INR (fact n)) (- 1 / 2)).
  set (G := exp (- x_position * x_position / (2 * norm * norm))).
  transitivity (P * X * Y * G * (Rpower 2 (- 1 / 2) * sqrt 2)
                * (Rpower (INR (S n)) (- 1 / 2) * sqrt (INR (S n))));
    [ring |].
  rewrite H2, Hn. ring.
Qed.

Lemma hermite_value_0 (x_position norm : R) :
  norm <> 0 ->
  hermite_value x_position norm 0
  = Rpower (PI * norm * norm) (- 1 / 4)
    * exp (- x_position * x_position / (2 * norm * norm)).
Proof.
  intros Hn. unfold hermite_value. simpl.
  replace (- 0 / 2) with 0 by lra.
  rewrite (Rpower_O 2) by lra.
  replace (Rpower 1 (- 1 / 2)) with 1; [ring |].
  unfold Rpower. rewrite ln_1, Rmult_0_r, exp_0. reflexivity.
Qed.

Lemma hermite_value_decreasing (x_position norm : R) (n : nat) :
  hermite_value x_position norm (Z.of_nat (S n))
  <= hermite_value x_position norm (Z.of_nat n).
Proof.
  pose proof (hermite_value_succ x_position norm n) as Hs.
  pose proof (hermite_value_pos x_position norm (Z.of_nat (S n))) as Hp.
  assert (H1 : 1 <= sqrt (2 * INR (S n))).
  { rewrite <- sqrt_1. apply sqrt_le_1_alt.
    assert (1 <= INR (S n)).
    { replace 1 with (INR 1) by reflexivity. apply le_INR. lia. }
    lra. }
  rewrite <- Hs.
  rewrite <- (Rmult_1_r (hermite_value x_position norm (Z.of_nat (S n)))) at 1.
  apply Rmult_le_compat_l; lra.
Qed.



(** *** [log_corr_funct_analytic] *)

Lemma log_corr_inner_loop (E : list R) (tau : R) :
  forall ds st old,
    (0 <= i_tau st)%Z ->
    correlation_funct st !! Z.to_nat (i_tau st) = Some old ->
    (0 <= j_energy st)%Z ->
    (Z.to_nat (j_energy st) + length ds <= length E)%nat ->
    for_each ds (log_corr_inner E tau) st
    = Ok {| i_tau := i_tau st;
            j_energy := (j_energy st + Z.of_nat (length ds))%Z;
            correlation_funct :=
              <[Z.to_nat (i_tau st) :=
                  old + fold_right Rplus 0
                          (zip_with
                             (fun rho e =>
                                rho * (e - default 0 (E !! 0%nat))
                                * exp (- (e - default 0 (E !! 0%nat)) * tau))
                             ds (drop (Z.to_nat (j_energy st)) E))]>
                (correlation_funct st) |}.
Proof.
  induction ds as [| rho ds IH]; intros st old Hi Hold Hj Hlen.
  - destruct st as [i j cf]. simpl in *. f_equal. f_equal; [lia |].
    rewrite Rplus_0_r. symmetry. apply list_insert_id. exact Hold.
  - simpl in Hlen.
    destruct (lookup_lt_is_Some_2 E (Z.to_nat (j_energy st))) as [ej Hej];
      [lia |].
    destruct (lookup_lt_is_Some_2 E 0%nat) as [e0 He0]; [lia |].
    cbn [for_each]. unfold log_corr_inner at 1.
    rewrite (getitem_nonneg (correlation_funct st)) by lia. rewrite Hold.
    cbn [Py.bind].
    rewrite !(getitem_nonneg E (j_energy st)) by lia. rewrite Hej.
    cbn [Py.bind].
    rewrite !(getitem_nonneg E 0) by lia. change (Z.to_nat 0) with 0%nat.
    rewrite He0. cbn [Py.bind].
    rewrite setitem_nonneg
      by (apply lookup_lt_Some in Hold; lia).
    cbn [Py.bind].
    rewrite (IH _ (old + rho * (ej - e0) * exp (- (ej - e0) * tau)));
      cbn [i_tau j_energy correlation_funct]; try lia.
    + f_equal. f_equal; [simpl length; lia |].
      rewrite list_insert_insert_eq. f_equal.
      rewrite (drop_S E ej (Z.to_nat (j_energy st)) Hej).
      replace (Z.to_nat (j_energy st + 1)) with (S (Z.to_nat (j_energy st)))
        by lia.
      simpl. rewrite He0. simpl. lra.
    + apply list_lookup_insert_eq. apply lookup_lt_Some in Hold. exact Hold.
Qed.

Lemma log_corr_sums (energy_density tau_array energy_eigenvalues : list R) :
  (length energy_density <= length energy_eigenvalues)%nat ->
  exists st,
    for_each tau_array (log_corr_outer energy_density energy_eigenvalues)
      {| i_tau := 0%Z; j_energy := 0%Z;
         correlation_funct := zeros (length tau_array) |} = Ok st /\
    length (correlation_funct st) = length tau_array /\
    forall i tau,
      tau_array !! i = Some tau ->
      correlation_funct st !! i
      = Some (gap_weighted_sum energy_density energy_eigenvalues tau).
Proof.
  intros Hlen.
  destruct (for_each_indexed i_tau correlation_funct
              (fun st => j_energy st = 0%Z)
              (fun old tau =>
                 old + gap_weighted_sum energy_density energy_eigenvalues tau)
              (log_corr_outer energy_density energy_eigenvalues))
    with (xs := tau_array)
         (st := {| i_tau := 0%Z; j_energy := 0%Z;
                   correlation_funct := zeros (length tau_array) |})
    as (st' & Hrun & _ & _ & Hl & Hin & _).
  - intros st tau old Hj Hi Hold. unfold log_corr_outer.
    rewrite (log_corr_inner_loop energy_eigenvalues tau energy_density st old
               Hi Hold) by (rewrite Hj; simpl; lia).
    cbn [Py.bind i_tau j_energy correlation_funct].
    eexists. split; [reflexivity |]. cbn [i_tau j_energy correlation_funct].
    split; [reflexivity |]. split; [reflexivity |].
    rewrite Hj. reflexivity.
  - reflexivity.
  - simpl. lia.
  - cbn [i_tau correlation_funct]. unfold zeros. rewrite repeat_length.
    simpl. lia.
  - exists st'. split; [exact Hrun |].
    cbn [correlation_funct] in Hl. unfold zeros in Hl.
    rewrite repeat_length in Hl. split; [exact Hl |].
    intros i tau Htau.
    specialize (Hin i tau 0 Htau). cbn [i_tau correlation_funct] in Hin.
    simpl in Hin. rewrite Hin.
    + f_equal. lra.
    + apply zeros_lookup. apply lookup_lt_Some in Htau. exact Htau.
Qed.

Lemma gap_weighted_sum_bounds (density E : list R) (tau e0 G : R) :
  Forall (fun rho => 0 <= rho) density ->
  Forall (fun e => e0 <= e <= e0 + G) E ->
  0 <= fold_right Rplus 0
         (zip_with (fun rho e => rho * (e - e0) * exp (- (e - e0) * tau))
            density E)
    <= G * fold_right Rplus 0
             (zip_with (fun rho e => rho * exp (- (e - e0) * tau))
                density E).
Proof.
  intros Hrho. revert E.
  induction Hrho as [| rho density Hr Hrho IH]; intros E HE.
  - simpl. lra.
  - destruct HE as [| e E He HE]; simpl; [lra |].
    specialize (IH E HE).
    pose proof (exp_pos (- (e - e0) * tau)) as Hexp.
    assert (H1 : 0 <= rho * exp (- (e - e0) * tau))
      by (apply Rmult_le_pos; lra).
    assert (H2 : 0 <= (e - e0) * (rho * exp (- (e - e0) * tau)))
      by (apply Rmult_le_pos; lra).
    assert (H3 : (e - e0) * (rho * exp (- (e - e0) * tau))
                 <= G * (rho * exp (- (e - e0) * tau)))
      by (apply Rmult_le_compat_r; lra).
    replace (rho * (e - e0) * exp (- (e - e0) * tau))
      with ((e - e0) * (rho * exp (- (e - e0) * tau))) by ring.
    lra.
Qed.

Lemma correlator_pos (density E : list R) (tau rho0 : R) :
  density !! 0%nat = Some rho0 -> 0 < rho0 -> E <> [] ->
  Forall (fun rho => 0 <= rho) density ->
  0 < correlator density E tau.
Proof.
  intros H0 Hpos HE Hrho. unfold correlator.
  destruct density as [| rho density]; [discriminate |].
  destruct E as [| e E]; [contradiction |].
  simpl in H0. inversion H0. subst rho. simpl.
  inversion Hrho as [| ? ? _ Hrest]. subst.
  assert (Hsum : forall ds Es, Forall (fun rho => 0 <= rho) ds ->
             0 <= fold_right Rplus 0
                    (zip_with (fun rho e0 => rho * exp (- (e0 - e) * tau))
                       ds Es)).
  { intros ds Es Hds. revert Es.
    induction Hds as [| d ds Hd Hds IH]; intros Es; simpl; [lra |].
    destruct Es as [| e' Es]; simpl; [lra |].
    specialize (IH Es). pose proof (exp_pos (- (e' - e) * tau)).
    assert (0 <= d * exp (- (e' - e) * tau)) by (apply Rmult_le_pos; lra).
    lra. }
  specialize (Hsum density E Hrest).
  pose proof (exp_pos (- (e - e) * tau)).
  assert (0 < rho0 * exp (- (e - e) * tau))
    by (apply Rmult_lt_0_compat; assumption).
  lra.
Qed.

(** X14: Fed with the correlation function that [corr_functs_analytic]
    returns for the same matrix elements, times and eigenvalues, the
    function returns one value per time, and each value is an average of
    the gaps [E_j - E_0]: with non-negative matrix elements, the first
    of them positive, and all gaps between 0 and [G], every value lies
    between 0 and [G]. *)
Theorem log_corr_funct_analytic_is_gap_average
    (energy_density tau_array energy_eigenvalues cf : list R) (G rho0 : R) :
  (length energy_density <= length energy_eigenvalues)%nat ->
  Forall (fun rho => 0 <= rho) energy_density ->
  energy_density !! 0%nat = Some rho0 -> 0 < rho0 ->
  Forall (fun e => default 0 (energy_eigenvalues !! 0%nat) <= e
                   <= default 0 (energy_eigenvalues !! 0%nat) + G)
    energy_eigenvalues ->
  corr_functs_analytic energy_density tau_array energy_eigenvalues = Ok cf ->
  exists ld,
    log_corr_funct_analytic energy_density tau_array energy_eigenvalues cf
    = Value (Ok ld) /\
    length ld = length tau_array /\
    Forall (fun x => 0 <= x <= G) ld.
Proof.
  intros Hlen Hrho H0 Hpos HE Hcf.
  destruct (corr_values energy_density tau_array energy_eigenvalues Hlen)
    as (cf' & Hcf' & Hlcf & Hvcf).
  rewrite Hcf in Hcf'. inversion Hcf'. subst cf'.
  destruct (log_corr_sums energy_density tau_array energy_eigenvalues Hlen)
    as (st & Hrun & Hlst & Hvst).
  unfold log_corr_funct_analytic. rewrite Hrun. unfold np_divide.
  rewrite Hlst, Hlcf, Nat.eqb_refl.
  eexists. split; [reflexivity |].
  split; [rewrite length_zip_with; lia |].
  assert (HEne : energy_eigenvalues <> []).
  { intros ->. destruct energy_density; [discriminate | simpl in Hlen; lia]. }
  apply Forall_forall. intros x Hx.
  apply list_elem_of_lookup in Hx. destruct Hx as [i Hi].
  apply lookup_zip_with_Some in Hi. destruct Hi as (num & c & -> & Hnum & Hc).
  destruct (lookup_lt_is_Some_2 tau_array i) as [tau Htau];
    [rewrite <- Hlst; apply lookup_lt_Some in Hnum; exact Hnum |].
  rewrite (Hvst i tau Htau) in Hnum. inversion Hnum. subst num.
  rewrite (Hvcf i tau Htau) in Hc. inversion Hc. subst c.
  pose proof (correlator_pos energy_density energy_eigenvalues tau rho0
                H0 Hpos HEne Hrho) as Hcpos.
  pose proof (gap_weighted_sum_bounds energy_density energy_eigenvalues tau
                _ G Hrho HE) as [Hlo Hhi].
  fold (gap_weighted_sum energy_density energy_eigenvalues tau) in Hlo, Hhi.
  fold (correlator energy_density energy_eigenvalues tau) in Hhi.
  split.
  - apply Rmult_le_pos; [exact Hlo |].
    left. apply Rinv_0_lt_compat. exact Hcpos.
  - apply (Rmult_le_reg_r (correlator energy_density energy_eigenvalues tau));
      [exact Hcpos |].
    unfold Rdiv. rewrite Rmult_assoc, Rinv_l by lra. lra.
Qed.

Lemma log_corr_funct_analytic_witness :
  (length [1; 2] <= length [0; 3; 5])%nat /\
  Forall (fun rho => 0 <= rho) [1; 2] /\
  [1; 2] !! 0%nat = Some 1 /\ 0 < 1 /\
  Forall (fun e => default 0 ([0; 3; 5] !! 0%nat) <= e
                   <= default 0 ([0; 3; 5] !! 0%nat) + 5) [0; 3; 5] /\
  exists cf ld,
    corr_functs_analytic [1; 2] [0; 1] [0; 3; 5] = Ok cf /\
    log_corr_funct_analytic [1; 2] [0; 1] [0; 3; 5] cf = Value (Ok ld) /\
    length ld = length [0; 1] /\
    Forall (fun x => 0 <= x <= 5) ld.
Proof.
  assert (Hlen : (length [1; 2] <= length [0; 3; 5])%nat) by (simpl; lia).
  assert (Hrho : Forall (fun rho => 0 <= rho) [1; 2])
    by (repeat constructor; lra).
  assert (H0 : [1; 2] !! 0%nat = Some 1) by reflexivity.
  assert (Hpos : 0 < 1) by lra.
  assert (HE : Forall (fun e => default 0 ([0; 3; 5] !! 0%nat) <= e
                              <= default 0 ([0; 3; 5] !! 0%nat) + 5)
                 [0; 3; 5]) by (repeat constructor; simpl; lra).
  split; [exact Hlen |]. split; [exact Hrho |]. split; [exact H0 |].
  split; [exact Hpos |]. split; [exact HE |].
  destruct (corr_values [1; 2] [0; 1] [0; 3; 5] Hlen) as (cf & Hrun & _).
  exists cf.
  destruct (log_corr_funct_analytic_is_gap_average [1; 2] [0; 1] [0; 3; 5]
              cf 5 1 Hlen Hrho H0 Hpos HE Hrun) as (ld & Hld).
  exists ld. split; [exact Hrun | exact Hld].
Defined.

End DiagFunctionsFacts.

(** ** The matrices of the diagonalisation *)

Module DiagMatrixFacts.
Import DiagFunctions DiagMatrix PyFacts.
Local Open Scope R_scope.

Lemma shaped_row (rows cols : nat) (m : matrix) (i : Z) :
  shaped rows cols m -> (0 <= i < Z.of_nat rows)%Z ->
  exists row, m !! Z.to_nat i = Some row /\ length row = cols /\
              getitem m i = Ok row.
Proof.
  intros [Hl Hrows] Hi.
  destruct (lookup_lt_is_Some_2 m (Z.to_nat i)) as [row Hrow]; [lia |].
  exists row. split; [exact Hrow |]. split.
  - exact (proj1 (Forall_lookup _ _) Hrows _ _ Hrow).
  - rewrite getitem_nonneg by lia. rewrite Hrow. reflexivity.
Qed.

Lemma getitem2_represents (rows cols : nat) (m : matrix) (e : Z -> Z -> R)
    (i j : Z) :
  represents rows cols m e ->
  (0 <= i < Z.of_nat rows)%Z -> (0 <= j < Z.of_nat cols)%Z ->
  getitem2 m i j = Ok (e i j).
Proof.
  intros [Hs He] Hi Hj. unfold getitem2.
  destruct (shaped_row rows cols m i Hs Hi) as (row & Hrow & Hlen & ->).
  cbn [Py.bind]. specialize (He i j Hi Hj). unfold at2 in He.
  rewrite Hrow in He. rewrite getitem_nonneg by lia. rewrite He. reflexivity.
Qed.

Lemma getitem2_column_out (rows cols : nat) (m : matrix) (i j : Z) :
  shaped rows cols m ->
  (0 <= i < Z.of_nat rows)%Z -> (Z.of_nat cols <= j)%Z ->
  getitem2 m i j = IndexError j.
Proof.
  intros Hs Hi Hj. unfold getitem2.
  destruct (shaped_row rows cols m i Hs Hi) as (row & Hrow & Hlen & ->).
  cbn [Py.bind]. apply getitem_past_end. lia.
Qed.

Lemma setitem2_represents (rows cols : nat) (m : matrix) (e : Z -> Z -> R)
    (i j : Z) (v : R) :
  represents rows cols m e ->
  (0 <= i < Z.of_nat rows)%Z -> (0 <= j < Z.of_nat cols)%Z ->
  exists m',
    setitem2 m i j v = Ok m' /\ represents rows cols m' (upd e i j v).
Proof.
  intros [Hs He] Hi Hj. unfold setitem2.
  destruct (shaped_row rows cols m i Hs Hi) as (row & Hrow & Hlen & ->).
  cbn [Py.bind]. rewrite setitem_nonneg by lia. cbn [Py.bind].
  destruct Hs as [Hl Hrows].
  rewrite setitem_nonneg by lia.
  eexists. split; [reflexivity |]. split.
  - split; [rewrite length_insert; exact Hl |].
    apply Forall_insert; [exact Hrows |].
    rewrite length_insert. exact Hlen.
  - intros r s Hr Hc. unfold at2, upd.
    destruct (Z.eqb_spec r i) as [-> | Hri].
    + rewrite list_lookup_insert_eq by lia.
      destruct (Z.eqb_spec s j) as [-> | Hsj]; simpl.
      * apply list_lookup_insert_eq. lia.
      * rewrite list_lookup_insert_ne by lia.
        specialize (He i s Hr Hc). unfold at2 in He.
        rewrite Hrow in He. exact He.
    + simpl. rewrite list_lookup_insert_ne by lia. exact (He r s Hr Hc).
Qed.

Lemma represents_ext (rows cols : nat) (m : matrix) (e e' : Z -> Z -> R) :
  represents rows cols m e ->
  (forall r s,
      (0 <= r < Z.of_nat rows)%Z -> (0 <= s < Z.of_nat cols)%Z ->
      e r s = e' r s) ->
  represents rows cols m e'.
Proof.
  intros [Hs He] Hext. split; [exact Hs |].
  intros r s Hr Hc. rewrite <- (Hext r s Hr Hc). exact (He r s Hr Hc).
Qed.

Lemma zeros2_represents (rows cols : nat) :
  represents rows cols (zeros2 rows cols) (fun _ _ => 0).
Proof.
  unfold zeros2. split.
  - split; [apply repeat_length |].
    apply Forall_forall. intros row Hrow.
    apply list_elem_of_In in Hrow. apply repeat_spec in Hrow. subst row.
    unfold zeros. apply repeat_length.
  - intros r s Hr Hc. unfold at2.
    destruct (lookup_lt_is_Some_2 (repeat (zeros cols) rows) (Z.to_nat r))
      as [row Hrow]; [rewrite repeat_length; lia |].
    rewrite Hrow. apply list_elem_of_lookup_2 in Hrow.
    apply list_elem_of_In in Hrow. apply repeat_spec in Hrow. subst row.
    apply DiagFunctionsFacts.zeros_lookup. lia.
Qed.

Lemma upd_same (e : Z -> Z -> R) (i j : Z) (v : R) : upd e i j v i j = v.
Proof. unfold upd. rewrite !Z.eqb_refl. reflexivity. Qed.

Section Hamiltonian.
Variables x_potential_minimum freq_har_osc : R.

Abbreviation diagonal := (DiagMatrix.diagonal x_potential_minimum freq_har_osc).
Abbreviation off2 := (DiagMatrix.off2 x_potential_minimum freq_har_osc).
Abbreviation off4 := (DiagMatrix.off4 freq_har_osc).
Abbreviation entry := (DiagMatrix.entry x_potential_minimum freq_har_osc).
Abbreviation hamiltonian_body :=
  (DiagMatrix.hamiltonian_body x_potential_minimum freq_har_osc).
Abbreviation hamiltonian_matrix :=
  (DiagMatrix.hamiltonian_matrix x_potential_minimum freq_har_osc).

Lemma entry_step (k r s : Z) :
  (0 <= k)%Z -> (0 <= r)%Z -> (0 <= s)%Z ->
  upd (upd (upd (upd (upd (entry k) k k (diagonal k))
                   k (k + 2) (off2 k))
              (k + 2) k (off2 k))
         k (k + 4) (off4 k))
    (k + 4) k (off4 k) r s
  = entry (k + 1) r s.
Proof.
  intros Hk Hr Hs. unfold upd, DiagMatrix.entry, band.
  pose proof (Z.min_spec r s) as Hmin.
  pose proof (Z.abs_spec (r - s)) as Habs.
  revert Hmin Habs.
  generalize (Z.min r s) (Z.abs (r - s)). intros lo d Hmin Habs.
  repeat (match goal with
          | |- context [Z.eqb ?x ?y] => destruct (Z.eqb_spec x y)
          | |- context [Z.ltb ?x ?y] => destruct (Z.ltb_spec x y)
          end; cbn [andb]; try (exfalso; lia));
    try reflexivity;
    try (assert (Hlo : lo = k) by lia; rewrite Hlo; reflexivity).
Qed.

Lemma hamiltonian_body_represents (N : nat) (m : matrix) (k : Z) :
  (0 <= k)%Z -> (k + 4 < Z.of_nat N)%Z ->
  represents N N m (entry k) ->
  exists m',
    hamiltonian_body m k = Ok m' /\ represents N N m' (entry (k + 1)).
Proof.
  intros Hk HN H0. unfold DiagMatrix.hamiltonian_body.
  destruct (setitem2_represents N N m _ k k (diagonal k) H0)
    as (m1 & -> & H1); [lia | lia |]. cbn [Py.bind].
  destruct (setitem2_represents N N m1 _ k (k + 2) (off2 k) H1)
    as (m2 & -> & H2); [lia | lia |]. cbn [Py.bind].
  rewrite (getitem2_represents N N m2 _ k (k + 2) H2) by lia.
  cbn [Py.bind]. rewrite upd_same.
  destruct (setitem2_represents N N m2 _ (k + 2) k (off2 k) H2)
    as (m3 & -> & H3); [lia | lia |]. cbn [Py.bind].
  destruct (setitem2_represents N N m3 _ k (k + 4) (off4 k) H3)
    as (m4 & -> & H4); [lia | lia |]. cbn [Py.bind].
  rewrite (getitem2_represents N N m4 _ k (k + 4) H4) by lia.
  cbn [Py.bind]. rewrite upd_same.
  destruct (setitem2_represents N N m4 _ (k + 4) k (off4 k) H4)
    as (m5 & -> & H5); [lia | lia |].
  exists m5. split; [reflexivity |].
  apply (represents_ext N N m5 _ _ H5).
  intros r s Hr Hs. apply entry_step; lia.
Qed.

Lemma hamiltonian_loop_represents (N k : nat) :
  (Z.of_nat k + 4 <= Z.of_nat N)%Z ->
  exists m,
    for_each (range 0 (Z.of_nat k)) hamiltonian_body (zeros2 N N) = Ok m /\
    represents N N m (entry (Z.of_nat k)).
Proof.
  induction k as [| k IH]; intros HN.
  - exists (zeros2 N N). split; [reflexivity |].
    apply (represents_ext N N _ _ _ (zeros2_represents N N)).
    intros r s Hr Hs. unfold DiagMatrix.entry.
    destruct (Z.ltb_spec (Z.min r s) (Z.of_nat 0)); [lia | reflexivity].
  - destruct IH as (m & Hrun & Hm); [lia |].
    destruct (hamiltonian_body_represents N m (Z.of_nat k)) as (m' & Hb & Hm');
      [lia | lia | exact Hm |].
    exists m'. rewrite Nat2Z.inj_succ. unfold Z.succ.
    rewrite DiagLoop.range_snoc by lia.
    rewrite for_each_app, Hrun. cbn [Py.bind for_each]. rewrite Hb.
    split; [reflexivity | exact Hm'].
Qed.

Lemma hamiltonian_matrix_represents (n_dim : Z) :
  (0 <= n_dim)%Z ->
  exists M,
    hamiltonian_matrix n_dim = Value (Ok M) /\
    represents (Z.to_nat (n_dim + 4)) (Z.to_nat (n_dim + 4)) M (entry n_dim).
Proof.
  intros Hn. unfold DiagMatrix.hamiltonian_matrix.
  destruct (Z.ltb_spec n_dim 0); [lia |].
  destruct (hamiltonian_loop_represents (Z.to_nat (n_dim + 4))
              (Z.to_nat n_dim)) as (M & Hrun & HM); [lia |].
  rewrite Z2Nat.id in Hrun, HM by lia.
  exists M. rewrite Hrun. split; [reflexivity | exact HM].
Qed.



End Hamiltonian.



(** *** The matrix elements [energy_densities] *)

Lemma getitem2_in (rows cols : nat) (m : matrix) (i j : Z) :
  shaped rows cols m ->
  (0 <= i < Z.of_nat rows)%Z -> (0 <= j < Z.of_nat cols)%Z ->
  exists x, getitem2 m i j = Ok x.
Proof.
  intros Hs Hi Hj. unfold getitem2.
  destruct (shaped_row rows cols m i Hs Hi) as (row & Hrow & Hlen & ->).
  cbn [Py.bind].
  destruct (lookup_lt_is_Some_2 row (Z.to_nat j)) as [x Hx]; [lia |].
  exists x. rewrite getitem_nonneg by lia. rewrite Hx. reflexivity.
Qed.

Lemma map_seq_from {A} (f : nat -> A) (s n : nat) :
  map f (seq s n) = map (fun k => f (s + k)%nat) (seq 0 n).
Proof.
  revert s. induction n as [| n IH]; intros s; [reflexivity |].
  cbn [seq map]. f_equal; [f_equal; lia |].
  rewrite IH. rewrite <- (seq_shift n 0), map_map.
  apply map_ext. intros k. f_equal. lia.
Qed.

Lemma range_split (c n : Z) :
  (0 <= c < n)%Z -> range 0 n = range 0 c ++ c :: range (c + 1) n.
Proof.
  intros Hc. unfold range.
  replace (Z.to_nat (n - 0))
    with (Z.to_nat (c - 0) + S (Z.to_nat (n - (c + 1))))%nat by lia.
  rewrite seq_app, map_app. f_equal. cbn [seq map]. f_equal; [lia |].
  rewrite map_seq_from. apply map_ext. intros k. lia.
Qed.

Section Densities.
Variable freq_har_osc : R.
Variables (rows cols : nat) (energy_eigenvectors : matrix) (n_dim : Z).
Hypothesis Hshaped : shaped rows cols energy_eigenvectors.
Hypothesis Hrows : (n_dim <= Z.of_nat rows)%Z.

Abbreviation densities_body :=
  (DiagMatrix.densities_body freq_har_osc energy_eigenvectors n_dim).
Abbreviation energy_densities :=
  (DiagMatrix.energy_densities freq_har_osc energy_eigenvectors n_dim).

Lemma density_inner_ok (n k : Z) (acc : R * R * R) :
  (0 <= k < n_dim)%Z -> (0 <= n < Z.of_nat cols)%Z ->
  exists acc', density_inner energy_eigenvectors n_dim n acc k = Ok acc'.
Proof.
  intros Hk Hn. unfold density_inner. destruct acc as [[c_n d_n] e_n].
  repeat match goal with
         | |- context [getitem2 energy_eigenvectors ?i ?j] =>
             let x := fresh "x" in
             let Hx := fresh "Hx" in
             destruct (getitem2_in rows cols energy_eigenvectors i j Hshaped)
               as [x Hx]; [lia | lia |]; rewrite Hx; cbn [Py.bind]
         end.
  eexists. reflexivity.
Qed.

Lemma density_inner_loop_ok (n : Z) (ks : list Z) :
  (0 <= n < Z.of_nat cols)%Z ->
  Forall (fun k => (0 <= k < n_dim)%Z) ks ->
  forall acc,
  exists acc',
    for_each ks (density_inner energy_eigenvectors n_dim n) acc = Ok acc'.
Proof.
  intros Hn Hks. induction Hks as [| k ks Hk Hks IH]; intros acc.
  - exists acc. reflexivity.
  - destruct (density_inner_ok n k acc Hk Hn) as [acc1 H1].
    destruct (IH acc1) as [acc2 H2].
    exists acc2. cbn [for_each]. rewrite H1. exact H2.
Qed.

Lemma range_bounds (n : Z) :
  Forall (fun k => (0 <= k < n)%Z) (range 0 n).
Proof.
  apply Forall_forall. intros k Hk.
  apply list_elem_of_lookup in Hk. destruct Hk as [i Hi].
  exact (range_lookup_lt 0 n i k Hi).
Qed.

Lemma density_inner_loop_raises (acc : R * R * R) :
  (Z.of_nat cols < n_dim)%Z ->
  for_each (range 0 n_dim)
    (density_inner energy_eigenvectors n_dim (Z.of_nat cols)) acc
  = IndexError (Z.of_nat cols).
Proof.
  intros Hc. rewrite (range_split 0 n_dim) by lia.
  change (range 0 0) with (@nil Z). cbn [app for_each].
  unfold density_inner at 1. destruct acc as [[c_n d_n] e_n].
  destruct cols as [| cols'] eqn:Hcols.
  - rewrite (getitem2_column_out rows 0 energy_eigenvectors) by
      (try exact Hshaped; lia).
    reflexivity.
  - destruct (getitem2_in rows (S cols') energy_eigenvectors
                (Z.min (0 + 1) (n_dim - 1)) 0 Hshaped) as [x1 ->];
      [lia | lia |]. cbn [Py.bind].
    destruct (getitem2_in rows (S cols') energy_eigenvectors
                (Z.max (0 - 1) 0) 0 Hshaped) as [x2 ->];
      [lia | lia |]. cbn [Py.bind].
    rewrite (getitem2_column_out rows (S cols') energy_eigenvectors) by
      (try exact Hshaped; lia).
    reflexivity.
Qed.

Lemma even_powers_nonneg (x y : R) :
  0 <= x ^ 2 * y ^ 2 /\ 0 <= x ^ 4 * y ^ 2 /\ 0 <= x ^ 6 * y ^ 2.
Proof.
  pose proof (pow2_ge_0 x). pose proof (pow2_ge_0 y).
  pose proof (pow2_ge_0 (x ^ 2)). pose proof (pow2_ge_0 (x ^ 3)).
  replace (x ^ 4) with ((x ^ 2) ^ 2) by ring.
  replace (x ^ 6) with ((x ^ 3) ^ 2) by ring.
  repeat split; apply Rmult_le_pos; assumption.
Qed.

Lemma densities_body_ok (m : matrix) (e : Z -> Z -> R) (n : Z) :
  (0 <= n < n_dim)%Z -> (n < Z.of_nat cols)%Z ->
  represents 3 (Z.to_nat n_dim) m e -> (forall r s, 0 <= e r s) ->
  exists m' e',
    densities_body m n = Ok m' /\
    represents 3 (Z.to_nat n_dim) m' e' /\ (forall r s, 0 <= e' r s).
Proof.
  intros Hn Hc Hm He. unfold DiagMatrix.densities_body.
  destruct (density_inner_loop_ok n (range 0 n_dim) ltac:(lia)
              (range_bounds n_dim) (0, 0, 0)) as [[[c_n d_n] e_n] ->].
  cbn [Py.bind].
  destruct (even_powers_nonneg (c_norm_coeff freq_har_osc) c_n) as (Hc2 & _).
  destruct (even_powers_nonneg (c_norm_coeff freq_har_osc) d_n)
    as (_ & Hd4 & _).
  destruct (even_powers_nonneg (c_norm_coeff freq_har_osc) e_n)
    as (_ & _ & He6).
  destruct (setitem2_represents 3 (Z.to_nat n_dim) m e 0 n
              (c_norm_coeff freq_har_osc ^ 2 * c_n ^ 2) Hm)
    as (m1 & -> & H1); [lia | lia |]. cbn [Py.bind].
  destruct (setitem2_represents 3 (Z.to_nat n_dim) m1 _ 1 n
              (c_norm_coeff freq_har_osc ^ 4 * d_n ^ 2) H1)
    as (m2 & -> & H2); [lia | lia |]. cbn [Py.bind].
  destruct (setitem2_represents 3 (Z.to_nat n_dim) m2 _ 2 n
              (c_norm_coeff freq_har_osc ^ 6 * e_n ^ 2) H2)
    as (m3 & -> & H3); [lia | lia |].
  eexists. eexists. split; [reflexivity |]. split; [exact H3 |].
  intros r s. unfold upd.
  repeat match goal with
         | |- context [(?x && ?y)%bool] => destruct (x && y)%bool
         end; auto.
Qed.

Lemma densities_loop_ok (ns : list Z) :
  Forall (fun n => (0 <= n < n_dim)%Z /\ (n < Z.of_nat cols)%Z) ns ->
  forall m e,
    represents 3 (Z.to_nat n_dim) m e -> (forall r s, 0 <= e r s) ->
    exists m' e',
      for_each ns densities_body m = Ok m' /\
      represents 3 (Z.to_nat n_dim) m' e' /\ (forall r s, 0 <= e' r s).
Proof.
  intros Hns. induction Hns as [| n ns [Hn Hc] Hns IH]; intros m e Hm He.
  - exists m, e. split; [reflexivity |]. split; assumption.
  - destruct (densities_body_ok m e n Hn Hc Hm He) as (m1 & e1 & H1 & Hm1 & He1).
    destruct (IH m1 e1 Hm1 He1) as (m2 & e2 & H2 & Hm2 & He2).
    exists m2, e2. cbn [for_each]. rewrite H1. cbn [Py.bind].
    split; [exact H2 |]. split; assumption.
Qed.


End Densities.


End DiagMatrixFacts.

(** ** The streamline evolution, pass after pass *)

Module StreamlineEvolution.
Import Streamline PyFacts.
Local Open Scope R_scope.

Section Facts.

Variables (dtau x_potential_minimum : R).
Variable ansatz_instanton_conf : list R -> list R -> list R.
Variable return_action : list R -> R.
Variable find_instantons : list R -> Z -> R -> Z * Z * list R * list R.

Abbreviation record := (Streamline.record x_potential_minimum).
Abbreviation iteration :=
  (Streamline.iteration dtau x_potential_minimum return_action
     find_instantons).
Abbreviation functional_gradient :=
  (Streamline.functional_gradient dtau x_potential_minimum).
Abbreviation streamline_method_iilm :=
  (Streamline.streamline_method_iilm dtau x_potential_minimum
     ansatz_instanton_conf return_action find_instantons).

(** What one call of the recording step does to the two files. *)
Lemma record_writes (i_s : Z) (current_action : R)
    (pos_root neg_root tw aw : list R) (w : list R * list R) :
  record i_s current_action pos_root neg_root tw aw = Ok w ->
  (w = (tw, aw) \/
   exists t a, 0 <= t /\ w = (tw ++ [t], aw ++ [a]) /\
               (60000 < i_s)%Z /\ (i_s mod 20 = 0)%Z).
Proof.
  unfold Streamline.record.
  destruct (Z.ltb_spec 60000 i_s) as [Hlate |]; cbn [andb];
    [| intros Hw; inversion Hw; left; reflexivity].
  destruct (Z.eqb_spec (i_s mod 20) 0) as [Hmod |];
    [| intros Hw; inversion Hw; left; reflexivity].
  destruct ((length pos_root =? 1)%nat && (length neg_root =? 1)%nat);
    [| intros Hw; inversion Hw; left; reflexivity].
  destruct (getitem pos_root 0) as [p | | |]; cbn [Py.bind]; try discriminate.
  destruct (getitem neg_root 0) as [q | | |]; cbn [Py.bind]; try discriminate.
  intros Hw. inversion Hw. right.
  exists (Rabs (p - q)), ((current_action - 2 * ansatz_action x_potential_minimum)
                          / ansatz_action x_potential_minimum).
  split; [apply Rabs_pos |]. auto.
Qed.

(** The two files stay line for line in step, hold non-negative
    separations, and are not touched by the passes before the 60020th. *)
Lemma iterations_writers (stream_time_step : R) (n : nat) (steps : list Z) :
  (1 <= n)%nat ->
  forall st,
    well_shaped n st ->
    length (tau_writer st) = length (act_writer st) ->
    Forall (fun t => 0 <= t) (tau_writer st) ->
    exists st',
      for_each steps (iteration stream_time_step n) st = Ok st' /\
      well_shaped n st' /\
      length (tau_writer st') = length (act_writer st') /\
      Forall (fun t => 0 <= t) (tau_writer st') /\
      (Forall (fun i_s => (i_s < 60020)%Z) steps ->
       tau_writer st' = tau_writer st /\ act_writer st' = act_writer st).
Proof.
  intros Hn. induction steps as [| i_s steps IH]; intros st Hst Hlen Hpos.
  - exists st. cbn [for_each]. split; [reflexivity |].
    split; [exact Hst |]. split; [exact Hlen |]. split; [exact Hpos |].
    intros _. split; reflexivity.
  - destruct (StreamlineFacts.iteration_spec dtau x_potential_minimum
                return_action find_instantons stream_time_step n st i_s
                Hn Hst)
      as (st1 & Hrun & Hst1 & _ & _ & _ & _ & _ & _ & Hrec).
    cbv zeta in Hrec. apply record_writes in Hrec.
    assert (H1 : length (tau_writer st1) = length (act_writer st1) /\
                 Forall (fun t => 0 <= t) (tau_writer st1) /\
                 ((i_s < 60020)%Z ->
                  tau_writer st1 = tau_writer st /\
                  act_writer st1 = act_writer st)).
    { destruct Hrec as [Heq | (t & a & Ht & Heq & Hlate & Hmod)];
        inversion Heq as [[Htw Haw]]; clear Heq; rewrite Htw, Haw.
      - split; [exact Hlen |]. split; [exact Hpos |]. auto.
      - split; [rewrite !length_app; simpl; lia |]. split.
        + apply Forall_app. split; [exact Hpos |].
          constructor; [exact Ht | constructor].
        + intros Hearly. exfalso. revert Hmod. clear - Hlate Hearly.
          Z.div_mod_to_equations. lia. }
    destruct H1 as (Hlen1 & Hpos1 & Hearly1).
    destruct (IH st1 Hst1 Hlen1 Hpos1)
      as (st2 & Hrun2 & Hst2 & Hlen2 & Hpos2 & Hearly2).
    exists st2. cbn [for_each]. rewrite Hrun. cbn [Py.bind].
    split; [exact Hrun2 |]. split; [exact Hst2 |]. split; [exact Hlen2 |].
    split; [exact Hpos2 |].
    intros Hall. inversion Hall as [| ? ? Hi Hrest]. subst.
    destruct (Hearly1 Hi) as [E1 E2]. destruct (Hearly2 Hrest) as [E3 E4].
    rewrite E3, E4. split; assumption.
Qed.

(** X18: For a non-zero lattice spacing, a lattice of at least two points and
    an ansatz builder that returns the lattice with its periodic end
    point, the evolution ends
    without an error whatever the number of passes; the two output
    files then have the same number of lines, every separation written
    is non-negative, and with [n_streamline <= 60020] both files are
    empty. *)
Theorem streamline_writers_paired (r_initial_sep stream_time_step : R)
    (n n_streamline : nat) :
  dtau <> 0 -> (1 <= n)%nat ->
  (forall centers grid,
      length (ansatz_instanton_conf centers grid) = S (length grid)) ->
  exists st,
    streamline_method_iilm r_initial_sep stream_time_step n n_streamline
    = Ok st /\
    length (tau_writer st) = length (act_writer st) /\
    Forall (fun t => 0 <= t) (tau_writer st) /\
    ((Z.of_nat n_streamline <= 60020)%Z ->
     tau_writer st = [] /\ act_writer st = []).
Proof.
  intros _ Hn Hans. unfold Streamline.streamline_method_iilm.
  destruct (StreamlineFacts.initial_x_config_spec dtau ansatz_instanton_conf
              r_initial_sep n Hn) as (x & Hx & Hl & _).
  { rewrite Hans, StreamlineFacts.tau_array_length. lia. }
  rewrite Hx. cbn [Py.bind].
  destruct (iterations_writers stream_time_step n
              (range 0 (Z.of_nat n_streamline)) Hn
              {| x_config := x;
                 lambda_derivative := zeros (2 * n);
                 action_density := zeros (2 * n);
                 tau_writer := []; act_writer := [] |})
    as (st & Hrun & _ & Hlen & Hpos & Hearly).
  - unfold well_shaped, zeros.
    cbn [x_config lambda_derivative action_density].
    rewrite !repeat_length. auto.
  - reflexivity.
  - constructor.
  - exists st. split; [exact Hrun |]. split; [exact Hlen |].
    split; [exact Hpos |].
    intros Hsmall. apply Hearly. apply Forall_forall. intros i_s Hi.
    apply list_elem_of_lookup in Hi. destruct Hi as [k Hk].
    apply range_lookup_lt in Hk. lia.
Qed.

Lemma val_repeat (c : R) (N : nat) (i : Z) :
  (0 <= i < Z.of_nat N)%Z -> val (repeat c N) i = c.
Proof.
  intros Hi. unfold val.
  destruct (lookup_lt_is_Some_2 (repeat c N) (Z.to_nat i)) as [v Hv];
    [rewrite repeat_length; lia |].
  rewrite Hv. simpl.
  apply list_elem_of_lookup_2 in Hv. apply list_elem_of_In in Hv.
  apply repeat_spec in Hv. exact Hv.
Qed.

Lemma gradient_of_constant (c : R) (N : nat) (i : Z) :
  c = 0 \/ c = x_potential_minimum \/ c = - x_potential_minimum ->
  (2 <= i)%Z -> (i + 2 < Z.of_nat N)%Z ->
  functional_gradient (repeat c N) i = 0.
Proof.
  intros Hc Hlo Hhi. unfold Streamline.functional_gradient.
  rewrite !val_repeat by lia.
  replace (- c + 16 * c - 30 * c + 16 * c - c) with 0 by ring.
  unfold Rdiv. rewrite Rmult_0_l, Rmult_0_r, Rplus_0_l.
  destruct Hc as [-> | [-> | ->]]; ring.
Qed.

(** X19: The configuration that is zero everywhere (the top of the barrier)
    is a fixed point of the evolution: every term of the five-point
    stencil and of the force is then zero, so a pass computes a zero
    gradient at every site and leaves the configuration, ghost points
    included, as it was.  The spacing and the position of the minimum are
    taken of moderate size, so that their squares are positive doubles.
    (At the two minima the gradient vanishes too, but only up to the
    rounding of the stencil, and the code moves the configuration by a
    few units in the last place.) *)
Theorem zero_configuration_is_fixed (stream_time_step : R) (n : nat)
    (st : state) (i_s : Z) :
  1 / 1000 <= Rabs dtau <= 1000 -> Rabs x_potential_minimum <= 1000 ->
  (1 <= n)%nat -> well_shaped n st ->
  x_config st = repeat 0 (2 * n + 4) ->
  exists st',
    iteration stream_time_step n st i_s = Ok st' /\
    x_config st' = x_config st /\
    lambda_derivative st' = zeros (2 * n).
Proof.
  intros _ _ Hn Hst Hx.
  assert (Hc : 0 = 0 \/ 0 = x_potential_minimum \/ 0 = - x_potential_minimum)
    by (left; reflexivity).
  destruct (StreamlineFacts.iteration_spec dtau x_potential_minimum
              return_action find_instantons stream_time_step n st i_s
              Hn Hst)
    as (st' & Hrun & (Hlx & Hll & _) & Hlam & Hin & H0 & H1 & H2 & H3 & _).
  exists st'. split; [exact Hrun |].
  assert (Hin' : forall j, (2 <= j <= 2 * n + 1)%nat ->
                           x_config st' !! j = Some 0).
  { intros j Hj. rewrite (Hin j Hj), Hx.
    rewrite gradient_of_constant by (try exact Hc; lia).
    rewrite val_repeat by lia. f_equal. ring. }
  split.
  - rewrite Hx. apply list_eq. intros j.
    destruct (Nat.lt_ge_cases j (2 * n + 4)) as [Hj | Hj].
    + rewrite (StreamlineFacts.lookup_val (repeat 0 (2 * n + 4)) j)
        by (rewrite repeat_length; exact Hj).
      rewrite val_repeat by lia.
      destruct (Nat.lt_ge_cases j 2) as [Hlo | Hlo].
      * destruct j as [| [| j]]; [rewrite H0 | rewrite H1 | lia];
          apply Hin'; lia.
      * destruct (Nat.le_gt_cases j (2 * n + 1)) as [Hhi | Hhi];
          [apply Hin'; lia |].
        destruct (Nat.eq_dec j (2 * n + 2)%nat) as [-> | Hne];
          [rewrite H2; apply Hin'; lia |].
        replace j with (2 * n + 3)%nat by lia.
        rewrite H3. apply Hin'. lia.
    + rewrite (proj2 (lookup_ge_None _ j)) by lia.
      symmetry. apply lookup_ge_None. rewrite repeat_length. exact Hj.
  - apply list_eq. intros j.
    destruct (Nat.lt_ge_cases j (2 * n)) as [Hj | Hj].
    + rewrite (Hlam j Hj), Hx.
      rewrite gradient_of_constant by (try exact Hc; lia).
      symmetry. apply DiagFunctionsFacts.zeros_lookup. exact Hj.
    + rewrite (proj2 (lookup_ge_None _ j)) by lia.
      symmetry. apply lookup_ge_None. unfold zeros.
      rewrite repeat_length. exact Hj.
Qed.

End Facts.

Lemma streamline_writers_paired_witness :
  1 <> 0 /\ (1 <= 1)%nat /\
  (forall centers grid : list R,
      length ((fun _ g => 0 :: g) centers grid) = S (length grid)) /\
  exists st,
    Streamline.streamline_method_iilm 1 1
      (fun _ g => 0 :: g) (fun _ => 0) (fun _ _ _ => (0%Z, 0%Z, [], []))
      1 1 1 3 = Ok st /\
    length (tau_writer st) = length (act_writer st) /\
    Forall (fun t => 0 <= t) (tau_writer st) /\
    ((Z.of_nat 3 <= 60020)%Z -> tau_writer st = [] /\ act_writer st = []).
Proof.
  assert (Hd : 1 <> 0) by lra.
  assert (Hn : (1 <= 1)%nat) by lia.
  assert (Hans : forall centers grid : list R,
             length ((fun _ g => 0 :: g) centers grid) = S (length grid))
    by reflexivity.
  split; [exact Hd |]. split; [exact Hn |]. split; [exact Hans |].
  exact (streamline_writers_paired 1 1 (fun _ g => 0 :: g) (fun _ => 0)
           (fun _ _ _ => (0%Z, 0%Z, [], [])) 1 1 1 3 Hd Hn Hans).
Defined.

Lemma zero_configuration_witness :
  1 / 1000 <= Rabs 1 <= 1000 /\ Rabs (14 / 10) <= 1000 /\ (1 <= 1)%nat /\
  well_shaped 1 {| x_config := repeat 0 6; lambda_derivative := zeros 2;
                   action_density := zeros 2;
                   tau_writer := []; act_writer := [] |} /\
  exists st',
    Streamline.iteration 1 (14 / 10) (fun _ => 0)
      (fun _ _ _ => (0%Z, 0%Z, [], []))
      1 1 {| x_config := repeat 0 6; lambda_derivative := zeros 2;
             action_density := zeros 2;
             tau_writer := []; act_writer := [] |} 0 = Ok st' /\
    x_config st' = repeat 0 6 /\
    lambda_derivative st' = zeros (2 * 1).
Proof.
  assert (Hd : 1 / 1000 <= Rabs 1 <= 1000) by (rewrite Rabs_R1; lra).
  assert (Hv : Rabs (14 / 10) <= 1000) by (rewrite Rabs_pos_eq; lra).
  assert (Hn : (1 <= 1)%nat) by lia.
  assert (Hst : well_shaped 1
                  {| x_config := repeat 0 6; lambda_derivative := zeros 2;
                     action_density := zeros 2;
                     tau_writer := []; act_writer := [] |})
    by (repeat split).
  split; [exact Hd |]. split; [exact Hv |]. split; [exact Hn |].
  split; [exact Hst |].
  exact (zero_configuration_is_fixed 1 (14 / 10) (fun _ => 0)
           (fun _ _ _ => (0%Z, 0%Z, [], [])) 1 1 _ 0 Hd Hv Hn Hst eq_refl).
Defined.

End StreamlineEvolution.

(** ** The sum ansatz and its interaction *)

Module SumAnsatzFacts.
Import DiagFunctions SumAnsatz PyFacts.
Local Open Scope R_scope.

Lemma getitem_pair_0 (a b : R) : getitem [a; b] 0 = Ok a.
Proof. reflexivity. Qed.

Lemma getitem_pair_1 (a b : R) : getitem [a; b] 1 = Ok b.
Proof. reflexivity. Qed.

Section Facts.
Variables (dtau x_potential_minimum : R).
Variable ansatz_instanton_conf : list R -> list R -> list R.
Variable return_action : list R -> R.

Abbreviation sum_ansatz_body :=
  (SumAnsatz.sum_ansatz_body dtau x_potential_minimum ansatz_instanton_conf
     return_action).
Abbreviation print_sum_ansatz_ia :=
  (SumAnsatz.print_sum_ansatz_ia dtau x_potential_minimum
     ansatz_instanton_conf return_action).

(** The action of the sum ansatz with the two centers [k] sites apart. *)
Abbreviation ansatz_action_at n_lattice k :=
  (return_action
     (ansatz_instanton_conf
        (tau_centers_ia dtau n_lattice (n_inst n_lattice + k))
        (tau_array dtau n_lattice))).

Abbreviation core_term n_lattice k :=
  (3 * (exp (- (IZR (n_inst n_lattice + k) * dtau
                - IZR (n_inst n_lattice) * dtau) / (3 / 10))
        + exp (- (IZR (n_inst n_lattice) * dtau
                  - IZR (n_inst n_lattice + k) * dtau
                  + IZR n_lattice * dtau) / (3 / 10)))).

Lemma sum_ansatz_body_ok (n_lattice : Z) (st : arrays) (j : nat) :
  (j < length (array_ia st))%nat ->
  (j < length (array_int_core st))%nat ->
  (j < length (array_int st))%nat ->
  sum_ansatz_body n_lattice st (n_inst n_lattice + Z.of_nat j)
  = Ok {| array_ia :=
            <[j := IZR (n_inst n_lattice + Z.of_nat j) * dtau
                   - IZR (n_inst n_lattice) * dtau]> (array_ia st);
          array_int_core :=
            <[j := (core_term n_lattice (Z.of_nat j)
                    + ansatz_action_at n_lattice (Z.of_nat j))
                   / (4 / 3 * x_potential_minimum ^ 3) - 2]>
              (array_int_core st);
          array_int :=
            <[j := ansatz_action_at n_lattice (Z.of_nat j)
                   / (4 / 3 * x_potential_minimum ^ 3) - 2]>
              (array_int st) |}.
Proof.
  intros Hia Hcore Hint. unfold SumAnsatz.sum_ansatz_body, tau_centers_ia.
  rewrite !getitem_pair_0, !getitem_pair_1. cbn [Py.bind].
  replace (n_inst n_lattice + Z.of_nat j - n_inst n_lattice)%Z
    with (Z.of_nat j) by lia.
  rewrite !setitem_nonneg by lia. cbn [Py.bind]. rewrite Nat2Z.id.
  reflexivity.
Qed.

Lemma sum_ansatz_loop (n_lattice : Z) (N k : nat) :
  (k <= N)%nat ->
  exists st,
    for_each (map (fun j => (n_inst n_lattice + Z.of_nat j)%Z) (seq 0 k))
      (sum_ansatz_body n_lattice)
      {| array_ia := zeros N; array_int_core := zeros N;
         array_int := zeros N |} = Ok st /\
    length (array_ia st) = N /\ length (array_int_core st) = N /\
    length (array_int st) = N /\
    forall j, (j < k)%nat ->
      array_ia st !! j
      = Some (IZR (n_inst n_lattice + Z.of_nat j) * dtau
              - IZR (n_inst n_lattice) * dtau) /\
      array_int_core st !! j
      = Some ((core_term n_lattice (Z.of_nat j)
               + ansatz_action_at n_lattice (Z.of_nat j))
              / (4 / 3 * x_potential_minimum ^ 3) - 2) /\
      array_int st !! j
      = Some (ansatz_action_at n_lattice (Z.of_nat j)
              / (4 / 3 * x_potential_minimum ^ 3) - 2).
Proof.
  induction k as [| k IH]; intros Hk.
  - eexists. split; [reflexivity |]. cbn [array_ia array_int_core array_int].
    unfold zeros. rewrite repeat_length.
    repeat split; try reflexivity; lia.
  - destruct IH as (st & Hrun & Hia & Hcore & Hint & Hval); [lia |].
    rewrite seq_S, map_app, for_each_app, Hrun. cbn [Py.bind map for_each].
    change (0 + k)%nat with k.
    rewrite sum_ansatz_body_ok by lia. cbn [Py.bind].
    eexists. split; [reflexivity |].
    cbn [array_ia array_int_core array_int]. rewrite !length_insert.
    split; [exact Hia |]. split; [exact Hcore |]. split; [exact Hint |].
    intros j Hj. destruct (Nat.eq_dec j k) as [-> | Hne].
    + rewrite !list_lookup_insert_eq by lia. repeat split.
    + rewrite !list_lookup_insert_ne by lia. apply Hval. lia.
Qed.

(** X20: For [n_lattice >= 0], a spacing that is not negative and a position
    of the minimum of moderate size (its cube is then a positive double)
    the function fills its three arrays of [int(n_lattice / 4)] entries
    without an index error.  Entry [k] of [array_ia] is the difference
    [(n_inst + k) dtau - n_inst dtau] of the two centers, as the code
    computes it: it is zero for [k = 0] and never negative.  The action
    with the core repulsion added is at no separation below the plain
    one.  From [n_lattice = -4] downwards the allocation fails with a
    [ValueError]. *)
Theorem print_sum_ansatz_ia_arrays (n_lattice : Z) :
  1 / 1000 <= x_potential_minimum <= 1000 -> 0 <= dtau ->
  ((0 <= n_lattice)%Z ->
   exists st,
     print_sum_ansatz_ia n_lattice = Value (Ok st) /\
     Z.of_nat (length (array_ia st)) = (n_lattice / 4)%Z /\
     Z.of_nat (length (array_int st)) = (n_lattice / 4)%Z /\
     Z.of_nat (length (array_int_core st)) = (n_lattice / 4)%Z /\
     forall k : nat,
       (Z.of_nat k < n_lattice / 4)%Z ->
       exists separation plain with_core,
         array_ia st !! k = Some separation /\
         separation = IZR (n_lattice / 4 + Z.of_nat k) * dtau
                      - IZR (n_lattice / 4) * dtau /\
         0 <= separation /\ (k = 0%nat -> separation = 0) /\
         array_int st !! k = Some plain /\
         array_int_core st !! k = Some with_core /\
         plain <= with_core) /\
  ((n_lattice <= -4)%Z -> print_sum_ansatz_ia n_lattice = ValueError).
Proof.
  intros [Hv _] Hd. unfold SumAnsatz.print_sum_ansatz_ia. split.
  - intros Hn.
    assert (Hq : n_inst n_lattice = (n_lattice / 4)%Z)
      by (unfold n_inst; apply Z.quot_div_nonneg; lia).
    assert (Hq0 : (0 <= n_lattice / 4)%Z) by (apply Z.div_pos; lia).
    destruct (Z.ltb_spec (n_inst n_lattice) 0); [lia |].
    unfold range.
    replace (Z.to_nat (2 * n_inst n_lattice - n_inst n_lattice))
      with (Z.to_nat (n_inst n_lattice)) by lia.
    destruct (sum_ansatz_loop n_lattice (Z.to_nat (n_inst n_lattice))
                (Z.to_nat (n_inst n_lattice)) (le_n _))
      as (st & Hrun & Hia & Hcore & Hint & Hval).
    exists st. rewrite Hrun. split; [reflexivity |].
    split; [lia |]. split; [lia |]. split; [lia |].
    intros k Hk. destruct (Hval k ltac:(lia)) as (Ha & Hc & Hi).
    rewrite Hq in Ha.
    eexists _, _, _. split; [exact Ha |]. split; [reflexivity |].
    split; [| split; [| split; [exact Hi | split; [exact Hc |]]]].
    + rewrite plus_IZR, <- INR_IZR_INZ.
      pose proof (pos_INR k) as Hk0.
      assert (0 <= INR k * dtau) by (apply Rmult_le_pos; assumption).
      lra.
    + intros ->. change (Z.of_nat 0) with 0%Z. rewrite Z.add_0_r. ring.
    + assert (HD : 0 < / (4 / 3 * x_potential_minimum ^ 3)).
      { apply Rinv_0_lt_compat.
        apply Rmult_lt_0_compat; [lra |]. apply pow_lt. lra. }
      assert (Hcore0 : 0 < core_term n_lattice (Z.of_nat k)).
      { apply Rmult_lt_0_compat; [lra |].
        apply Rplus_lt_0_compat; apply exp_pos. }
      pose proof (Rmult_lt_0_compat _ _ Hcore0 HD) as Hpos.
      unfold Rdiv at 1 3. rewrite Rmult_plus_distr_r. lra.
  - intros Hn.
    destruct (Z.ltb_spec (n_inst n_lattice) 0) as [| Hge]; [reflexivity |].
    exfalso. unfold n_inst in Hge. revert Hge.
    Z.quot_rem_to_equations. lia.
Qed.

End Facts.

Lemma print_sum_ansatz_ia_witness :
  1 / 1000 <= 14 / 10 <= 1000 /\ 0 <= 1 / 20 /\ (0 <= 8)%Z /\
  (-4 <= -4)%Z /\
  (exists st,
     SumAnsatz.print_sum_ansatz_ia (1 / 20) (14 / 10)
       (fun _ grid => grid) (fun _ => 0) 8 = Value (Ok st) /\
     Z.of_nat (length (array_ia st)) = (8 / 4)%Z) /\
  SumAnsatz.print_sum_ansatz_ia (1 / 20) (14 / 10)
    (fun _ grid => grid) (fun _ => 0) (-4) = ValueError.
Proof.
  assert (Hv : 1 / 1000 <= 14 / 10 <= 1000) by lra.
  assert (Hd : 0 <= 1 / 20) by lra.
  assert (Hn : (0 <= 8)%Z) by lia.
  assert (Hneg : (-4 <= -4)%Z) by lia.
  split; [exact Hv |]. split; [exact Hd |]. split; [exact Hn |].
  split; [exact Hneg |]. split.
  - destruct (proj1 (print_sum_ansatz_ia_arrays (1 / 20) (14 / 10)
                       (fun _ grid => grid) (fun _ => 0) 8 Hv Hd) Hn)
      as (st & Hrun & Hl & _).
    exists st. split; [exact Hrun | exact Hl].
  - exact (proj2 (print_sum_ansatz_ia_arrays (1 / 20) (14 / 10)
                    (fun _ grid => grid) (fun _ => 0) (-4) Hv Hd) Hneg).
Defined.

End SumAnsatzFacts.

(** ** The histogram of the random instanton liquid *)

Module RilmHistogram.
Import Rilm PyFacts.
Local Open Scope R_scope.

Lemma getitem_nth (t : list R) (i : Z) :
  (0 <= i < Z.of_nat (length t))%Z ->
  getitem t i = Ok (nth (Z.to_nat i) t 0).
Proof.
  intros Hi. rewrite getitem_nonneg by lia.
  destruct (lookup_lt_is_Some_2 t (Z.to_nat i)) as [v Hv]; [lia |].
  rewrite Hv, (nth_lookup_Some _ _ 0 v Hv). reflexivity.
Qed.

Lemma getitem_last (t : list R) :
  (1 <= length t)%nat -> getitem t (-1) = Ok (nth (length t - 1) t 0).
Proof.
  intros Hl.
  destruct (lookup_lt_is_Some_2 t (length t - 1)) as [v Hv]; [lia |].
  rewrite (nth_lookup_Some _ _ 0 v Hv).
  apply getitem_neg; [lia | | lia].
  replace (Z.to_nat (Z.of_nat (length t) + -1)) with (length t - 1)%nat
    by lia.
  exact Hv.
Qed.

Section Facts.
Variable dtau : R.
Variable Sampler : Type.
Variable rilm_monte_carlo_step :
  Z -> Z -> Z -> list R -> Sampler -> Sampler * list R.

Abbreviation hist_body := (Rilm.hist_body dtau Sampler).
Abbreviation hist_loop := (Rilm.hist_loop dtau Sampler).
Abbreviation sweep_body :=
  (Rilm.sweep_body dtau Sampler rilm_monte_carlo_step).

(** The value written for the center at the even index [i]: the smaller
    of its distances to the next center and to the previous one, the
    previous one of the first center being the last center one period
    earlier. *)
Abbreviation gap n_lattice t i :=
  (Rmin (nth (Z.to_nat (i + 1)) t 0 - nth (Z.to_nat i) t 0)
     (nth (Z.to_nat i) t 0
      - (if (i =? 0)%Z then nth (length t - 1) t 0 - IZR n_lattice * dtau
         else nth (Z.to_nat (i - 1)) t 0))).

Lemma z_ia_at_value (n_lattice : Z) (t : list R) (i : Z) :
  (0 <= i)%Z -> (i + 1 < Z.of_nat (length t))%Z ->
  z_ia_at dtau n_lattice t i = Ok (gap n_lattice t i).
Proof.
  intros H0 H1. unfold z_ia_at.
  destruct (Z.eqb_spec i 0) as [-> | Hne].
  - rewrite getitem_last by lia. cbn [Py.bind].
    rewrite !getitem_nth by lia. reflexivity.
  - rewrite !getitem_nth by lia. reflexivity.
Qed.

Lemma hist_body_writes (n_lattice : Z) (t : list R) (idxs : list Z) :
  Forall (fun i => (0 <= i)%Z /\ (i + 1 < Z.of_nat (length t))%Z) idxs ->
  forall w,
    mfor_each idxs (hist_body n_lattice t) tt w
    = ({| sampler := sampler Sampler w;
          step_calls := step_calls Sampler w;
          hist_writer := hist_writer Sampler w
                         ++ map (fun i => gap n_lattice t i) idxs |},
       Ok tt).
Proof.
  intros Hin. induction Hin as [| i idxs [H0 H1] Hin IH]; intros w.
  - destruct w. cbn. rewrite app_nil_r. reflexivity.
  - cbn [mfor_each map]. unfold mbind at 1.
    unfold Rilm.hist_body at 1. unfold mbind, lift.
    rewrite (z_ia_at_value n_lattice t i H0 H1).
    unfold write_hist, modify. rewrite IH. cbn.
    rewrite <- app_assoc. reflexivity.
Qed.

Lemma even_indices_in_bounds (t : list R) (m : nat) :
  (2 * m <= length t)%nat ->
  Forall (fun i => (0 <= i)%Z /\ (i + 1 < Z.of_nat (length t))%Z)
    (map (fun k => (2 * Z.of_nat k)%Z) (seq 0 m)).
Proof.
  intros Hl. apply Forall_forall. intros i Hi.
  apply list_elem_of_In, in_map_iff in Hi. destruct Hi as (k & <- & Hk).
  apply in_seq in Hk. lia.
Qed.

Lemma gap_nonneg (n_lattice : Z) (t : list R) (k : nat) :
  (2 * k + 1 < length t)%nat ->
  (forall i j, (i <= j < length t)%nat -> nth i t 0 <= nth j t 0) ->
  nth (length t - 1) t 0 - nth 0 t 0 <= IZR n_lattice * dtau ->
  0 <= gap n_lattice t (2 * Z.of_nat k)%Z.
Proof.
  intros Hk Hsorted Hperiod.
  replace (Z.to_nat (2 * Z.of_nat k + 1)) with (2 * k + 1)%nat by lia.
  replace (Z.to_nat (2 * Z.of_nat k)) with (2 * k)%nat by lia.
  apply Rmin_glb.
  - pose proof (Hsorted (2 * k)%nat (2 * k + 1)%nat ltac:(lia)). lra.
  - destruct (Z.eqb_spec (2 * Z.of_nat k) 0) as [H0 | Hne].
    + replace (2 * k)%nat with 0%nat by lia. lra.
    + replace (Z.to_nat (2 * Z.of_nat k - 1)) with (2 * k - 1)%nat by lia.
      pose proof (Hsorted (2 * k - 1)%nat (2 * k)%nat ltac:(lia)). lra.
Qed.

(** X21: With an even number [2 m] of centers the histogram loop ends
    without an error, leaves the sampler alone and appends [m] values to
    the file, one per center of even index.  When the centers are in
    increasing order and span no more than one period
    [n_lattice * dtau], none of the values written is negative. *)
Theorem hist_loop_writes_gaps (n_lattice : Z) (tau_centers_ia : list R)
    (m : nat) (w : world Sampler) :
  length tau_centers_ia = (2 * m)%nat ->
  exists zs,
    hist_loop n_lattice tau_centers_ia w
    = ({| sampler := sampler Sampler w;
          step_calls := step_calls Sampler w;
          hist_writer := hist_writer Sampler w ++ zs |}, Ok tt) /\
    length zs = m /\
    ((forall i j, (i <= j < length tau_centers_ia)%nat ->
                  nth i tau_centers_ia 0 <= nth j tau_centers_ia 0) ->
     nth (length tau_centers_ia - 1) tau_centers_ia 0
     - nth 0 tau_centers_ia 0 <= IZR n_lattice * dtau ->
     Forall (fun z => 0 <= z) zs).
Proof.
  intros Hl. unfold Rilm.hist_loop. rewrite Hl. rewrite RilmFacts.range2_even.
  rewrite <- Hl.
  rewrite hist_body_writes by (apply even_indices_in_bounds; lia).
  eexists. split; [reflexivity |].
  split; [rewrite !length_map, length_seq; reflexivity |].
  intros Hsorted Hperiod. apply Forall_forall. intros z Hz.
  apply list_elem_of_In, in_map_iff in Hz. destruct Hz as (i & <- & Hi).
  apply in_map_iff in Hi. destruct Hi as (k & <- & Hk).
  apply in_seq in Hk. apply gap_nonneg; [lia | exact Hsorted | exact Hperiod].
Qed.

Lemma hist_loop_odd_writes (n_lattice : Z) (t : list R) (m : nat)
    (w : world Sampler) :
  length t = (2 * m + 1)%nat ->
  hist_loop n_lattice t w
  = ({| sampler := sampler Sampler w;
        step_calls := step_calls Sampler w;
        hist_writer :=
          hist_writer Sampler w
          ++ map (fun i => gap n_lattice t i)
               (map (fun k => (2 * Z.of_nat k)%Z) (seq 0 m)) |},
     IndexError (Z.of_nat (length t))).
Proof.
  intros Hl. unfold Rilm.hist_loop.
  replace (range2 0 (Z.of_nat (length t)))
    with (map (fun k => (2 * Z.of_nat k)%Z) (seq 0 m)
          ++ [(2 * Z.of_nat m)%Z])
    by (rewrite Hl; symmetry; apply RilmFacts.range2_odd).
  rewrite mfor_each_app. unfold mbind at 1.
  rewrite hist_body_writes by (apply even_indices_in_bounds; lia).
  cbn [mfor_each]. unfold mbind at 1. unfold Rilm.hist_body at 1.
  unfold mbind at 1. unfold lift at 1.
  rewrite RilmFacts.z_ia_at_last by lia. reflexivity.
Qed.

(** X22: When the sampling step places an odd number [n_ia] of centers, the
    run of the random driver stops in its first sweep: after one
    sampling step and [(n_ia - 1) / 2] values written, the read past the
    last center raises [IndexError]. *)
Theorem sweeps_stop_on_odd_n_ia (n_lattice n_ia n_points n_meas : Z)
    (tau_array : list R) (n_mc_sweeps : Z) (w : world Sampler) :
  (1 <= n_mc_sweeps)%Z -> (0 <= n_ia)%Z -> Z.odd n_ia = true ->
  (forall s, length (snd (rilm_monte_carlo_step n_ia n_points n_meas
                            tau_array s)) = Z.to_nat n_ia) ->
  exists s zs,
    mfor_each (range 0 n_mc_sweeps)
      (sweep_body n_lattice n_ia n_points n_meas tau_array) tt w
    = ({| sampler := s;
          step_calls := step_calls Sampler w ++ [n_ia];
          hist_writer := hist_writer Sampler w ++ zs |},
       IndexError n_ia) /\
    Z.of_nat (length zs) = ((n_ia - 1) / 2)%Z.
Proof.
  intros Hn Hpos Hodd Hlen.
  rewrite (DiagMatrixFacts.range_split 0 n_mc_sweeps) by lia.
  change (range 0 0) with (@nil Z). cbn [app mfor_each].
  unfold mbind at 1. unfold Rilm.sweep_body at 1. unfold mbind at 1.
  unfold do_step. specialize (Hlen (sampler Sampler w)).
  destruct (rilm_monte_carlo_step n_ia n_points n_meas tau_array
              (sampler Sampler w)) as [s centers].
  cbn [snd] in Hlen.
  apply Z.odd_spec in Hodd. destruct Hodd as [h Hh].
  set (m := Z.to_nat h).
  assert (Hc : length centers = (2 * m + 1)%nat) by lia.
  rewrite (hist_loop_odd_writes n_lattice centers m _ Hc).
  eexists _, _. split.
  - cbn. do 2 f_equal. lia.
  - rewrite !length_map, length_seq. subst m. rewrite Hh.
    replace (2 * h + 1 - 1)%Z with (h * 2)%Z by lia.
    rewrite Z.div_mul by lia. lia.
Qed.

End Facts.

Lemma hist_loop_writes_gaps_witness :
  length [1; 2] = (2 * 1)%nat /\
  exists zs,
    Rilm.hist_loop 1 unit 4 [1; 2]
      {| sampler := tt; step_calls := []; hist_writer := [] |}
    = ({| sampler := tt; step_calls := []; hist_writer := [] ++ zs |},
       Ok tt) /\
    length zs = 1%nat /\
    ((forall i j, (i <= j < length [1; 2])%nat ->
                  nth i [1; 2] 0 <= nth j [1; 2] 0) ->
     nth (length [1; 2] - 1) [1; 2] 0 - nth 0 [1; 2] 0 <= IZR 4 * 1 ->
     Forall (fun z => 0 <= z) zs).
Proof.
  split; [reflexivity |].
  exact (hist_loop_writes_gaps 1 unit 4 [1; 2] 1
           {| sampler := tt; step_calls := []; hist_writer := [] |}
           eq_refl).
Defined.

Lemma sweeps_stop_on_odd_witness :
  (1 <= 2)%Z /\ (0 <= 1)%Z /\ Z.odd 1 = true /\
  (forall s : unit,
      length (snd ((fun n _ _ _ s => (s, repeat 0 (Z.to_nat n)))
                     1%Z 5%Z 5%Z [0] s)) = Z.to_nat 1) /\
  exists s zs,
    mfor_each (range 0 2)
      (Rilm.sweep_body 1 unit
         (fun n _ _ _ s => (s, repeat 0 (Z.to_nat n))) 4 1 5 5 [0]) tt
      {| sampler := tt; step_calls := []; hist_writer := [] |}
    = ({| sampler := s; step_calls := [] ++ [1%Z];
          hist_writer := [] ++ zs |}, IndexError 1) /\
    Z.of_nat (length zs) = ((1 - 1) / 2)%Z.
Proof.
  assert (H1 : (1 <= 2)%Z) by lia.
  assert (H2 : (0 <= 1)%Z) by lia.
  assert (H3 : Z.odd 1 = true) by reflexivity.
  assert (H4 : forall s : unit,
             length (snd ((fun n _ _ _ s => (s, repeat 0 (Z.to_nat n)))
                            1%Z 5%Z 5%Z [0] s)) = Z.to_nat 1)
    by reflexivity.
  split; [exact H1 |]. split; [exact H2 |]. split; [exact H3 |].
  split; [exact H4 |].
  exact (sweeps_stop_on_odd_n_ia 1 unit
           (fun n _ _ _ s => (s, repeat 0 (Z.to_nat n))) 4 1 5 5 [0] 2
           {| sampler := tt; step_calls := []; hist_writer := [] |}
           H1 H2 H3 H4).
Defined.

End RilmHistogram.

(** ** The sweeps and samples of the cooling driver *)

Module CoolingCounts.
Import CoolingDensity CoolingTrace PyFacts.

Lemma adds_nil : adds [] 0 0 0 [].
Proof. repeat split. Qed.

Lemma adds_app (e1 e2 : list event) (m1 c1 f1 m2 c2 f2 : nat)
    (s1 s2 : list Z) :
  adds e1 m1 c1 f1 s1 -> adds e2 m2 c2 f2 s2 ->
  adds (e1 ++ e2) (m1 + m2) (c1 + c2) (f1 + f2) (s1 ++ s2).
Proof.
  unfold adds, metropolis_sweeps, cooling_sweeps, files_saved, sample_counts.
  intros (A1 & A2 & A3 & A4) (B1 & B2 & B3 & B4).
  rewrite !List.filter_app, !length_app, flat_map_app.
  rewrite A1, A2, A3, A4, B1, B2, B3, B4. auto.
Qed.

Lemma adds_coolings (l : loc) (k : nat) :
  adds (repeat (Cooling l) k) 0 k 0 [].
Proof.
  induction k as [| k IH]; [apply adds_nil |].
  apply (adds_app [Cooling l] (repeat (Cooling l) k) 0 1 0 0 k 0 [] []);
    [repeat split | exact IH].
Qed.

Lemma cooling_events_succ (j k : Z) :
  0 <= j -> 0 < k ->
  cooling_events (j + 1) k
  = cooling_events j k + (if j mod k =? 0 then 1 else 0).
Proof.
  intros Hj Hk. unfold cooling_events.
  pose proof (Z.div_mod j k ltac:(lia)) as Hdm.
  pose proof (Z.mod_pos_bound j k Hk) as Hr.
  set (q := j / k) in *. set (r := j mod k) in *.
  destruct (Z.eqb_spec r 0) as [H0 | Hne].
  - replace (j + 1 + k - 1) with ((q + 1) * k + 0) by lia.
    replace (j + k - 1) with (q * k + (k - 1)) by lia.
    rewrite !Z.div_add_l by lia.
    rewrite Z.div_0_l by lia. rewrite (Z.div_small (k - 1) k) by lia. lia.
  - replace (j + 1 + k - 1) with ((q + 1) * k + r) by lia.
    replace (j + k - 1) with ((q + 1) * k + (r - 1)) by lia.
    rewrite !Z.div_add_l by lia.
    rewrite (Z.div_small r k), (Z.div_small (r - 1) k) by lia. lia.
Qed.

Lemma cooling_events_0 (k : Z) : 0 < k -> cooling_events 0 k = 0.
Proof.
  intros Hk. unfold cooling_events. apply Z.div_small. lia.
Qed.

Lemma cooling_events_pos (n k : Z) :
  1 <= n -> 0 < k -> 1 <= cooling_events n k.
Proof.
  intros Hn Hk. unfold cooling_events.
  replace (n + k - 1) with (1 * k + (n - 1)) by lia.
  rewrite Z.div_add_l by lia.
  pose proof (Z.div_pos (n - 1) k ltac:(lia) Hk). lia.
Qed.

Lemma mbind_ok {W A B} (m : M W A) (k : A -> M W B) (w w' : W) (a : A) :
  m w = (w', Ok a) -> mbind m k w = k a w'.
Proof. intros H. unfold mbind. rewrite H. reflexivity. Qed.

Lemma mfor_each_snoc {W S X} (xs : list X) (x : X) (body : S -> X -> M W S)
    (st st1 : S) (w w1 : W) :
  mfor_each xs body st w = (w1, Ok st1) ->
  mfor_each (xs ++ [x]) body st w = body st1 x w1.
Proof.
  intros H. rewrite mfor_each_app. rewrite (mbind_ok _ _ _ _ _ H).
  cbn [mfor_each]. unfold mbind, mret.
  destruct (body st1 x w1) as [w2 [a | i | |]]; reflexivity.
Qed.

Lemma mfor_each_raises {W S X} (x : X) (xs : list X)
    (body : S -> X -> M W S) (st : S) (w w1 : W) :
  body st x w = (w1, ZeroDivisionError) ->
  mfor_each (x :: xs) body st w = (w1, ZeroDivisionError).
Proof.
  intros H. cbn [mfor_each]. unfold mbind. rewrite H. reflexivity.
Qed.

Section Facts.

Variable RNG : Type.
Variable dtau : R.
Variable initialize_lattice : Z -> bool -> RNG -> RNG * list R.
Variable metropolis_question : R -> RNG -> list R -> RNG * list R.
Variable configuration_cooling : list R -> R -> list R.
Variable find_instantons : list R -> Z -> R -> Z * Z * list R * list R.
Variable return_action : R -> list R -> R.

Abbreviation world := (CoolingDensity.world RNG).
Abbreviation heap := (CoolingDensity.heap RNG).
Abbreviation trace := (CoolingDensity.trace RNG).
Abbreviation do_metropolis :=
  (CoolingDensity.do_metropolis RNG metropolis_question).
Abbreviation cooling_sweep_body :=
  (CoolingDensity.cooling_sweep_body RNG dtau configuration_cooling
     find_instantons return_action).
Abbreviation cooling_event :=
  (CoolingDensity.cooling_event RNG dtau configuration_cooling
     find_instantons return_action).
Abbreviation mc_body :=
  (CoolingDensity.mc_body RNG dtau metropolis_question
     configuration_cooling find_instantons return_action).
Abbreviation minimum_body :=
  (CoolingDensity.minimum_body RNG dtau initialize_lattice
     metropolis_question configuration_cooling find_instantons
     return_action).
Abbreviation cooled_monte_carlo_density :=
  (CoolingDensity.cooled_monte_carlo_density RNG dtau initialize_lattice
     metropolis_question configuration_cooling find_instantons
     return_action).

(** The cooling sweeps of one cooling event, all on the same copy. *)
Lemma cooling_loop_trace (l : loc) (v : R) (n_lattice n_cooling_sweeps : Z)
    (j : nat) :
  Z.of_nat j <= n_cooling_sweeps ->
  forall acc (w : world) a,
    heap w !! l = Some a -> acc_shaped n_cooling_sweeps acc ->
    exists w' acc' a',
      mfor_each (range 0 (Z.of_nat j)) (cooling_sweep_body v n_lattice l)
        acc w = (w', Ok acc') /\
      acc_shaped n_cooling_sweeps acc' /\
      heap w' !! l = Some a' /\
      (forall x, x <> l -> heap w' !! x = heap w !! x) /\
      trace w' = trace w ++ repeat (Cooling l) j.
Proof.
  induction j as [| j IH]; intros Hj acc w a Hl Hacc.
  - exists w, acc, a. split; [reflexivity |]. split; [exact Hacc |].
    split; [exact Hl |]. split; [auto |]. cbn [repeat].
    rewrite app_nil_r. reflexivity.
  - destruct (IH ltac:(lia) acc w a Hl Hacc)
      as (w1 & acc1 & a1 & Hrun & Hacc1 & Hl1 & Hframe & Ht).
    destruct (CoolingDensityFacts.cooling_sweep_body_spec RNG dtau
                configuration_cooling find_instantons return_action
                l a1 v n_lattice n_cooling_sweeps acc1 (Z.of_nat j) w1
                Hl1 Hacc1 ltac:(lia))
      as (w2 & acc2 & old & Hbody & Hheap & Ht2 & Hacc2 & _).
    exists w2, acc2, (configuration_cooling a1 v).
    rewrite Nat2Z.inj_succ. unfold Z.succ.
    rewrite DiagLoop.range_snoc by lia.
    rewrite (mfor_each_snoc _ _ _ _ _ _ _ Hrun).
    split; [exact Hbody |]. split; [exact Hacc2 |].
    split; [rewrite Hheap; apply lookup_insert_eq |].
    split.
    + intros x Hx. rewrite Hheap, lookup_insert_ne by auto.
      apply Hframe. exact Hx.
    + rewrite Ht2, Ht, <- app_assoc. f_equal.
      change [Cooling l] with (repeat (Cooling l) 1).
      rewrite <- repeat_app. f_equal. lia.
Qed.

(** One cooling event: [n_cooling_sweeps] cooling sweeps of a fresh
    copy, the configuration itself staying as it is. *)
Lemma cooling_event_trace (x : loc) (c : list R) (v : R)
    (n_lattice n_cooling_sweeps : Z) (acc : accumulators) (w : world) :
  0 <= n_cooling_sweeps ->
  heap w !! x = Some c -> acc_shaped n_cooling_sweeps acc ->
  exists w' acc' evs,
    cooling_event v n_lattice n_cooling_sweeps x acc w = (w', Ok acc') /\
    acc_shaped n_cooling_sweeps acc' /\
    heap w' !! x = Some c /\
    trace w' = trace w ++ evs /\
    adds evs 0 (Z.to_nat n_cooling_sweeps) 0 [].
Proof.
  intros Hn Hx Hacc. unfold CoolingDensity.cooling_event.
  set (l := fresh (dom (heap w))).
  assert (Hl : l <> x).
  { intros Heq. apply (is_fresh (dom (heap w))). fold l. rewrite Heq.
    apply elem_of_dom. rewrite Hx. eauto. }
  set (w0 := {| CoolingDensity.heap := <[l := c]> (heap w);
                rng := rng RNG w; CoolingDensity.trace := trace w |}).
  assert (Hcopy : np_copy RNG x w = (w0, Ok l)).
  { unfold np_copy, load, alloc, mbind, gets. rewrite Hx. reflexivity. }
  rewrite (mbind_ok _ _ _ _ _ Hcopy).
  destruct (cooling_loop_trace l v n_lattice n_cooling_sweeps
              (Z.to_nat n_cooling_sweeps) ltac:(lia) acc w0 c)
    as (w1 & acc1 & a1 & Hrun & Hacc1 & _ & Hframe & Ht);
    [apply lookup_insert_eq | exact Hacc |].
  rewrite Z2Nat.id in Hrun by lia.
  exists w1, acc1, (repeat (Cooling l) (Z.to_nat n_cooling_sweeps)).
  split; [exact Hrun |]. split; [exact Hacc1 |]. split.
  - rewrite (Hframe x) by auto. unfold w0. cbn.
    rewrite lookup_insert_ne by auto. exact Hx.
  - split; [exact Ht |]. apply adds_coolings.
Qed.

(** One pass of the loop over [i_mc]. *)
Lemma mc_body_trace (v : R)
    (n_lattice n_sweeps_btw_cooling n_cooling_sweeps : Z) (x : loc)
    (st : Z * accumulators) (i_mc : Z) (w : world) :
  0 < n_sweeps_btw_cooling -> 0 <= n_cooling_sweeps ->
  acc_shaped n_cooling_sweeps (snd st) ->
  exists w' st' evs,
    mc_body v n_lattice n_sweeps_btw_cooling n_cooling_sweeps x st i_mc w
    = (w', Ok st') /\
    acc_shaped n_cooling_sweeps (snd st') /\
    is_Some (heap w' !! x) /\
    trace w' = trace w ++ evs /\
    fst st'
    = fst st + (if i_mc mod n_sweeps_btw_cooling =? 0 then 1 else 0) /\
    adds evs 1
      (if i_mc mod n_sweeps_btw_cooling =? 0
       then Z.to_nat n_cooling_sweeps else 0%nat) 0 [].
Proof.
  intros Hk Hn Hacc. unfold CoolingDensity.mc_body.
  destruct (CoolingDensityFacts.do_metropolis_spec RNG metropolis_question
              v x w) as (w1 & Hm & Ht1 & [c Hc]).
  rewrite (mbind_ok _ _ _ _ _ Hm).
  destruct (Z.eqb_spec n_sweeps_btw_cooling 0) as [| _]; [lia |].
  destruct (Z.eqb_spec (i_mc mod n_sweeps_btw_cooling) 0) as [Hz | Hnz].
  - destruct (cooling_event_trace x c v n_lattice n_cooling_sweeps (snd st)
                w1 Hn Hc Hacc) as (w2 & acc2 & evs & Hrun & Hs2 & Hx2 & Ht2 & Ha).
    rewrite (mbind_ok _ _ _ _ _ Hrun). unfold mret.
    exists w2, (fst st + 1, acc2), ([Metropolis x] ++ evs).
    split; [reflexivity |]. split; [exact Hs2 |].
    split; [rewrite Hx2; eauto |].
    split; [rewrite Ht2, Ht1, <- app_assoc; reflexivity |].
    split; [reflexivity |].
    apply (adds_app [Metropolis x] evs 1 0 0 0 _ 0 [] []);
      [repeat split | exact Ha].
  - unfold mret. exists w1, st, [Metropolis x].
    split; [reflexivity |]. split; [exact Hacc |].
    split; [rewrite Hc; eauto |]. split; [exact Ht1 |].
    split; [lia |]. repeat split.
Qed.

(** The first [j] measurement sweeps. *)
Lemma mc_loop_trace (v : R)
    (n_lattice n_sweeps_btw_cooling n_cooling_sweeps : Z) (x : loc)
    (acc : accumulators) (w : world) (j : nat) :
  0 < n_sweeps_btw_cooling -> 0 <= n_cooling_sweeps ->
  acc_shaped n_cooling_sweeps acc ->
  exists w' st' evs,
    mfor_each (range 0 (Z.of_nat j))
      (mc_body v n_lattice n_sweeps_btw_cooling n_cooling_sweeps x)
      (0, acc) w = (w', Ok st') /\
    acc_shaped n_cooling_sweeps (snd st') /\
    trace w' = trace w ++ evs /\
    fst st' = cooling_events (Z.of_nat j) n_sweeps_btw_cooling /\
    adds evs j
      (Z.to_nat (cooling_events (Z.of_nat j) n_sweeps_btw_cooling)
       * Z.to_nat n_cooling_sweeps) 0 [].
Proof.
  intros Hk Hn Hacc. induction j as [| j IH].
  - exists w, (0, acc), []. split; [reflexivity |]. split; [exact Hacc |].
    split; [rewrite app_nil_r; reflexivity |].
    change (Z.of_nat 0) with 0. rewrite cooling_events_0 by exact Hk.
    split; [reflexivity |]. apply adds_nil.
  - destruct IH as (w1 & st1 & evs1 & Hrun & Hacc1 & Ht1 & Hc1 & Ha1).
    destruct (mc_body_trace v n_lattice n_sweeps_btw_cooling
                n_cooling_sweeps x st1 (Z.of_nat j) w1 Hk Hn Hacc1)
      as (w2 & st2 & evs2 & Hbody & Hacc2 & _ & Ht2 & Hc2 & Ha2).
    exists w2, st2, (evs1 ++ evs2).
    rewrite Nat2Z.inj_succ. unfold Z.succ.
    rewrite DiagLoop.range_snoc by lia.
    rewrite (mfor_each_snoc _ _ _ _ _ _ _ Hrun).
    split; [exact Hbody |]. split; [exact Hacc2 |].
    split; [rewrite Ht2, Ht1, <- app_assoc; reflexivity |].
    pose proof (cooling_events_succ (Z.of_nat j) n_sweeps_btw_cooling
                  ltac:(lia) Hk) as Hsucc.
    split; [rewrite Hc2, Hc1, Hsucc; reflexivity |].
    pose proof (adds_app _ _ _ _ _ _ _ _ _ _ Ha1 Ha2) as Ha.
    assert (Hq : 0 <= cooling_events (Z.of_nat j) n_sweeps_btw_cooling)
      by (unfold cooling_events; apply Z.div_pos; lia).
    replace (S j) with (j + 1)%nat by lia.
    replace (Z.to_nat (cooling_events (Z.of_nat j + 1) n_sweeps_btw_cooling)
             * Z.to_nat n_cooling_sweeps)%nat
      with (Z.to_nat (cooling_events (Z.of_nat j) n_sweeps_btw_cooling)
            * Z.to_nat n_cooling_sweeps
            + (if (Z.of_nat j mod n_sweeps_btw_cooling =? 0)%Z
               then Z.to_nat n_cooling_sweeps else 0))%nat.
    + exact Ha.
    + rewrite Hsucc.
      destruct (Z.of_nat j mod n_sweeps_btw_cooling =? 0).
      * replace (Z.to_nat
                   (cooling_events (Z.of_nat j) n_sweeps_btw_cooling + 1))
          with (S (Z.to_nat
                     (cooling_events (Z.of_nat j) n_sweeps_btw_cooling)))
          by lia.
        cbn [Nat.mul]. lia.
      * rewrite Z.add_0_r. lia.
Qed.

(** The equilibration sweeps. *)
Lemma equilibration_trace (v : R) (x : loc) (steps : list Z) :
  forall w : world,
  exists w' evs,
    mfor_each steps (fun _ _ => do_metropolis v x) tt w = (w', Ok tt) /\
    trace w' = trace w ++ evs /\ adds evs (length steps) 0 0 [].
Proof.
  induction steps as [| i steps IH]; intros w.
  - exists w, []. split; [reflexivity |].
    split; [rewrite app_nil_r; reflexivity | apply adds_nil].
  - destruct (CoolingDensityFacts.do_metropolis_spec RNG metropolis_question
                v x w) as (w1 & Hm & Ht1 & _).
    destruct (IH w1) as (w2 & evs & Hrun & Ht2 & Ha).
    exists w2, ([Metropolis x] ++ evs). cbn [mfor_each].
    rewrite (mbind_ok _ _ _ _ _ Hm).
    split; [exact Hrun |].
    split; [rewrite Ht2, Ht1, <- app_assoc; reflexivity |].
    apply (adds_app [Metropolis x] evs 1 0 0 _ 0 0 [] []);
      [repeat split | exact Ha].
Qed.

Lemma adds_eq (evs : list event) (m c f m' c' f' : nat) (s s' : list Z) :
  adds evs m c f s -> m = m' -> c = c' -> f = f' -> s = s' ->
  adds evs m' c' f' s'.
Proof. intros H -> -> -> ->. exact H. Qed.

(** One value of the potential minimum. *)
Lemma minimum_body_trace (n_lattice n_equil n_mc_sweeps : Z) (i_cold : bool)
    (n_sweeps_btw_cooling n_cooling_sweeps : Z)
    (potential_minima : list R) (i_minimum : Z) (w : world) :
  0 <= n_equil < n_mc_sweeps -> 0 < n_sweeps_btw_cooling ->
  0 <= n_cooling_sweeps ->
  0 <= i_minimum < Z.of_nat (length potential_minima) ->
  exists w' pm' evs,
    minimum_body n_lattice n_equil n_mc_sweeps i_cold n_sweeps_btw_cooling
      n_cooling_sweeps potential_minima i_minimum w = (w', Ok pm') /\
    length pm' = length potential_minima /\
    trace w' = trace w ++ evs /\
    adds evs (Z.to_nat n_mc_sweeps)
      (Z.to_nat (cooling_events (n_mc_sweeps - n_equil) n_sweeps_btw_cooling)
       * Z.to_nat n_cooling_sweeps) 5
      [cooling_events (n_mc_sweeps - n_equil) n_sweeps_btw_cooling;
       cooling_events (n_mc_sweeps - n_equil) n_sweeps_btw_cooling].
Proof.
  intros Hn Hk Hcs Hi. unfold CoolingDensity.minimum_body.
  rewrite setitem_nonneg by exact Hi.
  rewrite (mbind_ok _ _ w w _ eq_refl).
  destruct (CoolingDensityFacts.do_initialize_lattice_spec RNG
              initialize_lattice n_lattice i_cold w)
    as (w1 & x & c & Hinit & Ht1 & Hx).
  rewrite (mbind_ok _ _ _ _ _ Hinit).
  rewrite (CoolingDensityFacts.zero_accumulators_ok n_cooling_sweeps Hcs).
  rewrite (mbind_ok _ _ w1 w1 _ eq_refl).
  set (v := (14 / 10 + 1 / 10 * IZR i_minimum)%R).
  destruct (equilibration_trace v x (range 0 n_equil) w1)
    as (w2 & evs2 & Heq & Ht2 & Ha2).
  rewrite (mbind_ok _ _ _ _ _ Heq).
  destruct (mc_loop_trace v n_lattice n_sweeps_btw_cooling n_cooling_sweeps
              x (zero_sums n_cooling_sweeps) w2
              (Z.to_nat (n_mc_sweeps - n_equil)) Hk Hcs
              (CoolingDensityFacts.zero_sums_shaped n_cooling_sweeps))
    as (w3 & st & evs3 & Hmc & _ & Ht3 & Hc3 & Ha3).
  rewrite Z2Nat.id in Hmc, Hc3, Ha3 by lia.
  rewrite (mbind_ok _ _ _ _ _ Hmc).
  pose proof (cooling_events_pos (n_mc_sweeps - n_equil)
                n_sweeps_btw_cooling ltac:(lia) Hk) as Hpos.
  unfold mbind, emit, modify, lift, mret, Aggregator.stat_av_var. cbn.
  destruct (Z.eqb_spec (fst st) 0) as [| _]; [lia |]. cbn.
  eexists _, _, (evs2 ++ evs3 ++ _).
  split; [reflexivity |]. split; [apply length_insert |].
  cbn. rewrite Ht3, Ht2, Ht1, <- !app_assoc.
  split; [reflexivity |].
  rewrite range_length in Ha2.
  eapply adds_eq.
  - eapply adds_app; [exact Ha2 |].
    eapply adds_app; [exact Ha3 |].
    repeat split.
  - cbn. lia.
  - cbn. lia.
  - reflexivity.
  - cbn. rewrite Hc3. reflexivity.
Qed.

(** The first [j] values of the potential minimum. *)
Lemma minima_loop_trace (n_lattice n_equil n_mc_sweeps : Z) (i_cold : bool)
    (n_sweeps_btw_cooling n_cooling_sweeps : Z)
    (potential_minima : list R) (w : world) (j : nat) :
  0 <= n_equil < n_mc_sweeps -> 0 < n_sweeps_btw_cooling ->
  0 <= n_cooling_sweeps -> (j <= length potential_minima)%nat ->
  exists w' pm' evs,
    mfor_each (range 0 (Z.of_nat j))
      (minimum_body n_lattice n_equil n_mc_sweeps i_cold
         n_sweeps_btw_cooling n_cooling_sweeps) potential_minima w
    = (w', Ok pm') /\
    length pm' = length potential_minima /\
    trace w' = trace w ++ evs /\
    adds evs (j * Z.to_nat n_mc_sweeps)
      (j * (Z.to_nat (cooling_events (n_mc_sweeps - n_equil)
                        n_sweeps_btw_cooling)
            * Z.to_nat n_cooling_sweeps)) (j * 5)
      (repeat (cooling_events (n_mc_sweeps - n_equil) n_sweeps_btw_cooling)
         (2 * j)).
Proof.
  intros Hn Hk Hcs. induction j as [| j IH]; intros Hj.
  - exists w, potential_minima, []. split; [reflexivity |].
    split; [reflexivity |]. split; [rewrite app_nil_r; reflexivity |].
    apply adds_nil.
  - destruct (IH ltac:(lia)) as (w1 & pm1 & evs1 & Hrun & Hl1 & Ht1 & Ha1).
    destruct (minimum_body_trace n_lattice n_equil n_mc_sweeps i_cold
                n_sweeps_btw_cooling n_cooling_sweeps pm1 (Z.of_nat j) w1
                Hn Hk Hcs ltac:(lia))
      as (w2 & pm2 & evs2 & Hbody & Hl2 & Ht2 & Ha2).
    exists w2, pm2, (evs1 ++ evs2).
    rewrite Nat2Z.inj_succ. unfold Z.succ.
    rewrite DiagLoop.range_snoc by lia.
    rewrite (mfor_each_snoc _ _ _ _ _ _ _ Hrun).
    split; [exact Hbody |]. split; [lia |].
    split; [rewrite Ht2, Ht1, <- app_assoc; reflexivity |].
    eapply adds_eq; [exact (adds_app _ _ _ _ _ _ _ _ _ _ Ha1 Ha2) | | | |].
    + lia.
    + lia.
    + lia.
    + replace (2 * S j)%nat with (2 * j + 2)%nat by lia.
      rewrite repeat_app. reflexivity.
Qed.


Lemma mbind_raises {W A B} (m : M W A) (k : A -> M W B) (w w' : W) :
  m w = (w', ZeroDivisionError) -> mbind m k w = (w', ZeroDivisionError).
Proof. intros H. unfold mbind. rewrite H. reflexivity. Qed.


End Facts.



End CoolingCounts.

(** ** The number of instantons of the liquid drivers *)

Module RilmDensity.
Import Rilm.
Local Open Scope R_scope.

Lemma floor_bounds (r : R) : IZR (floor r) <= r < IZR (floor r) + 1.
Proof.
  unfold floor. rewrite minus_IZR. destruct (archimed r) as [H1 H2]. lra.
Qed.

(** [np.rint] returns an integer within one half of its argument. *)
Lemma rint_nearest (r : R) : Rabs (IZR (rint r) - r) <= 1 / 2.
Proof.
  unfold rint. pose proof (floor_bounds r) as Hf.
  destruct (Rlt_dec (r - IZR (floor r)) (1 / 2)) as [Hlo | Hlo].
  - apply Rabs_le. lra.
  - destruct (Rlt_dec (1 / 2) (r - IZR (floor r))) as [Hhi | Hhi].
    + rewrite plus_IZR. apply Rabs_le. lra.
    + destruct (Z.even (floor r)).
      * apply Rabs_le. lra.
      * rewrite plus_IZR. apply Rabs_le. lra.
Qed.

Lemma rint_nonneg (r : R) : 0 <= r -> (0 <= rint r)%Z.
Proof.
  intros Hr. pose proof (floor_bounds r) as Hf.
  assert (H0 : (0 <= floor r)%Z).
  { destruct (Z_lt_le_dec (floor r) 0) as [Hneg | Hge]; [| exact Hge].
    exfalso. assert (floor r + 1 <= 0)%Z by lia.
    apply IZR_le in H. rewrite plus_IZR in H. lra. }
  unfold rint.
  destruct (Rlt_dec (r - IZR (floor r)) (1 / 2)); [exact H0 |].
  destruct (Rlt_dec (1 / 2) (r - IZR (floor r))); [lia |].
  destruct (Z.even (floor r)); lia.
Qed.

Section Facts.
Variables (dtau x_potential_minimum action_0 : R).

(** The two-loop density of instantons that the two drivers multiply by
    the length of the lattice. *)
Abbreviation loop_2 s0 :=
  (8 * Rpower x_potential_minimum (5 / 2) * Rpower (2 / PI) (1 / 2)
   * exp (- s0 - 71 / (72 * s0))).

Lemma loop_2_pos (s0 : R) : 0 < loop_2 s0.
Proof.
  unfold Rpower.
  repeat apply Rmult_lt_0_compat; try apply exp_pos; lra.
Qed.

(** X25: In both drivers the number of instantons is an integer nearest to
    the two-loop density times the length [n_lattice * dtau] of the
    lattice, and it is never negative; the heated driver takes the
    classical action [4/3 x_potential_minimum^3] where the random one
    takes [ip.action_0]. *)
Theorem n_ia_nearest_and_nonneg (n_lattice : Z) :
  0 < x_potential_minimum -> action_0 <> 0 ->
  (0 <= n_lattice)%Z -> 0 <= dtau ->
  let n_random := n_ia_random dtau x_potential_minimum action_0 n_lattice in
  let n_heating := n_ia_heating dtau x_potential_minimum n_lattice in
  (0 <= n_random)%Z /\
  Rabs (IZR n_random - loop_2 action_0 * IZR n_lattice * dtau) <= 1 / 2 /\
  (0 <= n_heating)%Z /\
  Rabs (IZR n_heating
        - loop_2 (4 / 3 * x_potential_minimum ^ 3) * IZR n_lattice * dtau)
  <= 1 / 2.
Proof.
  intros _ _ Hn Hd n_random n_heating.
  assert (HL : 0 <= IZR n_lattice) by (apply IZR_le; exact Hn).
  assert (Hpos : forall s0, 0 <= loop_2 s0 * IZR n_lattice * dtau).
  { intros s0. pose proof (loop_2_pos s0).
    apply Rmult_le_pos; [apply Rmult_le_pos |]; lra. }
  subst n_random n_heating. unfold n_ia_random, n_ia_heating.
  split; [apply rint_nonneg, Hpos |].
  split; [apply rint_nearest |].
  split; [apply rint_nonneg, Hpos | apply rint_nearest].
Qed.

End Facts.

Lemma n_ia_nearest_witness :
  0 < 14 / 10 /\ 4 <> 0 /\ (0 <= 800)%Z /\ 0 <= 1 / 20 /\
  (0 <= n_ia_random (1 / 20) (14 / 10) 4 800)%Z /\
  (0 <= n_ia_heating (1 / 20) (14 / 10) 800)%Z.
Proof.
  assert (H1 : 0 < 14 / 10) by lra. assert (H2 : 4 <> 0) by lra.
  assert (H3 : (0 <= 800)%Z) by lia. assert (H4 : 0 <= 1 / 20) by lra.
  split; [exact H1 |]. split; [exact H2 |]. split; [exact H3 |].
  split; [exact H4 |].
  pose proof (n_ia_nearest_and_nonneg (1 / 20) (14 / 10) 4 800 H1 H2 H3 H4)
    as H.
  cbv zeta in H. split; [exact (proj1 H) |].
  exact (proj1 (proj2 (proj2 H))).
Defined.

End RilmDensity.
